(** * ZK trap grid: commitment builder, proof-generation guards and byte
      contract, embedded from the TypeScript helpers and shell scripts.

Part I holds the embedding (one module per source file), Part II the
properties.  Integers that the scripts handle as JavaScript [number] or
[bigint] are [Z]; byte strings are lists of bytes written as [Z] in
[0, 256); JavaScript [undefined] is [None]. *)

From Stdlib Require Import String Ascii DecimalString.
From Stdlib Require DecimalPos DecimalZ HexString.
From Stdlib Require Import ZArith QArith List Bool Lia.
Import ListNotations.

Local Open Scope Z_scope.

(* ================================================================== *)
(** * Part I.  The embedding                                            *)
(* ================================================================== *)

(** ** JavaScript values used by the helpers *)
Module JS.

(** A JavaScript [number]: a finite (rational) value, NaN or an infinity. *)
Inductive number : Type :=
| Num (q : Q)
| NaN
| Infinity (negative : bool).

Definition of_Z (z : Z) : number := Num (inject_Z z).

(** [a < k] for an integer literal [k]. *)
Definition lt_lit (a : number) (k : Z) : bool :=
  match a with
  | Num q => negb (Qle_bool (inject_Z k) q)
  | NaN => false
  | Infinity negative => negative
  end.

(** [a > k] for an integer literal [k]. *)
Definition gt_lit (a : number) (k : Z) : bool :=
  match a with
  | Num q => negb (Qle_bool q (inject_Z k))
  | NaN => false
  | Infinity negative => negb negative
  end.

(** [a >= k] for an integer literal [k]. *)
Definition ge_lit (a : number) (k : Z) : bool :=
  match a with
  | Num q => Qle_bool (inject_Z k) q
  | NaN => false
  | Infinity negative => negb negative
  end.

(** [a === k] for an integer literal [k]. *)
Definition eq_lit (a : number) (k : Z) : bool :=
  match a with
  | Num q => Qeq_bool q (inject_Z k)
  | NaN => false
  | Infinity _ => false
  end.

(** [Number.isInteger(a)]. *)
Definition isInteger (a : number) : bool :=
  match a with
  | Num q => Z.rem (Qnum q) (Zpos (Qden q)) =? 0
  | NaN => false
  | Infinity _ => false
  end.

(** The outcome of a call: a returned value or a thrown [Error(msg)]. *)
Inductive outcome (A : Type) : Type :=
| Returned (a : A)
| Thrown (msg : string).
Arguments Returned {A} a.
Arguments Thrown {A} msg.

(** [arr[i]] for an integer index: [undefined] outside the array. *)
Definition index {A : Type} (arr : list A) (i : Z) : option A :=
  if i <? 0 then None else nth_error arr (Z.to_nat i).

(** [arr.map((v, idx) => f(v, idx))]. *)
Fixpoint map_from {A B : Type} (f : A -> Z -> B) (idx : Z) (arr : list A) : list B :=
  match arr with
  | [] => []
  | v :: rest => f v idx :: map_from f (idx + 1) rest
  end.

Definition map_with_index {A B : Type} (f : A -> Z -> B) (arr : list A) : list B :=
  map_from f 0 arr.

(** [s.padStart(n, c)] for a one-character filler, on the characters. *)
Definition padStartChars (n : nat) (c : ascii) (s : list ascii) : list ascii :=
  repeat c (n - length s) ++ s.

Definition padStart (n : nat) (c : ascii) (s : string) : string :=
  string_of_list_ascii (padStartChars n c (list_ascii_of_string s)).

(** Template-literal rendering of an integer-valued number. *)
Definition show (z : Z) : string := NilZero.string_of_int (Z.to_int z).

End JS.

(** ** trap-grid-frontend/src/lib/utils.ts: grid indexing *)
Module GridIndex.

Definition GRID_SIZE : Z := 8.

Record coords : Type := { x : Z; y : Z }.

(** [x * GRID_SIZE + y] *)
Definition getCellIndex (x y : Z) : Z := x * GRID_SIZE + y.

(** [Math.floor(index / GRID_SIZE)] and the truncating [index % GRID_SIZE]. *)
Definition getCoordinatesFromIndex (index : Z) : coords :=
  {| x := index / GRID_SIZE; y := Z.rem index GRID_SIZE |}.

End GridIndex.


(** ** The two loops shared by both Merkle builders

    [generate_test_data.ts] and [utils.ts] contain the same two loops and
    differ in three expressions only: how the right operand of a pair is
    chosen, how the recorded sibling is chosen, and the loop bound of the
    proof walk.  The loops are written once over these expressions. *)
Module MerkleLoops.
Section Loops.

Context {node : Type}.
(** the hash of a pair *)
Variable combine : node -> node -> node.
(** the expression for [right], from [currentLevel[i + 1]] and [left] *)
Variable pickRight : option node -> node -> node.
(** the expression pushed to [siblings], from [tree[level]],
    [siblingIndex] and [currentIndex] *)
Variable pickSibling : list node -> Z -> Z -> option node.

(** [for (let i = 0; i < currentLevel.length; i += 2) { ... }] *)
Fixpoint pairLoop (fuel : nat) (currentLevel : list node) (i : nat)
    (nextLevel : list node) : list node :=
  match fuel with
  | O => nextLevel
  | S fuel' =>
      match nth_error currentLevel i with
      | None => nextLevel
      | Some left_ =>
          let right_ := pickRight (nth_error currentLevel (i + 1)) left_ in
          pairLoop fuel' currentLevel (i + 2) (nextLevel ++ [combine left_ right_])
      end
  end.

Definition nextLevelOf (currentLevel : list node) : list node :=
  pairLoop (length currentLevel) currentLevel 0 [].

(** The same pairing by recursion on the level, two nodes at a time;
    [pairLoop_pairUp] below shows that the loop computes it. *)
Fixpoint pairUp (currentLevel : list node) : list node :=
  match currentLevel with
  | [] => []
  | [a] => [combine a (pickRight None a)]
  | a :: b :: rest => combine a (pickRight (Some b) a) :: pairUp rest
  end.

Record MerkleProof : Type :=
  { indices : list Z; siblings : list (option node) }.

(** [currentIndex % 2 === 1] *)
Definition isRight (currentIndex : Z) : bool := Z.rem currentIndex 2 =? 1.

Definition siblingIndexOf (currentIndex : Z) : Z :=
  if isRight currentIndex then currentIndex - 1 else currentIndex + 1.

(** The body of the proof walk, run [count] times from [level];
    reading a property of the undefined [tree[level]] is a TypeError. *)
Fixpoint proofLoop (count : nat) (tree : list (list node)) (level : nat)
    (currentIndex : Z) (indices : list Z) (siblings : list (option node))
    : JS.outcome MerkleProof :=
  match count with
  | O => JS.Returned {| indices := indices; siblings := siblings |}
  | S count' =>
      match nth_error tree level with
      | None => JS.Thrown "TypeError: Cannot read properties of undefined"
      | Some nodes =>
          let siblingIndex := siblingIndexOf currentIndex in
          proofLoop count' tree (S level) (currentIndex / 2)
            (indices ++ [if isRight currentIndex then 1 else 0])
            (siblings ++ [pickSibling nodes siblingIndex currentIndex])
      end
  end.

End Loops.
Arguments MerkleProof node : clear implicits.
End MerkleLoops.

(** ** trap-grid-merkle-root/scripts/helpers/generate_test_data.ts *)
Module TestData.

Definition GRID_SIZE : Z := 8.
Definition MERKLE_TREE_DEPTH : nat := 6.

(** [a || b] on [bigint | undefined]: [undefined] and [0n] are falsy. *)
Definition or_else (a b : option Z) : option Z :=
  match a with
  | Some v => if v =? 0 then b else Some v
  | None => b
  end.

(** [currentLevel[i + 1] || left] *)
Definition pickRight (next : option Z) (left : Z) : Z :=
  match or_else next (Some left) with
  | Some v => v
  | None => left
  end.

(** [tree[level][siblingIndex] || tree[level][currentIndex]] *)
Definition pickSibling (nodes : list Z) (siblingIndex currentIndex : Z) : option Z :=
  or_else (JS.index nodes siblingIndex) (JS.index nodes currentIndex).

Definition MerkleProof : Type := MerkleLoops.MerkleProof Z.

Section Poseidon.

(** [poseidon1([a])] and [poseidon2([a, b])] of poseidon-lite. *)
Variable poseidon1 : Z -> Z.
Variable poseidon2 : Z -> Z -> Z.

Definition poseidonHash2 (left right : Z) : Z := poseidon2 left right.

(** [leafIndex] is accepted and not used. *)
Definition computeTrapCommitment (trapValue leafIndex : Z) : Z :=
  poseidon1 trapValue.

Definition nextLevelOf : list Z -> list Z :=
  MerkleLoops.nextLevelOf poseidonHash2 pickRight.

(** [for (let level = 0; level < MERKLE_TREE_DEPTH; level++)]: the
    levels pushed to [tree] after the leaves. *)
Fixpoint buildLoop (levels : nat) (currentLevel : list Z) : list (list Z) :=
  match levels with
  | O => []
  | S levels' =>
      let nextLevel := nextLevelOf currentLevel in
      nextLevel :: buildLoop levels' nextLevel
  end.

Definition buildMerkleTree (grid : list Z) : list (list Z) :=
  let currentLevel := JS.map_with_index computeTrapCommitment grid in
  currentLevel :: buildLoop MERKLE_TREE_DEPTH currentLevel.

Definition generateMerkleProof (tree : list (list Z)) (leafIndex : Z)
    : JS.outcome MerkleProof :=
  MerkleLoops.proofLoop pickSibling MERKLE_TREE_DEPTH tree 0 leafIndex [] [].

(** [tree[tree.length - 1][0]] in [main]. *)
Definition rootOf (tree : list (list Z)) : option Z :=
  match nth_error tree (length tree - 1) with
  | Some top => nth_error top 0
  | None => None
  end.

(** The recomputation that the round-trip property names (the verifying
    side is circuit code, outside these helpers): the proof is walked
    upward in the builder's pairing order, the current node being the
    right operand when the path bit is 1 and the left operand otherwise. *)
Fixpoint recomputePath (current : Z) (indices : list Z)
    (siblings : list (option Z)) : option Z :=
  match indices, siblings with
  | [], [] => Some current
  | bit :: indices', Some sibling :: siblings' =>
      recomputePath
        (if bit =? 1 then poseidonHash2 sibling current
         else poseidonHash2 current sibling)
        indices' siblings'
  | _, _ => None
  end.

End Poseidon.

(** The guard of [main]: [true] when the script prints the range error
    and exits with status 1. *)
Definition mainRejects (moveX moveY : JS.number) : bool :=
  JS.lt_lit moveX 0 || JS.ge_lit moveX GRID_SIZE
  || JS.lt_lit moveY 0 || JS.ge_lit moveY GRID_SIZE.

(** [moveX * GRID_SIZE + moveY] in [main]. *)
Definition leafIndexOf (moveX moveY : Z) : Z := moveX * GRID_SIZE + moveY.

(** Every node of every level is truthy (not [0n]). *)
Definition allTruthy (tree : list (list Z)) : bool :=
  forallb (forallb (fun v => negb (v =? 0))) tree.

End TestData.

(** ** trap-grid-frontend/src/lib/utils.ts: the Merkle builder *)
Module Frontend.

Definition GRID_SIZE : Z := 8.

(** [`hash_${trapValue}_${index}`] *)
Definition hashTrapValue (trapValue index : Z) : string :=
  ("hash_" ++ JS.show trapValue ++ "_" ++ JS.show index)%string.

(** [`hash(${left},${right})`] *)
Definition hashPair (left right : string) : string :=
  ("hash(" ++ left ++ "," ++ right ++ ")")%string.

(** [i + 1 < currentLevel.length ? currentLevel[i + 1] : left] *)
Definition pickRight (next : option string) (left : string) : string :=
  match next with
  | Some v => v
  | None => left
  end.

(** [siblingIndex < tree[level].length ? tree[level][siblingIndex]
      : tree[level][currentIndex]] *)
Definition pickSibling (nodes : list string) (siblingIndex currentIndex : Z)
    : option string :=
  if siblingIndex <? Z.of_nat (length nodes)
  then JS.index nodes siblingIndex
  else JS.index nodes currentIndex.

Definition MerkleProof : Type := MerkleLoops.MerkleProof string.

Definition nextLevelOf : list string -> list string :=
  MerkleLoops.nextLevelOf hashPair pickRight.

(** [while (currentLevel.length > 1) { ... }], returning [tree] and the
    last [currentLevel]. *)
Fixpoint whileLoop (fuel : nat) (tree : list (list string))
    (currentLevel : list string) : list (list string) * list string :=
  match fuel with
  | O => (tree, currentLevel)
  | S fuel' =>
      if (1 <? length currentLevel)%nat
      then
        let nextLevel := nextLevelOf currentLevel in
        whileLoop fuel' (tree ++ [nextLevel]) nextLevel
      else (tree, currentLevel)
  end.

Record Built : Type := { root : option string; tree : list (list string) }.

Definition buildMerkleTree (trapValues : list Z) : JS.outcome Built :=
  if negb (Z.of_nat (length trapValues) =? GRID_SIZE * GRID_SIZE)
  then JS.Thrown "Invalid trap values length"
  else
    let leaves := JS.map_with_index hashTrapValue trapValues in
    let '(tree, currentLevel) := whileLoop (length leaves) [leaves] leaves in
    JS.Returned {| root := nth_error currentLevel 0; tree := tree |}.

(** [for (let level = 0; level < tree.length - 1; level++)] *)
Definition generateMerkleProof (tree : list (list string)) (leafIndex : Z)
    : JS.outcome MerkleProof :=
  MerkleLoops.proofLoop pickSibling (length tree - 1) tree 0 leafIndex [] [].

End Frontend.

(** ** The split of the prover output in the verification shell scripts *)
Module Split.

Local Unset Elimination Schemes.

(** An ABI type of the compiled circuit JSON: [kind], and the optional
    [length], [type] and [fields]. *)
Inductive AbiType : Type :=
| mkAbiType (kind : string) (length : option nat) (type : option AbiType)
    (fields : option (list AbiType)).

Local Set Elimination Schemes.

Definition kind (t : AbiType) : string := let 'mkAbiType k _ _ _ := t in k.
Definition length_of (t : AbiType) : option nat := let 'mkAbiType _ l _ _ := t in l.
Definition fields (t : AbiType) : option (list AbiType) :=
  let 'mkAbiType _ _ _ f := t in f.

Record AbiParameter : Type := { visibility : string; type : AbiType }.

(** The inline [node -e] counter: public parameters count their array
    length, or 1.  An array without [length] makes the sum NaN, on which
    the script stops ([None]). *)
Definition inlinePubCount (parameters : list AbiParameter) : option nat :=
  fold_left
    (fun n p =>
       match n with
       | None => None
       | Some n =>
           if (kind (type p) =? "array")%string
           then match length_of (type p) with
                | Some len => Some (n + len)%nat
                | None => None
                end
           else Some (n + 1)%nat
       end)
    (filter (fun p => (visibility p =? "public")%string) parameters)
    (Some 0%nat).

(** [count_pub_inputs.ts]: [flatten], where a zero [length] is falsy. *)
Fixpoint flatten (t : AbiType) : nat :=
  match t with
  | mkAbiType k (Some len) (Some elem) _ =>
      if (k =? "array")%string && negb (len =? 0)%nat
      then (len * flatten elem)%nat
      else 1%nat
  | _ => 1%nat
  end.

Definition flattenStruct (t : AbiType) : nat :=
  match fields t with
  | Some fs =>
      if (kind t =? "struct")%string
      then fold_left (fun sum field => (sum + flatten field)%nat) fs 0%nat
      else flatten t
  | None => flatten t
  end.

(** [count_pub_inputs.ts]: the first public parameter, flattened; 0
    without one. *)
Definition countPubInputs (parameters : list AbiParameter) : nat :=
  match find (fun p => (visibility p =? "public")%string) parameters with
  | None => 0%nat
  | Some publicParam => flattenStruct (type publicParam)
  end.

(** [PUB_BYTES=$((PUB_COUNT * 32))] *)
Definition PUB_BYTES (PUB_COUNT : nat) : nat := (PUB_COUNT * 32)%nat.

(** [head -c N]: the first N bytes. *)
Definition head_c (n : nat) (file : list Byte.byte) : list Byte.byte :=
  firstn n file.

(** [tail -c +K]: the bytes from the K-th on, counted from 1. *)
Definition tail_c_from (k : nat) (file : list Byte.byte) : list Byte.byte :=
  skipn (k - 1) file.

(** The files [target/public_inputs] and [target/proof] written from
    [target/proof.with_public_inputs]. *)
Definition split (PUB_COUNT : nat) (output : list Byte.byte)
    : list Byte.byte * list Byte.byte :=
  (head_c (PUB_BYTES PUB_COUNT) output,
   tail_c_from (PUB_BYTES PUB_COUNT + 1) output).



End Split.

(** ** lib/zkProof.ts of the position-movement circuit *)
Module ZkProof.

Record ZKProofData : Type :=
  { proof : list Byte.byte; publicInputs : list Byte.byte }.

(** The inputs handed to [noir.execute]; numbers are kept as numbers, their
    [toString()] rendering belongs to the prover boundary. *)
Record CircuitInputs : Type :=
  { trap_commitment : string;
    move_x : JS.number;
    move_y : JS.number;
    is_hit : string;
    trap_value : JS.number }.

(** What a call does besides returning: entering the [try] block that
    loads and runs the prover, and the two console lines of the [catch].
    The [console.log] lines are not recorded. *)
Inductive event : Type :=
| ProverAttempt (inputs : CircuitInputs)
| ConsoleError (msg : string)
| ConsoleWarn (msg : string).

(** [field.toString(16)] *)
Definition toString16 (field : Z) : string :=
  match field with
  | Z0 => "0"
  | Zpos p => HexString.Raw.of_pos p ""
  | Zneg p => String "-" (HexString.Raw.of_pos p "")
  end.

(** ['0x' + field.toString(16).padStart(64, '0')] *)
Definition fieldToHex (field : Z) : string :=
  ("0x" ++ JS.padStart 64 "0" (toString16 field))%string.

(** The four messages thrown by the input checks of [generateProof]. *)
Definition validationError (msg : string) : Prop :=
  msg = "Trap value must be 0 or 1"%string \/
  msg = "Move X must be in range [0, 7]"%string \/
  msg = "Move Y must be in range [0, 7]"%string \/
  msg = "Claimed result must match trap value"%string.

(** [new Uint8Array(n)]: n zero bytes. *)
Definition zeroBytes (n : nat) : list Byte.byte := repeat Byte.x00 n.

Section Prover.

(** [poseidonHash1] of lib/poseidon.ts on the field element of the trap
    value. *)
Variable poseidonHash1 : Z -> Z.

(** The body of the [try] block: the dynamic imports, the fetch of the
    circuit artifact, [noir.execute] and [backend.generateProof]; it
    returns the backend's proof or throws. *)
Variable prover : CircuitInputs -> JS.outcome ZKProofData.

Definition computeTrapCommitment (trapValue : JS.number) : JS.outcome string :=
  if negb (JS.eq_lit trapValue 0) && negb (JS.eq_lit trapValue 1)
  then JS.Thrown "Trap value must be 0 or 1"
  else
    JS.Returned
      (fieldToHex (poseidonHash1 (if JS.eq_lit trapValue 1 then 1 else 0))).

Definition generateProof (trapValue moveX moveY : JS.number) (isHit : bool)
    : list event * JS.outcome ZKProofData :=
  if negb (JS.eq_lit trapValue 0) && negb (JS.eq_lit trapValue 1)
  then ([], JS.Thrown "Trap value must be 0 or 1")
  else if JS.lt_lit moveX 0 || JS.ge_lit moveX 8
  then ([], JS.Thrown "Move X must be in range [0, 7]")
  else if JS.lt_lit moveY 0 || JS.ge_lit moveY 8
  then ([], JS.Thrown "Move Y must be in range [0, 7]")
  else if (isHit && negb (JS.eq_lit trapValue 1))
          || (negb isHit && negb (JS.eq_lit trapValue 0))
  then ([], JS.Thrown "Claimed result must match trap value")
  else
    match computeTrapCommitment trapValue with
    | JS.Thrown msg => ([], JS.Thrown msg)
    | JS.Returned trapCommitment =>
        let inputs :=
          {| trap_commitment := trapCommitment;
             move_x := moveX;
             move_y := moveY;
             is_hit := if isHit then "1" else "0";
             trap_value := trapValue |} in
        match prover inputs with
        | JS.Returned result =>
            ([ProverAttempt inputs],
             JS.Returned {| proof := proof result;
                            publicInputs := publicInputs result |})
        | JS.Thrown msg =>
            ([ProverAttempt inputs;
              ConsoleError "Error generating proof:";
              ConsoleWarn "Falling back to dummy proof data. Install @noir-lang/noir_js and @noir-lang/backend_barretenberg for real proof generation."],
             JS.Returned {| proof := zeroBytes 2144;
                            publicInputs := zeroBytes 128 |})
        end
    end.

End Prover.

End ZkProof.

(** ** lib/zkProof.ts of the Merkle frontend: the placeholder generator *)
Module PlaceholderProof.

(** No input is used; after the simulated delay the fixed bytes are
    returned. *)
Definition generateProof (trapValue moveX moveY : JS.number) (isHit : bool)
    (trapMerkleRoot : string) (merkleProof : Frontend.MerkleProof)
    : JS.outcome ZkProof.ZKProofData :=
  JS.Returned
    {| ZkProof.proof := [Byte.x00; Byte.x01; Byte.x02; Byte.x03];
       ZkProof.publicInputs := [Byte.x00; Byte.x00; Byte.x00; Byte.x00] |}.

End PlaceholderProof.

(** ** app/src/lib/stellar.ts and the attacker's move handler *)
Module Stellar.

(** The arguments of the [make_move] contract call. *)
Record MakeMoveCall : Type :=
  { sessionId : JS.number;
    x : JS.number;
    y : JS.number;
    isHit : bool;
    proof : list Byte.byte;
    publicInputs : list Byte.byte;
    signerPublicKey : string }.

(** [!Number.isInteger(v) || v < 0 || v > 4294967295] *)
Definition notU32 (v : JS.number) : bool :=
  negb (JS.isInteger v) || JS.lt_lit v 0 || JS.gt_lit v 4294967295.

Section Server.

(** The rendering of a number inside a template literal. *)
Variable numberToString : JS.number -> string.

(** Everything after the checks: the account is loaded, the transaction
    with the [make_move] operation is built, the server prepares it and
    the XDR is returned, or one of these throws. *)
Variable prepare : MakeMoveCall -> JS.outcome string.

Definition makeMove (sessionId x y : JS.number) (isHit : bool)
    (proof publicInputs : list Byte.byte) (signerPublicKey : string)
    : JS.outcome string :=
  if notU32 sessionId
  then JS.Thrown ("Invalid session ID: " ++ numberToString sessionId
                  ++ ". Must be an integer between 0 and 4294967295.")
  else if notU32 x
  then JS.Thrown ("Invalid x coordinate: " ++ numberToString x
                  ++ ". Must be an integer between 0 and 4294967295.")
  else if notU32 y
  then JS.Thrown ("Invalid y coordinate: " ++ numberToString y
                  ++ ". Must be an integer between 0 and 4294967295.")
  else
    prepare {| sessionId := sessionId; x := x; y := y; isHit := isHit;
               proof := proof; publicInputs := publicInputs;
               signerPublicKey := signerPublicKey |}.

(** [handleMakeMove] of AttackerUI.tsx up to the [makeMove] call: the
    selected cell goes out with one zero byte as proof and one as public
    inputs, and with [isHit] false. *)
Definition handleMakeMove (sessionId : JS.number) (selectedCell : JS.number * JS.number)
    (publicKey : string) : JS.outcome string :=
  let '(x, y) := selectedCell in
  let dummyProof := [Byte.x00] in
  let dummyPublicInputs := [Byte.x00] in
  makeMove sessionId x y false dummyProof dummyPublicInputs publicKey.

End Server.

End Stellar.

(** ** circuits/trap-commitment/scripts/helpers/build_public_inputs.ts

    A [Buffer] is the list of its bytes, each a [Z]. *)
Module PublicInputs.

Definition Buffer : Type := list Z.

Record PublicInputs : Type :=
  { trap_merkle_root : string;
    move_x : Z;
    move_y : Z;
    is_hit : Z;
    trap_merkle_proof_length : Z;
    trap_merkle_proof_indices : list Z;
    trap_merkle_proof_siblings : list string }.

(** [Buffer.alloc(n)] *)
Definition alloc (n : nat) : Buffer := repeat 0 n.

(** The bytes of [buf] with [bytes] stored from [offset] on. *)
Definition store (buf : Buffer) (offset : nat) (bytes : list Z) : Buffer :=
  firstn offset buf ++ bytes ++ skipn (offset + length bytes) buf.

(** The [n] low bytes of [v], most significant first. *)
Fixpoint bigEndian (n : nat) (v : Z) : list Z :=
  match n with
  | O => []
  | S n' => (Z.shiftr v (8 * Z.of_nat n')) mod 256 :: bigEndian n' v
  end.

(** [buf.writeBigUInt64BE(value, offset)]: a RangeError outside
    [0, 2^64). *)
Definition writeBigUInt64BE (buf : Buffer) (value : Z) (offset : nat)
    : JS.outcome Buffer :=
  if (value <? 0) || (2 ^ 64 <=? value)
  then JS.Thrown "RangeError [ERR_OUT_OF_RANGE]"
  else JS.Returned (store buf offset (bigEndian 8 value)).

(** [buf.writeUInt32BE(value, offset)]: a RangeError outside [0, 2^32). *)
Definition writeUInt32BE (buf : Buffer) (value : Z) (offset : nat)
    : JS.outcome Buffer :=
  if (value <? 0) || (2 ^ 32 <=? value)
  then JS.Thrown "RangeError [ERR_OUT_OF_RANGE]"
  else JS.Returned (store buf offset (bigEndian 4 value)).

(** [num] is [BigInt(value)]. *)
Definition u32ToBytes32 (num : Z) : JS.outcome Buffer :=
  let buf := alloc 32 in
  match writeBigUInt64BE buf (Z.shiftr num 32) 24 with
  | JS.Thrown msg => JS.Thrown msg
  | JS.Returned buf => writeUInt32BE buf (Z.land num 4294967295) 28
  end.

Definition u1ToBytes32 (num : Z) : JS.outcome Buffer := u32ToBytes32 num.

Definition hexDigit (c : ascii) : option Z :=
  option_map Z.of_N (HexString.ascii_to_digit c).

(** [Buffer.from(chars, 'hex')]: one byte per pair of hex digits, up to the
    first pair that is not one; a last single character is dropped. *)
Fixpoint bufferFromHex (chars : list ascii) : Buffer :=
  match chars with
  | a :: b :: rest =>
      match hexDigit a, hexDigit b with
      | Some hi, Some lo => (16 * hi + lo) :: bufferFromHex rest
      | _, _ => []
      end
  | _ => []
  end.

(** [hex.startsWith('0x') ? hex.slice(2) : hex] *)
Definition cleanHex (hex : list ascii) : list ascii :=
  match hex with
  | "0"%char :: "x"%char :: rest => rest
  | _ => hex
  end.

Definition hexToBytes32 (hex : string) : Buffer :=
  let padded := JS.padStartChars 64 "0" (cleanHex (list_ascii_of_string hex)) in
  bufferFromHex padded.

Definition fieldToBytes32 (value : string) : Buffer := hexToBytes32 value.

(** [indices[i] || '0'], on the BigInt values of the entries. *)
Definition indexOrZero (indices : list Z) (i : nat) : Z :=
  match nth_error indices i with
  | Some v => v
  | None => 0
  end.

(** [siblings[i] || '0x0'] *)
Definition siblingOrZero (siblings : list string) (i : nat) : string :=
  match nth_error siblings i with
  | Some EmptyString => "0x0"
  | Some s => s
  | None => "0x0"
  end.

(** The pushes to [fields], in program order. *)
Definition fieldPushes (publicInputs : PublicInputs) : list (JS.outcome Buffer) :=
  [ JS.Returned (fieldToBytes32 (trap_merkle_root publicInputs));
    u32ToBytes32 (move_x publicInputs);
    u32ToBytes32 (move_y publicInputs);
    u32ToBytes32 (is_hit publicInputs);
    u32ToBytes32 (trap_merkle_proof_length publicInputs) ]
  ++ map (fun i => u1ToBytes32
                     (indexOrZero (trap_merkle_proof_indices publicInputs) i))
       (seq 0 6)
  ++ map (fun i => JS.Returned
                     (fieldToBytes32
                        (siblingOrZero (trap_merkle_proof_siblings publicInputs) i)))
       (seq 0 6).

(** Running the pushes: the first throw ends the script. *)
Fixpoint runPushes (pushes : list (JS.outcome Buffer)) : JS.outcome (list Buffer) :=
  match pushes with
  | [] => JS.Returned []
  | JS.Thrown msg :: _ => JS.Thrown msg
  | JS.Returned buf :: rest =>
      match runPushes rest with
      | JS.Thrown msg => JS.Thrown msg
      | JS.Returned bufs => JS.Returned (buf :: bufs)
      end
  end.

Definition fields (publicInputs : PublicInputs) : JS.outcome (list Buffer) :=
  runPushes (fieldPushes publicInputs).

(** [Buffer.concat(fields)], the content of [target/public_inputs]. *)
Definition publicInputsBuffer (publicInputs : PublicInputs) : JS.outcome Buffer :=
  match fields publicInputs with
  | JS.Thrown msg => JS.Thrown msg
  | JS.Returned bufs => JS.Returned (concat bufs)
  end.

(** The number a byte string denotes, most significant byte first. *)
Definition bigEndianValue (bytes : list Z) : Z :=
  fold_left (fun acc b => 256 * acc + b) bytes 0.

(** The number a string of hex digits denotes. *)
Definition hexValue (chars : list ascii) : Z :=
  fold_left
    (fun acc c => 16 * acc + match hexDigit c with Some d => d | None => 0 end)
    chars 0.

Definition isByte (b : Z) : Prop := 0 <= b < 256.

(** A chunk that is the 32-byte big-endian encoding of [v]. *)
Definition encodes (chunk : Buffer) (v : Z) : Prop :=
  length chunk = 32%nat /\ Forall isByte chunk /\ bigEndianValue chunk = v.

Definition allHex (chars : list ascii) : bool :=
  forallb (fun c => match hexDigit c with Some _ => true | None => false end) chars.

(** A field element written in hex: optional [0x], then at most 64 hex
    digits. *)
Definition isFieldHex (value : string) : bool :=
  let digits := cleanHex (list_ascii_of_string value) in
  (length digits <=? 64)%nat && allHex digits.

Definition isU32 (v : Z) : bool := (0 <=? v) && (v <? 2 ^ 32).

(** The value that a field element written in hex denotes. *)
Definition fieldValue (value : string) : Z :=
  hexValue (cleanHex (list_ascii_of_string value)).

(** The values of the 17 fields in the declared order, read from the
    record itself: the root, the four u32 values, the entries of the
    index array and the values of the entries of the sibling array. *)
Definition declaredValues (publicInputs : PublicInputs) : list Z :=
  [ fieldValue (trap_merkle_root publicInputs);
    move_x publicInputs;
    move_y publicInputs;
    is_hit publicInputs;
    trap_merkle_proof_length publicInputs ]
  ++ trap_merkle_proof_indices publicInputs
  ++ map fieldValue (trap_merkle_proof_siblings publicInputs).

(** Inputs of the declared types: a root in hex, four u32 values, six
    u32 indices and six siblings in hex. *)
Definition wellTyped (publicInputs : PublicInputs) : bool :=
  isFieldHex (trap_merkle_root publicInputs)
  && isU32 (move_x publicInputs)
  && isU32 (move_y publicInputs)
  && isU32 (is_hit publicInputs)
  && isU32 (trap_merkle_proof_length publicInputs)
  && (length (trap_merkle_proof_indices publicInputs) =? 6)%nat
  && forallb isU32 (trap_merkle_proof_indices publicInputs)
  && (length (trap_merkle_proof_siblings publicInputs) =? 6)%nat
  && forallb isFieldHex (trap_merkle_proof_siblings publicInputs).

(** The first six of [values], continued with zeros when there are fewer. *)
Definition sixOf (values : list Z) : list Z := firstn 6 (values ++ repeat 0 6).

End PublicInputs.

(** ** The upward walk of a Merkle proof, over any pair hash

    The recomputation of [TestData.recomputePath], for the builders whose
    nodes are not field elements. *)
Module MerklePath.
Section Path.

Context {node : Type}.
Variable combine : node -> node -> node.

Fixpoint recompute (current : node) (indices : list Z)
    (siblings : list (option node)) : option node :=
  match indices, siblings with
  | [], [] => Some current
  | bit :: indices', Some sibling :: siblings' =>
      recompute
        (if bit =? 1 then combine sibling current else combine current sibling)
        indices' siblings'
  | _, _ => None
  end.

End Path.
End MerklePath.

(** ** generate_test_data.ts: the grid and the hex printing *)
Module TestDataMain.




(** ['0x' + bigIntValue.toString(16).padStart(64, '0')] *)
Definition bigIntToHex (value : Z) : string :=
  ("0x" ++ JS.padStart 64 "0" (ZkProof.toString16 value))%string.

End TestDataMain.

(** ** The grid state of the two player screens (types and utils.ts) *)
Module GridState.

Record Cell : Type :=
  { x : Z; y : Z; hasTrap : bool; isRevealed : bool; isHit : option bool }.

Definition Grid : Type := list (list Cell).

(** The values 0, 1, ..., 7 taken by a loop variable below [GRID_SIZE]. *)
Definition axis : list Z := map Z.of_nat (seq 0 (Z.to_nat GridIndex.GRID_SIZE)).

(** [initializeGrid()] *)
Definition initializeGrid : Grid :=
  map (fun x =>
         map (fun y => {| x := x; y := y; hasTrap := false; isRevealed := false;
                          isHit := None |})
           axis)
    axis.

(** [grid[x][y]] where both reads succeed; reading through an undefined
    [grid[x]], or a property of an undefined [grid[x][y]], is a TypeError
    in the callers. *)
Definition cellAt (grid : Grid) (x y : Z) : option Cell :=
  match JS.index grid x with
  | Some row => JS.index row y
  | None => None
  end.

(** The array with element [i] replaced, for [i] inside the array. *)
Definition replaceAt {A : Type} (arr : list A) (i : Z) (a : A) : list A :=
  if i <? 0 then arr
  else if (Z.to_nat i <? length arr)%nat
       then firstn (Z.to_nat i) arr ++ a :: skipn (S (Z.to_nat i)) arr
       else arr.

(** The grid after an assignment to the fields of [grid[x][y]]. *)
Definition setCell (grid : Grid) (x y : Z) (cell : Cell) : Grid :=
  match JS.index grid x with
  | Some row => replaceAt grid x (replaceAt row y cell)
  | None => grid
  end.

(** A grid of 8 rows of 8 cells. *)
Definition wellFormed (grid : Grid) : Prop :=
  length grid = 8%nat /\ Forall (fun row => length row = 8%nat) grid.

(** The row-major list of the coordinates visited by two nested loops over
    [axis]. *)
Definition coordinates : list (Z * Z) :=
  flat_map (fun x => map (fun y => (x, y)) axis) axis.

End GridState.

(** ** DefenderUI.tsx: setting and committing the traps *)
Module DefenderUI.

(** [handleCellClick]: the state passed to [setGrid], or the grid as it is
    when traps are no longer being set. *)
Definition handleCellClick (isSettingTraps : bool) (grid : GridState.Grid)
    (x y : Z) : JS.outcome GridState.Grid :=
  if negb isSettingTraps then JS.Returned grid
  else
    match GridState.cellAt grid x y with
    | None => JS.Thrown "TypeError: Cannot read properties of undefined"
    | Some cell =>
        JS.Returned
          (GridState.setCell grid x y
             {| GridState.x := GridState.x cell;
                GridState.y := GridState.y cell;
                GridState.hasTrap := negb (GridState.hasTrap cell);
                GridState.isRevealed := GridState.isRevealed cell;
                GridState.isHit := GridState.isHit cell |})
    end.

(** The two loops of [handleCommitTraps], over the coordinates still to
    visit. *)
Fixpoint pushTrapValues (grid : GridState.Grid) (cells : list (Z * Z))
    (trapValues : list Z) : JS.outcome (list Z) :=
  match cells with
  | [] => JS.Returned trapValues
  | (x, y) :: rest =>
      match GridState.cellAt grid x y with
      | None => JS.Thrown "TypeError: Cannot read properties of undefined"
      | Some cell =>
          pushTrapValues grid rest
            (trapValues ++ [if GridState.hasTrap cell then 1 else 0])
      end
  end.

(** [handleCommitTraps]: the [trapValues] written to local storage under
    the key of the session. *)
Definition handleCommitTraps (grid : GridState.Grid) : JS.outcome (list Z) :=
  pushTrapValues grid GridState.coordinates [].

End DefenderUI.

(** ** lib/defenderProof.ts *)
Module DefenderProof.

Record StoredTrapGrid : Type := { trapValues : list JS.number }.

Record Response : Type :=
  { proof : list Byte.byte;
    publicInputs : list Byte.byte;
    isHit : bool;
    trapCommitment : string }.

Section Storage.

(** [loadTrapGrid]: the object parsed from local storage for the session,
    or [null]. *)
Variable loadTrapGrid : Z -> option StoredTrapGrid.
Variable poseidonHash1 : Z -> Z.
Variable prover : ZkProof.CircuitInputs -> JS.outcome ZkProof.ZKProofData.

Definition generateDefenderProof (sessionId moveX moveY : Z)
    : list ZkProof.event * JS.outcome Response :=
  match loadTrapGrid sessionId with
  | None =>
      ([], JS.Thrown "Trap grid not found. Did you set up traps for this session?")
  | Some trapGrid =>
      let cellIndex := GridIndex.getCellIndex moveX moveY in
      match JS.index (trapValues trapGrid) cellIndex with
      | None => ([], JS.Thrown "Invalid move coordinates")
      | Some trapValue =>
          let isHit := JS.eq_lit trapValue 1 in
          match ZkProof.computeTrapCommitment poseidonHash1 trapValue with
          | JS.Thrown msg => ([], JS.Thrown msg)
          | JS.Returned trapCommitment =>
              match ZkProof.generateProof poseidonHash1 prover trapValue
                      (JS.of_Z moveX) (JS.of_Z moveY) isHit with
              | (events, JS.Thrown msg) => (events, JS.Thrown msg)
              | (events, JS.Returned proofData) =>
                  (events,
                   JS.Returned
                     {| proof := ZkProof.proof proofData;
                        publicInputs := ZkProof.publicInputs proofData;
                        isHit := isHit;
                        trapCommitment := trapCommitment |})
              end
          end
      end
  end.

(** [getTrapPositions]: the coordinates, in row-major order, whose stored
    value is strictly 1. *)
Definition getTrapPositions (sessionId : Z) : list (Z * Z) :=
  match loadTrapGrid sessionId with
  | None => []
  | Some trapGrid =>
      filter
        (fun xy =>
           match JS.index (trapValues trapGrid)
                   (GridIndex.getCellIndex (fst xy) (snd xy)) with
           | Some v => JS.eq_lit v 1
           | None => false
           end)
        GridState.coordinates
  end.

End Storage.

End DefenderProof.

(** ** AttackerUI.tsx: showing the moves *)
Module AttackerUI.

Record Move : Type := { x : Z; y : Z; isHit : bool; verified : bool }.

(** The body of the [forEach] in [updateGridWithMoves]. *)
Definition reveal (newGrid : GridState.Grid) (move : Move)
    : JS.outcome GridState.Grid :=
  match GridState.cellAt newGrid (x move) (y move) with
  | None => JS.Thrown "TypeError: Cannot read properties of undefined"
  | Some cell =>
      JS.Returned
        (GridState.setCell newGrid (x move) (y move)
           {| GridState.x := GridState.x cell;
              GridState.y := GridState.y cell;
              GridState.hasTrap := GridState.hasTrap cell;
              GridState.isRevealed := true;
              GridState.isHit := Some (isHit move) |})
  end.

Fixpoint updateGridWithMoves (prevGrid : GridState.Grid) (gameMoves : list Move)
    : JS.outcome GridState.Grid :=
  match gameMoves with
  | [] => JS.Returned prevGrid
  | move :: rest =>
      match reveal prevGrid move with
      | JS.Thrown msg => JS.Thrown msg
      | JS.Returned newGrid => updateGridWithMoves newGrid rest
      end
  end.

(** [handleCellClick]: the cell passed to [setSelectedCell], if any;
    [gameEnded] is [None] while no game state is loaded. *)
Definition handleCellClick (gameEnded : option bool) (grid : GridState.Grid)
    (x y : Z) : JS.outcome (option (Z * Z)) :=
  match gameEnded with
  | None => JS.Returned None
  | Some true => JS.Returned None
  | Some false =>
      match GridState.cellAt grid x y with
      | None => JS.Thrown "TypeError: Cannot read properties of undefined"
      | Some cell =>
          if GridState.isRevealed cell then JS.Returned None
          else JS.Returned (Some (x, y))
      end
  end.

(** [moves.filter((m) => m.isHit).length] *)
Definition hits (moves : list Move) : nat := length (filter isHit moves).

(** [moves.filter((m) => !m.isHit).length] *)
Definition misses (moves : list Move) : nat :=
  length (filter (fun m => negb (isHit m)) moves).

End AttackerUI.

(** ** lib/zkProof.ts: formatting and local verification *)
Module ProofFormat.

(** [b.toString(16).padStart(2, '0')] *)
Definition byteToHex (b : Byte.byte) : string :=
  JS.padStart 2 "0" (ZkProof.toString16 (Z.of_N (Byte.to_N b))).

(** ['0x' + Array.from(bytes).map(...).join('')] *)
Definition bytesToHex (bytes : list Byte.byte) : string :=
  ("0x" ++ String.concat "" (map byteToHex bytes))%string.

Record Formatted : Type := { proofHex : string; publicInputsHex : string }.

Definition formatProofForContract (proofData : ZkProof.ZKProofData) : Formatted :=
  {| proofHex := bytesToHex (ZkProof.proof proofData);
     publicInputsHex := bytesToHex (ZkProof.publicInputs proofData) |}.

Section Local.

(** The import of the backend and the fetch of the circuit artifact: the
    [ok] flag of the response, or a throw. *)
Variable circuitResponse : JS.outcome bool.

(** Reading the artifact, building the backend and [backend.verifyProof]:
    the backend's verdict, or a throw. *)
Variable verifyProof : list Byte.byte -> list Byte.byte -> JS.outcome bool.

Definition verifyProofLocally (proof publicInputs : list Byte.byte)
    : list ZkProof.event * bool :=
  match circuitResponse with
  | JS.Thrown msg =>
      ([ZkProof.ConsoleError "Error verifying proof locally:";
        ZkProof.ConsoleWarn "Skipping local verification"], true)
  | JS.Returned false =>
      ([ZkProof.ConsoleWarn "Circuit not found, skipping local verification"], true)
  | JS.Returned true =>
      match verifyProof proof publicInputs with
      | JS.Returned verified => ([], verified)
      | JS.Thrown msg =>
          ([ZkProof.ConsoleError "Error verifying proof locally:";
            ZkProof.ConsoleWarn "Skipping local verification"], true)
      end
  end.

End Local.

End ProofFormat.

(** ** app/src/lib/stellar.ts: starting a game *)
Module StellarStart.

(** The arguments of the [start_game] contract call. *)
Record StartGameCall : Type :=
  { sessionId : JS.number;
    defender : string;
    attacker : string;
    defenderPoints : JS.number;
    attackerPoints : JS.number;
    signerPublicKey : string }.

Section Server.

Variable numberToString : JS.number -> string.

(** Everything after the check: the account is loaded, the transaction is
    built and prepared, the XDR is returned, or one of these throws. *)
Variable prepare : StartGameCall -> JS.outcome string.

Definition startGame (sessionId : JS.number) (defender attacker : string)
    (defenderPoints attackerPoints : JS.number) (signerPublicKey : string)
    : JS.outcome string :=
  if Stellar.notU32 sessionId
  then JS.Thrown ("Invalid session ID: " ++ numberToString sessionId
                  ++ ". Must be an integer between 0 and 4294967295.")
  else
    prepare {| sessionId := sessionId; defender := defender; attacker := attacker;
               defenderPoints := defenderPoints; attackerPoints := attackerPoints;
               signerPublicKey := signerPublicKey |}.

End Server.

End StellarStart.

(* ================================================================== *)
(** * Part II.  Properties                                              *)
(* ================================================================== *)

(** ** Grid indexing *)

Lemma getCoordinatesFromIndex_getCellIndex (x y : Z) :
  0 <= x -> 0 <= y < 8 ->
  GridIndex.getCoordinatesFromIndex (GridIndex.getCellIndex x y)
  = {| GridIndex.x := x; GridIndex.y := y |}.
Proof.
  intros Hx Hy.
  unfold GridIndex.getCoordinatesFromIndex, GridIndex.getCellIndex, GridIndex.GRID_SIZE.
  f_equal.
  - symmetry. apply Z.div_unique with y; lia.
  - rewrite Z.rem_mod_nonneg by lia.
    symmetry. apply Z.mod_unique with x; lia.
Qed.

Lemma getCellIndex_getCoordinatesFromIndex (i : Z) :
  0 <= i ->
  GridIndex.getCellIndex
    (GridIndex.x (GridIndex.getCoordinatesFromIndex i))
    (GridIndex.y (GridIndex.getCoordinatesFromIndex i)) = i.
Proof.
  intros Hi. unfold GridIndex.getCoordinatesFromIndex, GridIndex.getCellIndex,
    GridIndex.GRID_SIZE; simpl.
  rewrite Z.rem_mod_nonneg by lia.
  pose proof (Z.div_mod i 8 ltac:(lia)). lia.
Qed.

Lemma getCoordinatesFromIndex_range (i : Z) :
  0 <= i < 64 ->
  0 <= GridIndex.x (GridIndex.getCoordinatesFromIndex i) < 8 /\
  0 <= GridIndex.y (GridIndex.getCoordinatesFromIndex i) < 8.
Proof.
  intros Hi. unfold GridIndex.getCoordinatesFromIndex, GridIndex.GRID_SIZE; simpl.
  rewrite Z.rem_mod_nonneg by lia.
  pose proof (Z.mod_pos_bound i 8 ltac:(lia)).
  pose proof (Z.div_lt_upper_bound i 8 8 ltac:(lia) ltac:(lia)).
  pose proof (Z.div_pos i 8 ltac:(lia) ltac:(lia)). lia.
Qed.

Lemma getCellIndex_range (x y : Z) :
  0 <= x < 8 -> 0 <= y < 8 -> 0 <= GridIndex.getCellIndex x y < 64.
Proof. unfold GridIndex.getCellIndex, GridIndex.GRID_SIZE. lia. Qed.

(** C10. Row-major flattening is a bijection between [0,8)x[0,8) and
    [0,64): [getCoordinatesFromIndex (getCellIndex x y)] is [{x, y}] for
    x, y in [0,8), the index of such a cell lies in [0,64), and for every
    index i in [0,64) the coordinates returned lie in [0,8) and
    [getCellIndex] maps them back to i. *)
Theorem cell_index_round_trip :
  (forall x y, 0 <= x < 8 -> 0 <= y < 8 ->
     0 <= GridIndex.getCellIndex x y < 64 /\
     GridIndex.getCoordinatesFromIndex (GridIndex.getCellIndex x y)
     = {| GridIndex.x := x; GridIndex.y := y |}) /\
  (forall i, 0 <= i < 64 ->
     let c := GridIndex.getCoordinatesFromIndex i in
     (0 <= GridIndex.x c < 8 /\ 0 <= GridIndex.y c < 8) /\
     GridIndex.getCellIndex (GridIndex.x c) (GridIndex.y c) = i).
Proof.
  split.
  - intros x y Hx Hy. split.
    + now apply getCellIndex_range.
    + apply getCoordinatesFromIndex_getCellIndex; lia.
  - intros i Hi c. split.
    + now apply getCoordinatesFromIndex_range.
    + apply getCellIndex_getCoordinatesFromIndex; lia.
Qed.

Lemma cell_index_round_trip_witness :
  GridIndex.getCoordinatesFromIndex (GridIndex.getCellIndex 3 4)
  = {| GridIndex.x := 3; GridIndex.y := 4 |} /\
  GridIndex.getCellIndex
    (GridIndex.x (GridIndex.getCoordinatesFromIndex 28))
    (GridIndex.y (GridIndex.getCoordinatesFromIndex 28)) = 28.
Proof.
  destruct cell_index_round_trip as [H1 H2]. split.
  - apply (H1 3 4); lia.
  - apply (H2 28); lia.
Defined.

(** ** The shared loops *)
Section LoopFacts.

Context {node : Type}.
Variable combine : node -> node -> node.
Variable pickRight : option node -> node -> node.
Variable pickSibling : list node -> Z -> Z -> option node.

Local Abbreviation pairLoop := (MerkleLoops.pairLoop combine pickRight).
Local Abbreviation pairUp := (MerkleLoops.pairUp combine pickRight).
Local Abbreviation nextLevelOf := (MerkleLoops.nextLevelOf combine pickRight).
Local Abbreviation proofLoop := (MerkleLoops.proofLoop pickSibling).

Lemma list_pair_ind (P : list node -> Prop) :
  P [] -> (forall a, P [a]) -> (forall a b l, P l -> P (a :: b :: l)) ->
  forall l, P l.
Proof.
  intros H0 H1 H2 l.
  assert (H : P l /\ forall a, P (a :: l)).
  { induction l as [|b l [IH1 IH2]]; split; auto. }
  apply H.
Qed.

Lemma pairLoop_pairUp (fuel : nat) :
  forall cur i acc, (length cur <= i + fuel)%nat ->
    pairLoop fuel cur i acc = acc ++ pairUp (skipn i cur).
Proof.
  induction fuel as [|fuel IH]; intros cur i acc Hlen; simpl.
  - rewrite skipn_all2 by lia. simpl. now rewrite app_nil_r.
  - pose proof (nth_error_skipn i cur 0) as E0.
    pose proof (nth_error_skipn i cur 1) as E1.
    pose proof (skipn_skipn 2 i cur) as E2.
    rewrite Nat.add_0_r in E0.
    replace (2 + i)%nat with (i + 2)%nat in E2 by lia.
    destruct (skipn i cur) as [|a [|b rest]]; simpl in E0, E1, E2;
      rewrite <- E0.
    + simpl. now rewrite app_nil_r.
    + rewrite IH by lia. rewrite <- E1, <- E2. simpl.
      now rewrite <- app_assoc.
    + rewrite IH by lia. rewrite <- E1, <- E2. simpl.
      now rewrite <- app_assoc.
Qed.

Lemma nextLevelOf_pairUp (cur : list node) : nextLevelOf cur = pairUp cur.
Proof.
  unfold MerkleLoops.nextLevelOf. rewrite pairLoop_pairUp by lia. reflexivity.
Qed.

Lemma pairUp_length (l : list node) :
  length (pairUp l) = Nat.div2 (S (length l)).
Proof.
  induction l as [|a|a b l IH] using list_pair_ind; simpl; auto.
Qed.

(** No node is dropped: a level of [n] nodes has [ceil (n / 2)] parents. *)
Lemma nextLevelOf_length (l : list node) :
  length (nextLevelOf l) = Nat.div2 (S (length l)).
Proof. rewrite nextLevelOf_pairUp. apply pairUp_length. Qed.

Lemma pairUp_nth (k : nat) :
  forall l a, nth_error l (2 * k) = Some a ->
    nth_error (pairUp l) k
    = Some (combine a (pickRight (nth_error l (2 * k + 1)) a)).
Proof.
  induction k as [|k IH]; intros l a Ha.
  - destruct l as [|x [|y r]]; simpl in *; try discriminate;
      injection Ha as ->; reflexivity.
  - replace (2 * S k)%nat with (S (S (2 * k))) in * by lia.
    destruct l as [|x [|y r]]; simpl in Ha; try discriminate.
    simpl. apply IH. exact Ha.
Qed.

(** The parent at position [k] pairs nodes [2k] and [2k+1] of the level. *)
Lemma nextLevelOf_nth (l : list node) (k : nat) (a : node) :
  nth_error l (2 * k) = Some a ->
  nth_error (nextLevelOf l) k
  = Some (combine a (pickRight (nth_error l (2 * k + 1)) a)).
Proof. rewrite nextLevelOf_pairUp. apply pairUp_nth. Qed.

(** The walk with accumulators is the walk from empty ones, prefixed. *)
Lemma proofLoop_acc (n : nat) :
  forall tree level c bits sibs,
    proofLoop n tree level c bits sibs
    = match proofLoop n tree level c [] [] with
      | JS.Returned p =>
          JS.Returned {| MerkleLoops.indices := bits ++ MerkleLoops.indices p;
                         MerkleLoops.siblings := sibs ++ MerkleLoops.siblings p |}
      | JS.Thrown m => JS.Thrown m
      end.
Proof.
  induction n as [|n IH]; intros tree level c bits sibs; simpl.
  - now rewrite !app_nil_r.
  - destruct (nth_error tree level) as [nodes|]; [|reflexivity].
    rewrite IH. rewrite (IH _ _ _ [_] [_]).
    destruct (proofLoop n tree (S level) (c / 2) [] []); simpl; [|reflexivity].
    now rewrite <- !app_assoc.
Qed.

Lemma proofLoop_step (n : nat) tree level c :
  proofLoop (S n) tree level c [] []
  = match nth_error tree level with
    | None => JS.Thrown "TypeError: Cannot read properties of undefined"
    | Some nodes =>
        match proofLoop n tree (S level) (c / 2) [] [] with
        | JS.Returned p =>
            JS.Returned
              {| MerkleLoops.indices :=
                   (if MerkleLoops.isRight c then 1 else 0) :: MerkleLoops.indices p;
                 MerkleLoops.siblings :=
                   pickSibling nodes (MerkleLoops.siblingIndexOf c) c
                   :: MerkleLoops.siblings p |}
        | JS.Thrown m => JS.Thrown m
        end
    end.
Proof.
  simpl. destruct (nth_error tree level) as [nodes|]; [|reflexivity].
  rewrite proofLoop_acc. reflexivity.
Qed.

(** The walk returns whenever the levels it visits exist. *)
Lemma proofLoop_returns (n : nat) :
  forall tree level c, (level + n <= length tree)%nat ->
    exists p, proofLoop n tree level c [] [] = JS.Returned p
              /\ length (MerkleLoops.indices p) = n
              /\ length (MerkleLoops.siblings p) = n.
Proof.
  induction n as [|n IH]; intros tree level c Hlen.
  - simpl. eexists; repeat split.
  - rewrite proofLoop_step.
    destruct (nth_error tree level) as [nodes|] eqn:E.
    + destruct (IH tree (S level) (c / 2)) as (p & -> & Hi & Hs); [lia|].
      eexists; repeat split; simpl; congruence.
    + apply nth_error_None in E. lia.
Qed.

Lemma halve_pow (c : Z) (k : nat) :
  c / 2 / 2 ^ Z.of_nat k = c / 2 ^ Z.of_nat (S k).
Proof.
  rewrite Z.div_div by lia.
  now rewrite Nat2Z.inj_succ, Z.pow_succ_r by lia.
Qed.


End LoopFacts.

(** ** generate_test_data.ts *)
Section TestDataFacts.

Variable poseidon1 : Z -> Z.
Variable poseidon2 : Z -> Z -> Z.

Local Abbreviation H := (TestData.poseidonHash2 poseidon2).
Local Abbreviation nextLevelOf := (TestData.nextLevelOf poseidon2).
Local Abbreviation buildLoop := (TestData.buildLoop poseidon2).
Local Abbreviation buildMerkleTree := (TestData.buildMerkleTree poseidon1 poseidon2).
Local Abbreviation recomputePath := (TestData.recomputePath poseidon2).

Lemma index_Some {A : Type} (l : list A) (c : Z) (a : A) :
  JS.index l c = Some a <-> 0 <= c /\ nth_error l (Z.to_nat c) = Some a.
Proof.
  unfold JS.index. destruct (Z.ltb_spec c 0); split.
  - discriminate.
  - intros [Hc _]. lia.
  - intros E. split; [lia|exact E].
  - now intros [_ E].
Qed.

Lemma index_of_nat {A : Type} (l : list A) (n : nat) :
  JS.index l (Z.of_nat n) = nth_error l n.
Proof.
  unfold JS.index. destruct (Z.ltb_spec (Z.of_nat n) 0); [lia|].
  now rewrite Nat2Z.id.
Qed.

Lemma map_from_const {A B : Type} (f : A -> B) (l : list A) :
  forall i, JS.map_from (fun v _ => f v) i l = map f l.
Proof. induction l as [|a l IH]; intros i; simpl; [|rewrite IH]; reflexivity. Qed.

(** The leaves are the hashes of the cell values alone. *)
Lemma leaves_are_value_hashes (grid : list Z) :
  JS.map_with_index (TestData.computeTrapCommitment poseidon1) grid
  = map poseidon1 grid.
Proof. apply (map_from_const poseidon1). Qed.

Lemma buildLoop_length (n : nat) :
  forall cur, length (buildLoop n cur) = n.
Proof. induction n as [|n IH]; intros cur; simpl; [|rewrite IH]; reflexivity. Qed.

Lemma buildMerkleTree_length (grid : list Z) :
  length (buildMerkleTree grid) = 7%nat.
Proof. unfold TestData.buildMerkleTree. simpl. reflexivity. Qed.

(** Each level after the leaves is the pairing of the level below it. *)
Lemma buildLoop_chain (n : nat) :
  forall cur j L, (j < n)%nat ->
    nth_error (cur :: buildLoop n cur) j = Some L ->
    nth_error (cur :: buildLoop n cur) (S j) = Some (nextLevelOf L).
Proof.
  induction n as [|n IH]; intros cur j L Hj HL; [lia|].
  destruct j as [|j]; simpl in *.
  - now injection HL as <-.
  - apply IH; [lia|exact HL].
Qed.

Lemma truthy_node (L : list Z) (k : nat) (a : Z) :
  forallb (fun v => negb (v =? 0)) L = true ->
  nth_error L k = Some a -> (a =? 0) = false.
Proof.
  intros HL Ha. rewrite forallb_forall in HL.
  apply nth_error_In in Ha. apply HL in Ha.
  now destruct (a =? 0).
Qed.

Lemma isRight_even (k : nat) : MerkleLoops.isRight (Z.of_nat (2 * k)) = false.
Proof.
  unfold MerkleLoops.isRight. rewrite Z.rem_mod_nonneg by lia.
  replace (Z.of_nat (2 * k)) with (0 + Z.of_nat k * 2) by lia.
  now rewrite Z.mod_add by lia.
Qed.

Lemma isRight_odd (k : nat) : MerkleLoops.isRight (Z.of_nat (2 * k + 1)) = true.
Proof.
  unfold MerkleLoops.isRight. rewrite Z.rem_mod_nonneg by lia.
  replace (Z.of_nat (2 * k + 1)) with (1 + Z.of_nat k * 2) by lia.
  now rewrite Z.mod_add by lia.
Qed.

Lemma half_even (k : nat) : Z.of_nat (2 * k) / 2 = Z.of_nat k.
Proof. symmetry. apply Z.div_unique with 0; lia. Qed.

Lemma half_odd (k : nat) : Z.of_nat (2 * k + 1) / 2 = Z.of_nat k.
Proof. symmetry. apply Z.div_unique with 1; lia. Qed.

Lemma nat_parity (n : nat) : exists k, n = (2 * k)%nat \/ n = (2 * k + 1)%nat.
Proof.
  exists (Nat.div2 n). destruct (Nat.Even_Odd_dec n) as [E|O].
  - left. rewrite <- Nat.double_twice. now apply Nat.Even_double.
  - right. apply Nat.Odd_double in O. rewrite Nat.double_twice in O. lia.
Qed.

(** One step of the walk against one step of the builder: on a level whose
    nodes are all truthy, the recorded sibling is defined and hashing it
    with the current node in path-bit order gives the parent stored at the
    halved index of the next level. *)
Lemma parent_step (L : list Z) (c node : Z) :
  forallb (fun v => negb (v =? 0)) L = true ->
  JS.index L c = Some node ->
  exists s,
    TestData.pickSibling L (MerkleLoops.siblingIndexOf c) c = Some s /\
    JS.index (nextLevelOf L) (c / 2)
    = Some (if (if MerkleLoops.isRight c then 1 else 0) =? 1
            then H s node else H node s).
Proof.
  intros HL Hc. apply index_Some in Hc as [Hc0 Hn].
  rewrite <- (Z2Nat.id c Hc0). set (n := Z.to_nat c) in *. clearbody n. clear Hc0.
  destruct (nat_parity n) as [k [-> | ->]].
  - (* left child *)
    unfold MerkleLoops.siblingIndexOf. rewrite isRight_even, half_even.
    rewrite index_of_nat. unfold TestData.nextLevelOf.
    rewrite (nextLevelOf_nth _ _ _ _ _ Hn).
    unfold TestData.pickSibling.
    replace (Z.of_nat (2 * k) + 1) with (Z.of_nat (2 * k + 1)) by lia.
    rewrite !index_of_nat, Hn.
    destruct (nth_error L (2 * k + 1)) as [b|] eqn:Eb.
    + exists b. unfold TestData.or_else, TestData.pickRight, TestData.or_else.
      rewrite (truthy_node _ _ _ HL Eb). split; reflexivity.
    + exists node. split; [reflexivity|].
      unfold TestData.pickRight, TestData.or_else.
      destruct (node =? 0); reflexivity.
  - (* right child *)
    unfold MerkleLoops.siblingIndexOf. rewrite isRight_odd, half_odd.
    rewrite index_of_nat. unfold TestData.nextLevelOf.
    destruct (nth_error L (2 * k)) as [a|] eqn:Ea.
    2:{ apply nth_error_None in Ea.
        assert (nth_error L (2 * k + 1) <> None) as Hs by congruence.
        apply nth_error_Some in Hs. lia. }
    rewrite (nextLevelOf_nth _ _ _ _ _ Ea), Hn.
    unfold TestData.pickSibling.
    replace (Z.of_nat (2 * k + 1) - 1) with (Z.of_nat (2 * k)) by lia.
    rewrite !index_of_nat, Ea.
    exists a. unfold TestData.or_else, TestData.pickRight, TestData.or_else.
    rewrite (truthy_node _ _ _ HL Ea), (truthy_node _ _ _ HL Hn).
    split; reflexivity.
Qed.

Lemma level_truthy (tree : list (list Z)) (j : nat) (L : list Z) :
  TestData.allTruthy tree = true -> nth_error tree j = Some L ->
  forallb (fun v => negb (v =? 0)) L = true.
Proof.
  unfold TestData.allTruthy. intros Ht HL. rewrite forallb_forall in Ht.
  apply Ht. eapply nth_error_In; eauto.
Qed.

(** Walking [n] levels up from node [c] of level [level] and recomputing
    the path from that node reaches node [c / 2^n] of level [level + n]. *)
Lemma walk_recomputes (tree : list (list Z)) :
  (forall j L, (j < 6)%nat -> nth_error tree j = Some L ->
     nth_error tree (S j) = Some (nextLevelOf L)) ->
  TestData.allTruthy tree = true ->
  forall n level c L node,
    (level + n <= 6)%nat ->
    nth_error tree level = Some L ->
    JS.index L c = Some node ->
    exists p L' r,
      MerkleLoops.proofLoop TestData.pickSibling n tree level c [] [] = JS.Returned p
      /\ nth_error tree (level + n) = Some L'
      /\ JS.index L' (c / 2 ^ Z.of_nat n) = Some r
      /\ recomputePath node (MerkleLoops.indices p) (MerkleLoops.siblings p) = Some r.
Proof.
  intros Hchain Htruthy.
  induction n as [|n IH]; intros level c L node Hlev HL Hnode.
  - exists {| MerkleLoops.indices := []; MerkleLoops.siblings := [] |}, L, node.
    simpl. rewrite Nat.add_0_r, Z.div_1_r. auto.
  - rewrite proofLoop_step, HL.
    destruct (parent_step L c node (level_truthy _ _ _ Htruthy HL) Hnode)
      as (s & Hs & Hparent).
    destruct (IH (S level) (c / 2) (nextLevelOf L) _ ltac:(lia)
                 (Hchain level L ltac:(lia) HL) Hparent)
      as (q & L' & r & -> & HL' & Hr & Hrec).
    eexists; exists L', r. split; [reflexivity|].
    replace (level + S n)%nat with (S level + n)%nat by lia.
    rewrite <- halve_pow. repeat split; auto.
    simpl. rewrite Hs. exact Hrec.
Qed.


End TestDataFacts.



(** ** utils.ts: the frontend builder *)

Lemma to_int_not_nil (z : Z) :
  Z.to_int z <> Decimal.Pos Decimal.Nil /\ Z.to_int z <> Decimal.Neg Decimal.Nil.
Proof.
  destruct z as [|p|p]; simpl; split; try discriminate;
    intros [= E]; now apply (DecimalPos.Unsigned.to_uint_nonnil p).
Qed.

Lemma show_inj (a b : Z) : JS.show a = JS.show b -> a = b.
Proof.
  unfold JS.show. intros E.
  apply DecimalZ.to_int_inj.
  destruct (to_int_not_nil a) as [Ha1 Ha2], (to_int_not_nil b) as [Hb1 Hb2].
  pose proof (NilZero.isi _ Ha1 Ha2) as Ia.
  pose proof (NilZero.isi _ Hb1 Hb2) as Ib.
  rewrite E in Ia. congruence.
Qed.

Lemma append_cancel_l (s t t' : string) :
  (s ++ t)%string = (s ++ t')%string -> t = t'.
Proof. induction s as [|c s IH]; simpl; [auto|]. intros [= E]. auto. Qed.

(** The frontend leaf hash separates the indices of equal cell values. *)
Lemma hashTrapValue_index_inj (v i j : Z) :
  Frontend.hashTrapValue v i = Frontend.hashTrapValue v j -> i = j.
Proof.
  unfold Frontend.hashTrapValue. intros E.
  apply append_cancel_l in E. apply append_cancel_l in E.
  apply append_cancel_l in E. now apply show_inj.
Qed.

Lemma whileLoop_prefix (fuel : nat) :
  forall tree cur, exists more, fst (Frontend.whileLoop fuel tree cur) = tree ++ more.
Proof.
  induction fuel as [|fuel IH]; intros tree cur; simpl.
  - exists []. now rewrite app_nil_r.
  - destruct (1 <? length cur)%nat.
    + destruct (IH (tree ++ [Frontend.nextLevelOf cur]) (Frontend.nextLevelOf cur))
        as [more ->].
      eexists. now rewrite <- app_assoc.
    + exists []. now rewrite app_nil_r.
Qed.

(** The fuel given to the [while] loop never cuts it short: it stops on a
    level of at most one node. *)
Lemma whileLoop_done (fuel : nat) :
  forall tree cur, (length cur <= fuel)%nat ->
    (length (snd (Frontend.whileLoop fuel tree cur)) <= 1)%nat.
Proof.
  induction fuel as [|fuel IH]; intros tree cur Hlen; simpl.
  - lia.
  - destruct (Nat.ltb_spec 1 (length cur)) as [Hgt|Hle]; [|simpl; lia].
    apply IH. unfold Frontend.nextLevelOf. rewrite nextLevelOf_length.
    pose proof (Nat.div2_div (S (length cur))) as E. rewrite E.
    apply Nat.lt_succ_r. apply Nat.Div0.div_lt_upper_bound. lia.
Qed.

Lemma map_from_length {A B : Type} (f : A -> Z -> B) (l : list A) :
  forall i, length (JS.map_from f i l) = length l.
Proof. induction l as [|a l IH]; intros i; simpl; [|rewrite IH]; reflexivity. Qed.

Lemma frontend_next_length (cur : list string) (n : nat) :
  length cur = (2 * n)%nat -> length (Frontend.nextLevelOf cur) = n.
Proof.
  intros Hl. unfold Frontend.nextLevelOf. rewrite nextLevelOf_length, Hl.
  apply Nat.div2_succ_double.
Qed.

Lemma whileLoop_step (fuel : nat) (tree : list (list string)) (cur : list string) :
  (1 < length cur)%nat ->
  Frontend.whileLoop (S fuel) tree cur
  = Frontend.whileLoop fuel (tree ++ [Frontend.nextLevelOf cur])
      (Frontend.nextLevelOf cur).
Proof.
  intros Hl. simpl. destruct (Nat.ltb_spec 1 (length cur)); [reflexivity|lia].
Qed.

Lemma whileLoop_stop (fuel : nat) (tree : list (list string)) (cur : list string) :
  (length cur <= 1)%nat -> Frontend.whileLoop (S fuel) tree cur = (tree, cur).
Proof.
  intros Hl. simpl. destruct (Nat.ltb_spec 1 (length cur)); [lia|reflexivity].
Qed.

(** On 64 trap values the frontend builder returns seven levels of 64, 32,
    16, 8, 4, 2 and 1 nodes, and a defined root. *)
Lemma frontend_buildMerkleTree_returns (trapValues : list Z) :
  length trapValues = 64%nat ->
  exists b rootNode,
    Frontend.buildMerkleTree trapValues = JS.Returned b /\
    Frontend.root b = Some rootNode /\
    map (@length string) (Frontend.tree b) = [64; 32; 16; 8; 4; 2; 1]%nat.
Proof.
  intros Hlen. unfold Frontend.buildMerkleTree. rewrite Hlen.
  change (negb (Z.of_nat 64 =? Frontend.GRID_SIZE * Frontend.GRID_SIZE)) with false.
  cbv iota.
  set (l0 := JS.map_with_index Frontend.hashTrapValue trapValues).
  assert (H0 : length l0 = 64%nat)
    by (unfold l0, JS.map_with_index; now rewrite map_from_length).
  pose proof (frontend_next_length l0 32 H0) as H1.
  pose proof (frontend_next_length _ 16 H1) as H2.
  pose proof (frontend_next_length _ 8 H2) as H3.
  pose proof (frontend_next_length _ 4 H3) as H4.
  pose proof (frontend_next_length _ 2 H4) as H5.
  pose proof (frontend_next_length _ 1 H5) as H6.
  rewrite H0.
  rewrite whileLoop_step by lia. rewrite whileLoop_step by lia.
  rewrite whileLoop_step by lia. rewrite whileLoop_step by lia.
  rewrite whileLoop_step by lia. rewrite whileLoop_step by lia.
  rewrite whileLoop_stop by lia.
  destruct (Frontend.nextLevelOf
              (Frontend.nextLevelOf
                 (Frontend.nextLevelOf
                    (Frontend.nextLevelOf
                       (Frontend.nextLevelOf (Frontend.nextLevelOf l0))))))
    as [|rootNode rest] eqn:Etop; [discriminate H6|].
  do 2 eexists. split; [reflexivity|]. split; [reflexivity|].
  cbn [Frontend.tree app map]. now rewrite H0, H1, H2, H3, H4, H5, H6.
Qed.

(** Level 0 of the frontend tree holds [hashTrapValue(value, index)]. *)
Lemma frontend_leaves (trapValues : list Z) (b : Frontend.Built) :
  Frontend.buildMerkleTree trapValues = JS.Returned b ->
  nth_error (Frontend.tree b) 0
  = Some (JS.map_with_index Frontend.hashTrapValue trapValues).
Proof.
  unfold Frontend.buildMerkleTree.
  destruct (negb _); [discriminate|].
  set (leaves := JS.map_with_index Frontend.hashTrapValue trapValues).
  destruct (whileLoop_prefix (length leaves) [leaves] leaves) as [more E].
  destruct (Frontend.whileLoop (length leaves) [leaves] leaves) as [tree cur].
  simpl in E. intros [= <-]. simpl. now rewrite E.
Qed.

(** ** Leaf commitments *)

(** C5 (amended).  The test-data builder hashes the cell value alone: its
    leaf commitment does not depend on the leaf index and level 0 of its
    tree is the list of value hashes.  The frontend builder hashes the
    value together with the index: level 0 of its tree is
    [hashTrapValue(value, index)], and equal values at different indices
    get different leaves. *)
Theorem leaf_commitment_binding :
  (forall poseidon1 v i j,
     TestData.computeTrapCommitment poseidon1 v i
     = TestData.computeTrapCommitment poseidon1 v j) /\
  (forall poseidon1 poseidon2 grid,
     nth_error (TestData.buildMerkleTree poseidon1 poseidon2 grid) 0
     = Some (map poseidon1 grid)) /\
  (forall trapValues b,
     Frontend.buildMerkleTree trapValues = JS.Returned b ->
     nth_error (Frontend.tree b) 0
     = Some (JS.map_with_index Frontend.hashTrapValue trapValues)) /\
  (forall v i j,
     Frontend.hashTrapValue v i = Frontend.hashTrapValue v j -> i = j).
Proof.
  split; [reflexivity|]. split.
  - intros p1 p2 grid. unfold TestData.buildMerkleTree. simpl.
    now rewrite leaves_are_value_hashes.
  - split; [exact frontend_leaves | exact hashTrapValue_index_inj].
Qed.

Lemma leaf_commitment_binding_witness :
  (exists b,
     Frontend.buildMerkleTree (repeat 0 64) = JS.Returned b /\
     nth_error (Frontend.tree b) 0
     = Some (JS.map_with_index Frontend.hashTrapValue (repeat 0 64))) /\
  (Frontend.hashTrapValue 1 5 = Frontend.hashTrapValue 1 5 -> 5 = 5).
Proof.
  destruct leaf_commitment_binding as (_ & _ & Hleaves & Hinj). split.
  - eexists. split; [vm_compute; reflexivity|].
    apply Hleaves. vm_compute. reflexivity.
  - apply Hinj.
Defined.

(** Two cells with the same value, two different frontend leaves. *)
Lemma frontend_leaf_depends_on_index :
  Frontend.hashTrapValue 0 0 = "hash_0_0"%string /\
  Frontend.hashTrapValue 0 1 = "hash_0_1"%string /\
  Frontend.hashTrapValue 0 0 <> Frontend.hashTrapValue 0 1.
Proof. repeat split. vm_compute. discriminate. Qed.

(** ** Pairing rule and path bits *)










(** ** Leaf index range *)

Lemma lt_lit_of_Z (x k : Z) : JS.lt_lit (JS.of_Z x) k = (x <? k).
Proof.
  unfold JS.lt_lit, JS.of_Z, Qle_bool, inject_Z; simpl.
  rewrite !Z.mul_1_r. now rewrite Z.ltb_antisym.
Qed.

Lemma ge_lit_of_Z (x k : Z) : JS.ge_lit (JS.of_Z x) k = (k <=? x).
Proof.
  unfold JS.ge_lit, JS.of_Z, Qle_bool, inject_Z; simpl.
  now rewrite !Z.mul_1_r.
Qed.

Lemma gt_lit_of_Z (x k : Z) : JS.gt_lit (JS.of_Z x) k = (k <? x).
Proof.
  unfold JS.gt_lit, JS.of_Z, Qle_bool, inject_Z; simpl.
  rewrite !Z.mul_1_r. now rewrite Z.ltb_antisym.
Qed.

Lemma eq_lit_of_Z (x k : Z) : JS.eq_lit (JS.of_Z x) k = (x =? k).
Proof.
  unfold JS.eq_lit, JS.of_Z, Qeq_bool, inject_Z; simpl.
  now rewrite !Z.mul_1_r.
Qed.

Lemma isInteger_of_Z (x : Z) : JS.isInteger (JS.of_Z x) = true.
Proof. unfold JS.isInteger, JS.of_Z; simpl. now rewrite Z.rem_1_r. Qed.

Lemma mainRejects_of_Z (x y : Z) :
  TestData.mainRejects (JS.of_Z x) (JS.of_Z y)
  = negb ((0 <=? x) && (x <? 8) && (0 <=? y) && (y <? 8)).
Proof.
  unfold TestData.mainRejects, TestData.GRID_SIZE.
  rewrite !lt_lit_of_Z, !ge_lit_of_Z.
  destruct (Z.leb_spec 0 x), (Z.ltb_spec x 8), (Z.leb_spec 0 y), (Z.ltb_spec y 8),
    (Z.ltb_spec x 0), (Z.leb_spec 8 x), (Z.ltb_spec y 0), (Z.leb_spec 8 y);
    simpl; try reflexivity; lia.
Qed.

(** C7 (amended).  Neither proof generator checks the leaf index.  On a
    tree made by the test-data builder the generator returns a proof
    object with 6 path bits and 6 sibling slots for every integer leaf
    index, and the frontend generator returns one with
    [tree.length - 1] entries for every tree and every integer leaf index.
    The range is enforced by the caller: [main] of the test-data script
    rejects integer move coordinates outside [0,8), and coordinates it
    accepts give a leaf index in [0,64). *)
Theorem merkle_proof_index_not_checked :
  (forall poseidon1 poseidon2 grid leafIndex,
     exists p,
       TestData.generateMerkleProof
         (TestData.buildMerkleTree poseidon1 poseidon2 grid) leafIndex
       = JS.Returned p /\
       length (MerkleLoops.indices p) = 6%nat /\
       length (MerkleLoops.siblings p) = 6%nat) /\
  (forall tree leafIndex,
     exists p,
       Frontend.generateMerkleProof tree leafIndex = JS.Returned p /\
       length (MerkleLoops.indices p) = (length tree - 1)%nat /\
       length (MerkleLoops.siblings p) = (length tree - 1)%nat) /\
  (forall x y,
     TestData.mainRejects (JS.of_Z x) (JS.of_Z y) = false <->
     0 <= x < 8 /\ 0 <= y < 8) /\
  (forall x y,
     TestData.mainRejects (JS.of_Z x) (JS.of_Z y) = false ->
     0 <= TestData.leafIndexOf x y < 64).
Proof.
  split; [|split; [|split]].
  - intros p1 p2 grid leafIndex. unfold TestData.generateMerkleProof.
    apply proofLoop_returns. rewrite buildMerkleTree_length. simpl. lia.
  - intros tree leafIndex. unfold Frontend.generateMerkleProof.
    apply proofLoop_returns. lia.
  - intros x y. rewrite mainRejects_of_Z. rewrite negb_false_iff, !andb_true_iff.
    rewrite !Z.leb_le, !Z.ltb_lt. lia.
  - intros x y. rewrite mainRejects_of_Z. rewrite negb_false_iff, !andb_true_iff.
    rewrite !Z.leb_le, !Z.ltb_lt. unfold TestData.leafIndexOf, TestData.GRID_SIZE. lia.
Qed.

Lemma merkle_proof_index_not_checked_witness :
  (0 <= 3 < 8 /\ 0 <= 4 < 8) /\ 0 <= TestData.leafIndexOf 3 4 < 64.
Proof.
  destruct merkle_proof_index_not_checked as (_ & _ & Hiff & Hidx).
  split.
  - apply (Hiff 3 4). vm_compute. reflexivity.
  - apply (Hidx 3 4). vm_compute. reflexivity.
Defined.

(** The frontend generator at leaf index 64 of a 64-leaf tree: a proof
    object whose sibling slots are all [undefined]. *)
Lemma out_of_range_index_returns_proof :
  match Frontend.buildMerkleTree (repeat 0 64) with
  | JS.Returned b => Frontend.generateMerkleProof (Frontend.tree b) 64
  | JS.Thrown m => JS.Thrown m
  end
  = JS.Returned
      {| MerkleLoops.indices := [0; 0; 0; 0; 0; 0];
         MerkleLoops.siblings := [None; None; None; None; None; None] |}.
Proof. vm_compute. reflexivity. Qed.

(** ** The split of the prover output *)




(** ** Proof generation guards *)

(** No number is strictly equal to both 0 and 1. *)
Lemma eq_lit_0_1 (v : JS.number) :
  JS.eq_lit v 0 = true -> JS.eq_lit v 1 = false.
Proof.
  destruct v as [q| |b]; simpl; try discriminate.
  intros H0. apply Qeq_bool_iff in H0.
  destruct (Qeq_bool q (inject_Z 1)) eqn:H1; [|reflexivity].
  apply Qeq_bool_iff in H1. rewrite H0 in H1. discriminate H1.
Qed.

Section ZkProofFacts.

Variable poseidonHash1 : Z -> Z.
Variable prover : ZkProof.CircuitInputs -> JS.outcome ZkProof.ZKProofData.

Local Abbreviation generateProof := (ZkProof.generateProof poseidonHash1 prover).

(** C3.  Fail-fast integrity check.  When the claimed result [isHit]
    differs from [trapValue === 1], [generateProof] throws one of its
    validation errors, the prover is not attempted (the event list is
    empty), and no proof is produced. *)
Theorem generateProof_fails_fast
    (trapValue moveX moveY : JS.number) (isHit : bool) :
  isHit <> JS.eq_lit trapValue 1 ->
  exists msg,
    generateProof trapValue moveX moveY isHit = ([], JS.Thrown msg) /\
    ZkProof.validationError msg.
Proof.
  intros Hne. unfold ZkProof.generateProof, ZkProof.validationError.
  destruct (negb (JS.eq_lit trapValue 0) && negb (JS.eq_lit trapValue 1)).
  { eexists. split; [reflexivity|tauto]. }
  destruct (JS.lt_lit moveX 0 || JS.ge_lit moveX 8).
  { eexists. split; [reflexivity|tauto]. }
  destruct (JS.lt_lit moveY 0 || JS.ge_lit moveY 8).
  { eexists. split; [reflexivity|tauto]. }
  assert (isHit && negb (JS.eq_lit trapValue 1)
          || negb isHit && negb (JS.eq_lit trapValue 0) = true) as ->.
  { pose proof (eq_lit_0_1 trapValue) as H01.
    destruct isHit, (JS.eq_lit trapValue 1), (JS.eq_lit trapValue 0);
      simpl; try reflexivity; try congruence.
    discriminate (H01 eq_refl). }
  eexists. split; [reflexivity|tauto].
Qed.

(** The three ways a call can end. *)
Lemma generateProof_cases (trapValue moveX moveY : JS.number) (isHit : bool) :
  (exists msg,
     generateProof trapValue moveX moveY isHit = ([], JS.Thrown msg) /\
     ZkProof.validationError msg) \/
  (exists inputs result,
     prover inputs = JS.Returned result /\
     generateProof trapValue moveX moveY isHit
     = ([ZkProof.ProverAttempt inputs],
        JS.Returned {| ZkProof.proof := ZkProof.proof result;
                       ZkProof.publicInputs := ZkProof.publicInputs result |})) \/
  (exists inputs msg warning,
     prover inputs = JS.Thrown msg /\
     generateProof trapValue moveX moveY isHit
     = ([ZkProof.ProverAttempt inputs;
         ZkProof.ConsoleError "Error generating proof:";
         ZkProof.ConsoleWarn warning],
        JS.Returned {| ZkProof.proof := repeat Byte.x00 2144;
                       ZkProof.publicInputs := repeat Byte.x00 128 |})).
Proof.
  unfold ZkProof.generateProof, ZkProof.validationError.
  destruct (negb (JS.eq_lit trapValue 0) && negb (JS.eq_lit trapValue 1)) eqn:Ev.
  { left. eexists. split; [reflexivity|tauto]. }
  destruct (JS.lt_lit moveX 0 || JS.ge_lit moveX 8).
  { left. eexists. split; [reflexivity|tauto]. }
  destruct (JS.lt_lit moveY 0 || JS.ge_lit moveY 8).
  { left. eexists. split; [reflexivity|tauto]. }
  destruct (isHit && negb (JS.eq_lit trapValue 1)
            || negb isHit && negb (JS.eq_lit trapValue 0)).
  { left. eexists. split; [reflexivity|tauto]. }
  unfold ZkProof.computeTrapCommitment. rewrite Ev.
  match goal with |- context [prover ?i] => destruct (prover i) as [result|msg] eqn:Ep end.
  - right. left. eauto.
  - right. right. do 3 eexists. split; [exact Ep|reflexivity].
Qed.

End ZkProofFacts.

(** C4 (amended).  The position-movement [generateProof] ends in one of
    three ways: an input check throws before the prover is attempted; the
    prover returns and its proof and public inputs are returned; or the
    prover throws, the failure is logged to the console, and a placeholder
    of 2144 zero proof bytes and 128 zero public-input bytes is returned in
    place of the error.  The Merkle frontend's [generateProof] returns its
    fixed placeholder bytes for every input. *)
Theorem proof_generation_outcomes :
  (forall poseidonHash1 prover trapValue moveX moveY isHit,
     (exists msg,
        ZkProof.generateProof poseidonHash1 prover trapValue moveX moveY isHit
        = ([], JS.Thrown msg) /\
        ZkProof.validationError msg) \/
     (exists inputs result,
        prover inputs = JS.Returned result /\
        ZkProof.generateProof poseidonHash1 prover trapValue moveX moveY isHit
        = ([ZkProof.ProverAttempt inputs],
           JS.Returned {| ZkProof.proof := ZkProof.proof result;
                          ZkProof.publicInputs := ZkProof.publicInputs result |})) \/
     (exists inputs msg warning,
        prover inputs = JS.Thrown msg /\
        ZkProof.generateProof poseidonHash1 prover trapValue moveX moveY isHit
        = ([ZkProof.ProverAttempt inputs;
            ZkProof.ConsoleError "Error generating proof:";
            ZkProof.ConsoleWarn warning],
           JS.Returned {| ZkProof.proof := repeat Byte.x00 2144;
                          ZkProof.publicInputs := repeat Byte.x00 128 |}))) /\
  (forall trapValue moveX moveY isHit trapMerkleRoot merkleProof,
     PlaceholderProof.generateProof trapValue moveX moveY isHit trapMerkleRoot
       merkleProof
     = JS.Returned
         {| ZkProof.proof := [Byte.x00; Byte.x01; Byte.x02; Byte.x03];
            ZkProof.publicInputs := [Byte.x00; Byte.x00; Byte.x00; Byte.x00] |}).
Proof.
  split.
  - intros. apply generateProof_cases.
  - reflexivity.
Qed.

(** A prover that cannot load its circuit: the caller gets placeholder
    bytes as a successful result. *)
Lemma placeholder_proof_returned :
  snd (ZkProof.generateProof (fun z => z + 1)
         (fun _ => JS.Thrown "Failed to load circuit artifact")
         (JS.of_Z 0) (JS.of_Z 3) (JS.of_Z 4) false)
  = JS.Returned {| ZkProof.proof := repeat Byte.x00 2144;
                   ZkProof.publicInputs := repeat Byte.x00 128 |}.
Proof. vm_compute. reflexivity. Qed.

Lemma generateProof_fails_fast_witness :
  exists msg,
    ZkProof.generateProof (fun z => z + 1)
      (fun _ => JS.Returned {| ZkProof.proof := [Byte.x01];
                               ZkProof.publicInputs := [Byte.x02] |})
      (JS.of_Z 0) (JS.of_Z 3) (JS.of_Z 4) true
    = ([], JS.Thrown msg) /\
    ZkProof.validationError msg.
Proof.
  apply (generateProof_fails_fast (fun z => z + 1)
           (fun _ => JS.Returned {| ZkProof.proof := [Byte.x01];
                                    ZkProof.publicInputs := [Byte.x02] |})
           (JS.of_Z 0) (JS.of_Z 3) (JS.of_Z 4) true).
  vm_compute. discriminate.
Defined.

(** ** Move coordinates *)

Lemma notU32_of_Z (v : Z) :
  Stellar.notU32 (JS.of_Z v) = negb ((0 <=? v) && (v <=? 4294967295)).
Proof.
  unfold Stellar.notU32. rewrite isInteger_of_Z, lt_lit_of_Z, gt_lit_of_Z.
  destruct (Z.ltb_spec v 0), (Z.ltb_spec 4294967295 v), (Z.leb_spec 0 v),
    (Z.leb_spec v 4294967295); simpl; try reflexivity; lia.
Qed.

Lemma makeMove_checks (numberToString : JS.number -> string)
    (sessionId x y : JS.number) (isHit : bool)
    (proof publicInputs : list Byte.byte) (signerPublicKey : string) :
  (Stellar.notU32 sessionId || Stellar.notU32 x || Stellar.notU32 y = true ->
   exists msg, forall prepare,
     Stellar.makeMove numberToString prepare sessionId x y isHit proof
       publicInputs signerPublicKey = JS.Thrown msg) /\
  (Stellar.notU32 sessionId || Stellar.notU32 x || Stellar.notU32 y = false ->
   forall prepare,
     Stellar.makeMove numberToString prepare sessionId x y isHit proof
       publicInputs signerPublicKey
     = prepare {| Stellar.sessionId := sessionId; Stellar.x := x; Stellar.y := y;
                  Stellar.isHit := isHit; Stellar.proof := proof;
                  Stellar.publicInputs := publicInputs;
                  Stellar.signerPublicKey := signerPublicKey |}).
Proof.
  unfold Stellar.makeMove.
  destruct (Stellar.notU32 sessionId), (Stellar.notU32 x), (Stellar.notU32 y);
    simpl; split; intros Hc; try discriminate; eauto.
Qed.

Lemma generateProof_coordinates (poseidonHash1 : Z -> Z)
    (prover : ZkProof.CircuitInputs -> JS.outcome ZkProof.ZKProofData)
    (trapValue : JS.number) (moveX moveY : Z) (isHit : bool) :
  ~ (0 <= moveX < 8 /\ 0 <= moveY < 8) ->
  exists msg,
    ZkProof.generateProof poseidonHash1 prover trapValue
      (JS.of_Z moveX) (JS.of_Z moveY) isHit = ([], JS.Thrown msg) /\
    ZkProof.validationError msg.
Proof.
  intros Hout. unfold ZkProof.generateProof, ZkProof.validationError.
  destruct (negb (JS.eq_lit trapValue 0) && negb (JS.eq_lit trapValue 1)).
  { eexists. split; [reflexivity|tauto]. }
  rewrite !lt_lit_of_Z, !ge_lit_of_Z.
  destruct (Z.ltb_spec moveX 0); simpl.
  { eexists. split; [reflexivity|tauto]. }
  destruct (Z.leb_spec 8 moveX); simpl.
  { eexists. split; [reflexivity|tauto]. }
  destruct (Z.ltb_spec moveY 0); simpl.
  { eexists. split; [reflexivity|tauto]. }
  destruct (Z.leb_spec 8 moveY); simpl.
  { eexists. split; [reflexivity|tauto]. }
  lia.
Qed.

(** C9 (amended).  [makeMove] of stellar.ts throws, whatever the server
    would do, when the session id or a coordinate is not an integer in
    [0, 4294967295], and forwards every other move unchanged to the
    preparation of the transaction; for integers its check is exactly the
    u32 range, so coordinates of 8 and more pass it.  The grid range is
    checked in [generateProof]: an integer moveX or moveY outside [0,8)
    makes it throw a validation error before the prover is attempted. *)
Theorem move_coordinate_checks :
  (forall numberToString sessionId x y isHit proof publicInputs signerPublicKey,
     (Stellar.notU32 sessionId || Stellar.notU32 x || Stellar.notU32 y = true ->
      exists msg, forall prepare,
        Stellar.makeMove numberToString prepare sessionId x y isHit proof
          publicInputs signerPublicKey = JS.Thrown msg) /\
     (Stellar.notU32 sessionId || Stellar.notU32 x || Stellar.notU32 y = false ->
      forall prepare,
        Stellar.makeMove numberToString prepare sessionId x y isHit proof
          publicInputs signerPublicKey
        = prepare {| Stellar.sessionId := sessionId; Stellar.x := x;
                     Stellar.y := y; Stellar.isHit := isHit;
                     Stellar.proof := proof;
                     Stellar.publicInputs := publicInputs;
                     Stellar.signerPublicKey := signerPublicKey |})) /\
  (forall v, Stellar.notU32 (JS.of_Z v) = false <-> 0 <= v <= 4294967295) /\
  (forall poseidonHash1 prover trapValue moveX moveY isHit,
     ~ (0 <= moveX < 8 /\ 0 <= moveY < 8) ->
     exists msg,
       ZkProof.generateProof poseidonHash1 prover trapValue
         (JS.of_Z moveX) (JS.of_Z moveY) isHit = ([], JS.Thrown msg) /\
       ZkProof.validationError msg).
Proof.
  split; [|split].
  - intros. apply makeMove_checks.
  - intros v. rewrite notU32_of_Z, negb_false_iff, andb_true_iff.
    rewrite !Z.leb_le. tauto.
  - exact generateProof_coordinates.
Qed.

Lemma move_coordinate_checks_witness :
  (exists msg, forall prepare,
     Stellar.makeMove (fun _ => "-1"%string) prepare (JS.of_Z 1) (JS.of_Z (-1))
       (JS.of_Z 0) false [] [] "GA"%string = JS.Thrown msg) /\
  (forall prepare,
     Stellar.makeMove (fun _ => ""%string) prepare (JS.of_Z 1) (JS.of_Z 8)
       (JS.of_Z 0) false [] [] "GA"%string
     = prepare {| Stellar.sessionId := JS.of_Z 1; Stellar.x := JS.of_Z 8;
                  Stellar.y := JS.of_Z 0; Stellar.isHit := false;
                  Stellar.proof := []; Stellar.publicInputs := [];
                  Stellar.signerPublicKey := "GA"%string |}) /\
  (exists msg,
     ZkProof.generateProof (fun z => z + 1) (fun _ => JS.Thrown "unused")
       (JS.of_Z 0) (JS.of_Z 8) (JS.of_Z 0) false = ([], JS.Thrown msg) /\
     ZkProof.validationError msg).
Proof.
  destruct move_coordinate_checks as (Hm & _ & Hg).
  split; [|split].
  - apply (Hm (fun _ => "-1"%string) (JS.of_Z 1) (JS.of_Z (-1)) (JS.of_Z 0)).
    vm_compute. reflexivity.
  - apply (Hm (fun _ => ""%string) (JS.of_Z 1) (JS.of_Z 8) (JS.of_Z 0)).
    vm_compute. reflexivity.
  - apply (Hg (fun z => z + 1) (fun _ => JS.Thrown "unused") (JS.of_Z 0) 8 0 false).
    lia.
Defined.

(** A move at x = 8 passes the checks of [makeMove] and reaches the
    preparation of the transaction. *)
Lemma makeMove_accepts_coordinate_8 :
  Stellar.makeMove (fun _ => ""%string)
    (fun call =>
       if JS.eq_lit (Stellar.x call) 8
       then JS.Returned "prepared make_move with x = 8"%string
       else JS.Thrown "not reached"%string)
    (JS.of_Z 1) (JS.of_Z 8) (JS.of_Z 0) false [Byte.x00] [Byte.x00] "GA"%string
  = JS.Returned "prepared make_move with x = 8"%string.
Proof. vm_compute. reflexivity. Qed.

(** ** Serialization of the public inputs *)

Lemma hexDigit_range (c : ascii) (d : Z) :
  PublicInputs.hexDigit c = Some d -> 0 <= d < 16.
Proof.
  destruct c as [[] [] [] [] [] [] [] []]; vm_compute; intros [= <-]; split;
    congruence.
Qed.

Lemma bigEndian_bytes (n : nat) (v : Z) :
  Forall PublicInputs.isByte (PublicInputs.bigEndian n v).
Proof.
  induction n as [|n IH]; simpl; constructor; [|exact IH].
  apply Z.mod_pos_bound. lia.
Qed.

Lemma bigEndianValue_zeros (k : nat) (rest : list Z) (acc : Z) :
  fold_left (fun a b => 256 * a + b) (repeat 0 k ++ rest) 0
  = fold_left (fun a b => 256 * a + b) rest 0.
Proof. induction k as [|k IH]; simpl; [reflexivity|exact IH]. Qed.

Lemma bigEndian4_value (v : Z) :
  0 <= v < 2 ^ 32 ->
  PublicInputs.bigEndianValue (PublicInputs.bigEndian 4 v) = v.
Proof.
  intros Hv. unfold PublicInputs.bigEndianValue.
  cbn [PublicInputs.bigEndian fold_left].
  change (8 * Z.of_nat 3) with 24. change (8 * Z.of_nat 2) with 16.
  change (8 * Z.of_nat 1) with 8. change (8 * Z.of_nat 0) with 0.
  rewrite !Z.shiftr_div_pow2 by lia.
  change (2 ^ 24) with (256 * 256 * 256). change (2 ^ 16) with (256 * 256).
  change (2 ^ 8) with 256. change (2 ^ 0) with 1. rewrite Z.div_1_r.
  change (2 ^ 32) with (256 * 256 * 256 * 256) in Hv.
  rewrite <- !Z.div_div by lia.
  pose proof (Z.div_mod v 256 ltac:(lia)).
  pose proof (Z.div_mod (v / 256) 256 ltac:(lia)).
  pose proof (Z.div_mod (v / 256 / 256) 256 ltac:(lia)).
  pose proof (Z.div_mod (v / 256 / 256 / 256) 256 ltac:(lia)).
  pose proof (Z.mod_pos_bound v 256 ltac:(lia)).
  pose proof (Z.mod_pos_bound (v / 256) 256 ltac:(lia)).
  pose proof (Z.mod_pos_bound (v / 256 / 256) 256 ltac:(lia)).
  pose proof (Z.mod_pos_bound (v / 256 / 256 / 256) 256 ltac:(lia)).
  assert (v / 256 / 256 / 256 / 256 = 0) by (rewrite !Z.div_div by lia; apply Z.div_small; lia).
  lia.
Qed.

Lemma isU32_range (v : Z) : PublicInputs.isU32 v = true <-> 0 <= v < 2 ^ 32.
Proof. unfold PublicInputs.isU32. rewrite andb_true_iff, Z.leb_le, Z.ltb_lt. tauto. Qed.

(** A u32 value sits in the last four bytes, after 28 zero bytes. *)
Lemma u32ToBytes32_right_aligned (v : Z) :
  PublicInputs.isU32 v = true ->
  PublicInputs.u32ToBytes32 v
  = JS.Returned (repeat 0 28 ++ PublicInputs.bigEndian 4 v).
Proof.
  intros Hv. apply isU32_range in Hv.
  unfold PublicInputs.u32ToBytes32, PublicInputs.writeBigUInt64BE.
  assert (Z.shiftr v 32 = 0) as ->.
  { rewrite Z.shiftr_div_pow2 by lia. apply Z.div_small. exact Hv. }
  assert (Z.land v 4294967295 = v) as ->.
  { change 4294967295 with (Z.ones 32). rewrite Z.land_ones by lia.
    apply Z.mod_small. exact Hv. }
  cbn -[PublicInputs.bigEndian Z.pow].
  unfold PublicInputs.writeUInt32BE.
  destruct (Z.ltb_spec v 0); [lia|]. destruct (Z.leb_spec (2 ^ 32) v); [lia|].
  reflexivity.
Qed.

Lemma u32ToBytes32_encodes (v : Z) :
  PublicInputs.isU32 v = true ->
  exists chunk, PublicInputs.u32ToBytes32 v = JS.Returned chunk /\ PublicInputs.encodes chunk v.
Proof.
  intros Hv. rewrite (u32ToBytes32_right_aligned v Hv).
  eexists. split; [reflexivity|]. unfold PublicInputs.encodes. split; [reflexivity|]. split.
  - apply Forall_app. split; [|apply bigEndian_bytes].
    apply Forall_forall. intros b Hb. apply repeat_spec in Hb. subst. unfold PublicInputs.isByte. lia.
  - unfold PublicInputs.bigEndianValue. rewrite bigEndianValue_zeros by exact 0.
    apply bigEndian4_value. now apply isU32_range.
Qed.

(** Decoding an even number of hex digits: one byte per pair, and the bytes
    denote the number the digits denote. *)
Lemma bufferFromHex_valid (n : nat) :
  forall chars,
    length chars = (2 * n)%nat -> PublicInputs.allHex chars = true ->
    length (PublicInputs.bufferFromHex chars) = n /\
    Forall PublicInputs.isByte (PublicInputs.bufferFromHex chars) /\
    forall acc,
      fold_left (fun a b => 256 * a + b) (PublicInputs.bufferFromHex chars) acc
      = fold_left
          (fun a c => 16 * a + match PublicInputs.hexDigit c with
                                | Some d => d | None => 0 end)
          chars acc.
Proof.
  induction n as [|n IH]; intros chars Hlen Hhex.
  - destruct chars; [|discriminate]. simpl. repeat split. constructor.
  - destruct chars as [|a [|b rest]]; try (simpl in Hlen; lia).
    simpl in Hhex.
    destruct (PublicInputs.hexDigit a) as [hi|] eqn:Ea; [|discriminate].
    destruct (PublicInputs.hexDigit b) as [lo|] eqn:Eb; [|discriminate].
    simpl in Hhex.
    destruct (IH rest ltac:(simpl in Hlen; lia) Hhex) as (Hl & Hb & Hv).
    cbn [PublicInputs.bufferFromHex]. rewrite Ea, Eb.
    cbn [length fold_left]. rewrite Ea, Eb. repeat split.
    + now rewrite Hl.
    + constructor; [|exact Hb].
      pose proof (hexDigit_range _ _ Ea). pose proof (hexDigit_range _ _ Eb).
      unfold PublicInputs.isByte. lia.
    + intros acc. rewrite Hv. f_equal. lia.
Qed.

Lemma hexValue_zeros (k : nat) (digits : list ascii) :
  PublicInputs.hexValue (repeat "0"%char k ++ digits) = PublicInputs.hexValue digits.
Proof.
  unfold PublicInputs.hexValue.
  induction k as [|k IH]; simpl; [reflexivity|exact IH].
Qed.

Lemma allHex_app (a b : list ascii) : PublicInputs.allHex (a ++ b) = PublicInputs.allHex a && PublicInputs.allHex b.
Proof. unfold PublicInputs.allHex. apply forallb_app. Qed.

Lemma allHex_zeros (k : nat) : PublicInputs.allHex (repeat "0"%char k) = true.
Proof. induction k as [|k IH]; simpl; [reflexivity|exact IH]. Qed.

Lemma hexToBytes32_encodes (value : string) :
  PublicInputs.isFieldHex value = true ->
  PublicInputs.encodes (PublicInputs.hexToBytes32 value)
    (PublicInputs.hexValue (PublicInputs.cleanHex (list_ascii_of_string value))).
Proof.
  unfold PublicInputs.isFieldHex, PublicInputs.hexToBytes32, JS.padStartChars.
  set (digits := PublicInputs.cleanHex (list_ascii_of_string value)).
  rewrite andb_true_iff, Nat.leb_le. intros [Hlen Hhex].
  destruct (bufferFromHex_valid 32 (repeat "0"%char (64 - length digits) ++ digits))
    as (Hl & Hb & Hv).
  - rewrite length_app, repeat_length. lia.
  - rewrite allHex_app, allHex_zeros. exact Hhex.
  - unfold PublicInputs.encodes. repeat split; [exact Hl|exact Hb|].
    unfold PublicInputs.bigEndianValue. rewrite Hv.
    apply hexValue_zeros.
Qed.

(** Running pushes that all return: the fields in push order. *)
Lemma runPushes_encodes (pushes : list (JS.outcome PublicInputs.Buffer)) :
  forall values,
    Forall2 (fun push v => exists chunk, push = JS.Returned chunk /\ PublicInputs.encodes chunk v)
      pushes values ->
    exists chunks,
      PublicInputs.runPushes pushes = JS.Returned chunks /\
      Forall2 PublicInputs.encodes chunks values.
Proof.
  induction pushes as [|push pushes IH]; intros values HF; inversion HF; subst.
  - exists []. split; [reflexivity|constructor].
  - destruct H1 as (chunk & -> & Hc).
    destruct (IH _ H3) as (chunks & Hr & Hcs).
    exists (chunk :: chunks). simpl. rewrite Hr. split; [reflexivity|].
    now constructor.
Qed.

Lemma encodes_concat_length (chunks : list PublicInputs.Buffer) (values : list Z) :
  Forall2 PublicInputs.encodes chunks values ->
  length (concat chunks) = (32 * length values)%nat /\
  length chunks = length values /\
  map PublicInputs.bigEndianValue chunks = values.
Proof.
  induction 1 as [|c v chunks values (Hl & _ & Hv) _ (IH1 & IH2 & IH3)]; simpl.
  - repeat split.
  - rewrite length_app, Hl, IH1, IH2, Hv, IH3. repeat split. lia.
Qed.

(** Outside the declared types the width is not fixed: a hex string of 66
    digits gives a field of 33 bytes. *)
Lemma field_wider_than_64_digits :
  length (PublicInputs.hexToBytes32
            "0x00112233445566778899aabbccddeeff00112233445566778899aabbccddeeff00")
  = 33%nat.
Proof. vm_compute. reflexivity. Qed.

Lemma indexOrZero_sixOf (indices : list Z) :
  map (PublicInputs.indexOrZero indices) (seq 0 6) = PublicInputs.sixOf indices.
Proof.
  do 6 (destruct indices as [|? indices]; [reflexivity|]). reflexivity.
Qed.

(** An empty or missing sibling entry is written as the field 0. *)
Lemma siblingOrZero_value (siblings : list string) (i : nat) :
  PublicInputs.fieldValue (PublicInputs.siblingOrZero siblings i)
  = PublicInputs.indexOrZero (map PublicInputs.fieldValue siblings) i.
Proof.
  unfold PublicInputs.siblingOrZero, PublicInputs.indexOrZero.
  rewrite nth_error_map.
  destruct (nth_error siblings i) as [[|c s]|]; reflexivity.
Qed.

Lemma indexOrZero_typed (indices : list Z) (i : nat) :
  forallb PublicInputs.isU32 indices = true ->
  PublicInputs.isU32 (PublicInputs.indexOrZero indices i) = true.
Proof.
  intros Hall. unfold PublicInputs.indexOrZero.
  destruct (nth_error indices i) as [v|] eqn:E; [|reflexivity].
  rewrite forallb_forall in Hall. apply Hall. eapply nth_error_In; exact E.
Qed.

Lemma siblingOrZero_typed (siblings : list string) (i : nat) :
  forallb PublicInputs.isFieldHex siblings = true ->
  PublicInputs.isFieldHex (PublicInputs.siblingOrZero siblings i) = true.
Proof.
  intros Hall. unfold PublicInputs.siblingOrZero.
  destruct (nth_error siblings i) as [[|c s]|] eqn:E; try reflexivity.
  rewrite forallb_forall in Hall. apply Hall. eapply nth_error_In; exact E.
Qed.

Lemma Forall2_map_same {A B C : Type} (R : B -> C -> Prop)
    (f : A -> B) (g : A -> C) (l : list A) :
  (forall a, R (f a) (g a)) -> Forall2 R (map f l) (map g l).
Proof. intros H. induction l; cbn [map]; constructor; auto. Qed.

Lemma sixOf_six (values : list Z) :
  length values = 6%nat -> PublicInputs.sixOf values = values.
Proof.
  intros Hlen.
  do 6 (destruct values as [|? values]; [discriminate|]).
  destruct values; [reflexivity|discriminate].
Qed.

(** The 17 fields for typed entries, whatever the length of the two
    arrays: the first six entries of each, continued with zeros. *)
Lemma fields_encode (publicInputs : PublicInputs.PublicInputs) :
  PublicInputs.isFieldHex (PublicInputs.trap_merkle_root publicInputs) = true ->
  PublicInputs.isU32 (PublicInputs.move_x publicInputs) = true ->
  PublicInputs.isU32 (PublicInputs.move_y publicInputs) = true ->
  PublicInputs.isU32 (PublicInputs.is_hit publicInputs) = true ->
  PublicInputs.isU32 (PublicInputs.trap_merkle_proof_length publicInputs) = true ->
  forallb PublicInputs.isU32 (PublicInputs.trap_merkle_proof_indices publicInputs)
  = true ->
  forallb PublicInputs.isFieldHex (PublicInputs.trap_merkle_proof_siblings publicInputs)
  = true ->
  exists chunks,
    PublicInputs.fields publicInputs = JS.Returned chunks /\
    Forall2 PublicInputs.encodes chunks
      ([ PublicInputs.fieldValue (PublicInputs.trap_merkle_root publicInputs);
         PublicInputs.move_x publicInputs;
         PublicInputs.move_y publicInputs;
         PublicInputs.is_hit publicInputs;
         PublicInputs.trap_merkle_proof_length publicInputs ]
       ++ PublicInputs.sixOf (PublicInputs.trap_merkle_proof_indices publicInputs)
       ++ PublicInputs.sixOf
            (map PublicInputs.fieldValue
               (PublicInputs.trap_merkle_proof_siblings publicInputs))).
Proof.
  intros Hroot Hx Hy Hhit Hlen Hidx Hsib.
  rewrite <- !indexOrZero_sixOf.
  rewrite <- (map_ext _ _ (siblingOrZero_value
                            (PublicInputs.trap_merkle_proof_siblings publicInputs))).
  apply runPushes_encodes.
  unfold PublicInputs.fieldPushes, PublicInputs.u1ToBytes32, PublicInputs.fieldToBytes32.
  apply Forall2_app.
  - repeat (apply Forall2_cons;
            [first [ apply u32ToBytes32_encodes; assumption
                   | eexists; split;
                     [reflexivity | apply hexToBytes32_encodes; assumption] ] |]).
    apply Forall2_nil.
  - apply Forall2_app.
    + apply Forall2_map_same. intros i.
      apply u32ToBytes32_encodes. now apply indexOrZero_typed.
    + apply Forall2_map_same. intros i.
      eexists. split; [reflexivity|].
      apply hexToBytes32_encodes. now apply siblingOrZero_typed.
Qed.

(** C8.  Serialization of the public inputs of the Merkle variant.  For
    inputs of the declared types (a root in hex, four u32 values, six u32
    indices, six siblings in hex) the script writes exactly 17 fields,
    each 32 bytes that are the big-endian encoding of its value, in the
    order trap_merkle_root, move_x, move_y, is_hit,
    trap_merkle_proof_length, the six entries of the index array, the six
    entries of the sibling array: 544 bytes.  With typed entries and
    arrays of any length there are 17 fields as well: the first six
    entries of each array, and the field 0 for each entry that is missing.
    A u32 value occupies the last four bytes of its field, after 28 zero
    bytes. *)
Theorem public_inputs_serialization :
  (forall publicInputs,
     PublicInputs.wellTyped publicInputs = true ->
     exists chunks,
       PublicInputs.fields publicInputs = JS.Returned chunks /\
       PublicInputs.publicInputsBuffer publicInputs = JS.Returned (concat chunks) /\
       length chunks = 17%nat /\
       Forall2 PublicInputs.encodes chunks (PublicInputs.declaredValues publicInputs) /\
       length (concat chunks) = 544%nat) /\
  (forall publicInputs,
     PublicInputs.isFieldHex (PublicInputs.trap_merkle_root publicInputs) = true ->
     PublicInputs.isU32 (PublicInputs.move_x publicInputs) = true ->
     PublicInputs.isU32 (PublicInputs.move_y publicInputs) = true ->
     PublicInputs.isU32 (PublicInputs.is_hit publicInputs) = true ->
     PublicInputs.isU32 (PublicInputs.trap_merkle_proof_length publicInputs) = true ->
     forallb PublicInputs.isU32 (PublicInputs.trap_merkle_proof_indices publicInputs)
     = true ->
     forallb PublicInputs.isFieldHex
       (PublicInputs.trap_merkle_proof_siblings publicInputs) = true ->
     exists chunks,
       PublicInputs.fields publicInputs = JS.Returned chunks /\
       PublicInputs.publicInputsBuffer publicInputs = JS.Returned (concat chunks) /\
       length chunks = 17%nat /\
       length (concat chunks) = 544%nat /\
       Forall2 PublicInputs.encodes chunks
         ([ PublicInputs.fieldValue (PublicInputs.trap_merkle_root publicInputs);
            PublicInputs.move_x publicInputs;
            PublicInputs.move_y publicInputs;
            PublicInputs.is_hit publicInputs;
            PublicInputs.trap_merkle_proof_length publicInputs ]
          ++ firstn 6 (PublicInputs.trap_merkle_proof_indices publicInputs
                       ++ repeat 0 6)
          ++ firstn 6 (map PublicInputs.fieldValue
                         (PublicInputs.trap_merkle_proof_siblings publicInputs)
                       ++ repeat 0 6))) /\
  (forall v,
     PublicInputs.isU32 v = true ->
     PublicInputs.u32ToBytes32 v
     = JS.Returned (repeat 0 28 ++ PublicInputs.bigEndian 4 v)).
Proof.
  split; [|split; [|exact u32ToBytes32_right_aligned]].
  - intros publicInputs Hwt.
    unfold PublicInputs.wellTyped in Hwt.
    repeat rewrite andb_true_iff in Hwt.
    destruct Hwt as ((((((((Hroot & Hx) & Hy) & Hhit) & Hlen) & Hn6) & Hidx) & Hs6) & Hsib).
    apply Nat.eqb_eq in Hn6, Hs6.
    destruct (fields_encode publicInputs Hroot Hx Hy Hhit Hlen Hidx Hsib)
      as (chunks & Hrun & Henc).
    rewrite (sixOf_six _ Hn6) in Henc.
    rewrite (sixOf_six (map PublicInputs.fieldValue _)) in Henc
      by (now rewrite length_map).
    fold (PublicInputs.declaredValues publicInputs) in Henc.
    exists chunks.
    destruct (encodes_concat_length _ _ Henc) as (Hbytes & Hcount & _).
    assert (length (PublicInputs.declaredValues publicInputs) = 17%nat) as Hd.
    { unfold PublicInputs.declaredValues.
      rewrite !length_app, length_map, Hn6, Hs6. reflexivity. }
    unfold PublicInputs.publicInputsBuffer. rewrite Hrun, Hbytes, Hcount, Hd.
    repeat split; auto.
  - intros publicInputs Hroot Hx Hy Hhit Hlen Hidx Hsib.
    destruct (fields_encode publicInputs Hroot Hx Hy Hhit Hlen Hidx Hsib)
      as (chunks & Hrun & Henc).
    exists chunks.
    destruct (encodes_concat_length _ _ Henc) as (Hbytes & Hcount & _).
    assert (forall l, length (PublicInputs.sixOf l) = 6%nat) as H6.
    { intros l. unfold PublicInputs.sixOf.
      rewrite length_firstn, length_app, repeat_length. lia. }
    rewrite !length_app, !H6 in Hbytes, Hcount. cbn [length Nat.add] in Hbytes, Hcount.
    unfold PublicInputs.publicInputsBuffer. rewrite Hrun.
    repeat split; auto.
Qed.

Lemma public_inputs_serialization_witness :
  (exists chunks,
     PublicInputs.fields
       {| PublicInputs.trap_merkle_root :=
            "0x2a09a9fd93c590c26b91effbb2499f07e8f7aa12e2b4940a3aed2411cb65e11c";
          PublicInputs.move_x := 3;
          PublicInputs.move_y := 4;
          PublicInputs.is_hit := 1;
          PublicInputs.trap_merkle_proof_length := 6;
          PublicInputs.trap_merkle_proof_indices := [1; 0; 1; 0; 0; 1];
          PublicInputs.trap_merkle_proof_siblings :=
            ["0x01"; "ff"; "0x0"; "1b"; "0xabc"; "7"]%string |}
     = JS.Returned chunks /\
     length (concat chunks) = 544%nat /\
     skipn 1 (map PublicInputs.bigEndianValue chunks)
     = [3; 4; 1; 6; 1; 0; 1; 0; 0; 1; 1; 255; 0; 27; 2748; 7]) /\
  (exists chunks,
     PublicInputs.fields
       {| PublicInputs.trap_merkle_root := "0x2a";
          PublicInputs.move_x := 3;
          PublicInputs.move_y := 4;
          PublicInputs.is_hit := 1;
          PublicInputs.trap_merkle_proof_length := 6;
          PublicInputs.trap_merkle_proof_indices := [1; 0; 1; 0; 0; 1];
          PublicInputs.trap_merkle_proof_siblings := [""%string] |}
     = JS.Returned chunks /\
     length (concat chunks) = 544%nat /\
     map PublicInputs.bigEndianValue chunks
     = [42; 3; 4; 1; 6; 1; 0; 1; 0; 0; 1; 0; 0; 0; 0; 0; 0]).
Proof.
  destruct public_inputs_serialization as (Hdeclared & Hany & _). split.
  - destruct (Hdeclared
                {| PublicInputs.trap_merkle_root :=
                     "0x2a09a9fd93c590c26b91effbb2499f07e8f7aa12e2b4940a3aed2411cb65e11c";
                   PublicInputs.move_x := 3;
                   PublicInputs.move_y := 4;
                   PublicInputs.is_hit := 1;
                   PublicInputs.trap_merkle_proof_length := 6;
                   PublicInputs.trap_merkle_proof_indices := [1; 0; 1; 0; 0; 1];
                   PublicInputs.trap_merkle_proof_siblings :=
                     ["0x01"; "ff"; "0x0"; "1b"; "0xabc"; "7"]%string |})
      as (chunks & Hf & _ & _ & Henc & Hlen).
    + vm_compute. reflexivity.
    + exists chunks. split; [exact Hf|]. split; [exact Hlen|].
      destruct (encodes_concat_length _ _ Henc) as (_ & _ & Hvalues).
      rewrite Hvalues. vm_compute. reflexivity.
  - destruct (Hany
                {| PublicInputs.trap_merkle_root := "0x2a";
                   PublicInputs.move_x := 3;
                   PublicInputs.move_y := 4;
                   PublicInputs.is_hit := 1;
                   PublicInputs.trap_merkle_proof_length := 6;
                   PublicInputs.trap_merkle_proof_indices := [1; 0; 1; 0; 0; 1];
                   PublicInputs.trap_merkle_proof_siblings := [""%string] |})
      as (chunks & Hf & _ & _ & Hlen & Henc); try (vm_compute; reflexivity).
    exists chunks. split; [exact Hf|]. split; [exact Hlen|].
    destruct (encodes_concat_length _ _ Henc) as (_ & _ & Hvalues).
    rewrite Hvalues. vm_compute. reflexivity.
Defined.

(* ================================================================== *)
(** * Part III.  Further properties of the embedded code                *)
(* ================================================================== *)

(** ** utils.ts: the frontend tree and its proofs *)

Lemma frontend_isRight_bit (c : Z) :
  ((if MerkleLoops.isRight c then 1 else 0) =? 1) = MerkleLoops.isRight c.
Proof. now destruct (MerkleLoops.isRight c). Qed.

(** One step of the frontend walk against one step of the frontend
    builder. *)
Lemma frontend_parent_step (L : list string) (c : Z) (node : string) :
  JS.index L c = Some node ->
  exists s,
    Frontend.pickSibling L (MerkleLoops.siblingIndexOf c) c = Some s /\
    JS.index (Frontend.nextLevelOf L) (c / 2)
    = Some (if (if MerkleLoops.isRight c then 1 else 0) =? 1
            then Frontend.hashPair s node else Frontend.hashPair node s).
Proof.
  intros Hc. apply index_Some in Hc as [Hc0 Hn].
  rewrite <- (Z2Nat.id c Hc0). set (n := Z.to_nat c) in *. clearbody n. clear Hc0.
  unfold Frontend.nextLevelOf.
  destruct (nat_parity n) as [k [-> | ->]].
  - unfold MerkleLoops.siblingIndexOf. rewrite isRight_even, half_even.
    rewrite index_of_nat, (nextLevelOf_nth _ _ _ _ _ Hn).
    unfold Frontend.pickSibling.
    replace (Z.of_nat (2 * k) + 1) with (Z.of_nat (2 * k + 1)) by lia.
    rewrite !index_of_nat, Hn.
    destruct (Z.ltb_spec (Z.of_nat (2 * k + 1)) (Z.of_nat (length L))) as [Hin|Hout].
    + destruct (nth_error L (2 * k + 1)) as [b|] eqn:Eb.
      * exists b. split; reflexivity.
      * apply nth_error_None in Eb. lia.
    + exists node. split; [reflexivity|].
      assert (nth_error L (2 * k + 1) = None) as -> by (apply nth_error_None; lia).
      reflexivity.
  - unfold MerkleLoops.siblingIndexOf. rewrite isRight_odd, half_odd.
    rewrite index_of_nat.
    destruct (nth_error L (2 * k)) as [a|] eqn:Ea.
    2:{ apply nth_error_None in Ea.
        assert (nth_error L (2 * k + 1) <> None) as Hs by congruence.
        apply nth_error_Some in Hs. lia. }
    rewrite (nextLevelOf_nth _ _ _ _ _ Ea), Hn.
    unfold Frontend.pickSibling.
    replace (Z.of_nat (2 * k + 1) - 1) with (Z.of_nat (2 * k)) by lia.
    rewrite !index_of_nat, Ea.
    assert (2 * k < length L)%nat by (apply nth_error_Some; congruence).
    destruct (Z.ltb_spec (Z.of_nat (2 * k)) (Z.of_nat (length L))); [|lia].
    exists a. split; reflexivity.
Qed.

(** The [while] loop keeps the tree a chain of pairings that ends in the
    current level. *)
Lemma whileLoop_chain (fuel : nat) :
  forall tree cur,
    nth_error tree (length tree - 1) = Some cur ->
    (forall j L, (S j < length tree)%nat -> nth_error tree j = Some L ->
       nth_error tree (S j) = Some (Frontend.nextLevelOf L)) ->
    let result := Frontend.whileLoop fuel tree cur in
    nth_error (fst result) (length (fst result) - 1) = Some (snd result) /\
    (forall j L, (S j < length (fst result))%nat -> nth_error (fst result) j = Some L ->
       nth_error (fst result) (S j) = Some (Frontend.nextLevelOf L)).
Proof.
  induction fuel as [|fuel IH]; intros tree cur Hlast Hchain; simpl.
  - split; assumption.
  - destruct (1 <? length cur)%nat; [|split; assumption].
    assert (Hne : (0 < length tree)%nat).
    { destruct tree; [discriminate|simpl; lia]. }
    apply IH.
    + rewrite length_app. simpl.
      rewrite nth_error_app2 by lia.
      replace (length tree + 1 - 1 - length tree)%nat with 0%nat by lia.
      reflexivity.
    + intros j L Hj HL. rewrite length_app in Hj. simpl in Hj.
      destruct (Nat.eq_dec (S j) (length tree)) as [Heq|Hneq].
      * rewrite nth_error_app1 in HL by lia.
        replace j with (length tree - 1)%nat in HL by lia.
        rewrite Hlast in HL. injection HL as <-.
        rewrite nth_error_app2 by lia. rewrite Heq, Nat.sub_diag. reflexivity.
      * rewrite nth_error_app1 in HL by lia.
        rewrite nth_error_app1 by lia. apply Hchain; [lia|exact HL].
Qed.

(** Walking [n] levels up a chain and recomputing the path from the start
    node reaches node [c / 2^n], [n] levels higher. *)
Lemma frontend_walk_recomputes (tree : list (list string)) :
  (forall j L, (S j < length tree)%nat -> nth_error tree j = Some L ->
     nth_error tree (S j) = Some (Frontend.nextLevelOf L)) ->
  forall n level c L node,
    (level + n < length tree)%nat ->
    nth_error tree level = Some L ->
    JS.index L c = Some node ->
    exists p L' r,
      MerkleLoops.proofLoop Frontend.pickSibling n tree level c [] [] = JS.Returned p
      /\ nth_error tree (level + n) = Some L'
      /\ JS.index L' (c / 2 ^ Z.of_nat n) = Some r
      /\ MerklePath.recompute Frontend.hashPair node
           (MerkleLoops.indices p) (MerkleLoops.siblings p) = Some r.
Proof.
  intros Hchain.
  induction n as [|n IH]; intros level c L node Hlev HL Hnode.
  - exists {| MerkleLoops.indices := []; MerkleLoops.siblings := [] |}, L, node.
    simpl. rewrite Nat.add_0_r, Z.div_1_r. auto.
  - rewrite proofLoop_step, HL.
    destruct (frontend_parent_step L c node Hnode) as (s & Hs & Hparent).
    destruct (IH (S level) (c / 2) (Frontend.nextLevelOf L) _ ltac:(lia)
                 (Hchain level L ltac:(lia) HL) Hparent)
      as (q & L' & r & -> & HL' & Hr & Hrec).
    eexists; exists L', r. split; [reflexivity|].
    replace (level + S n)%nat with (S level + n)%nat by lia.
    rewrite <- halve_pow. repeat split; auto.
    simpl. rewrite Hs. exact Hrec.
Qed.

Lemma map_from_nth {A B : Type} (f : A -> Z -> B) (l : list A) :
  forall k n a, nth_error l n = Some a ->
    nth_error (JS.map_from f k l) n = Some (f a (k + Z.of_nat n)).
Proof.
  induction l as [|x l IH]; intros k n a Hn; destruct n as [|n]; simpl in *;
    try discriminate.
  - injection Hn as ->. now rewrite Z.add_0_r.
  - rewrite (IH (k + 1) n a Hn). f_equal. f_equal. lia.
Qed.

(** X1.  Round trip of the frontend builder.  For 64 trap values and a
    leaf index i in [0,64), [buildMerkleTree] returns, [generateMerkleProof]
    on its tree returns six path bits and six defined siblings, and
    recomputing the path from the leaf [hashTrapValue(value_i, i)] with
    them gives the root that [buildMerkleTree] returned. *)
Theorem frontend_proof_recomputes_root (trapValues : list Z) (i : Z) :
  length trapValues = 64%nat ->
  0 <= i < 64 ->
  exists b p cell rootNode,
    Frontend.buildMerkleTree trapValues = JS.Returned b /\
    JS.index trapValues i = Some cell /\
    Frontend.generateMerkleProof (Frontend.tree b) i = JS.Returned p /\
    length (MerkleLoops.indices p) = 6%nat /\
    Frontend.root b = Some rootNode /\
    MerklePath.recompute Frontend.hashPair (Frontend.hashTrapValue cell i)
      (MerkleLoops.indices p) (MerkleLoops.siblings p) = Some rootNode.
Proof.
  intros Hlen Hi.
  destruct (frontend_buildMerkleTree_returns trapValues Hlen)
    as (b & rootNode & Hb & Hroot & Hsizes).
  assert (exists cell, JS.index trapValues i = Some cell) as [cell Hcell].
  { destruct (JS.index trapValues i) eqn:E; eauto.
    unfold JS.index in E. destruct (Z.ltb_spec i 0); [lia|].
    apply nth_error_None in E. lia. }
  assert (Htl : length (Frontend.tree b) = 7%nat).
  { rewrite <- (length_map (@length string)), Hsizes. reflexivity. }
  set (leaves := JS.map_with_index Frontend.hashTrapValue trapValues).
  pose proof Hb as Hb'. unfold Frontend.buildMerkleTree in Hb'.
  destruct (negb _); [discriminate|]. fold leaves in Hb'.
  pose proof (whileLoop_chain (length leaves) [leaves] leaves eq_refl) as Hinv.
  destruct (Frontend.whileLoop (length leaves) [leaves] leaves) as [tree cur] eqn:Ew.
  injection Hb' as <-. simpl in Htl, Hroot, Hinv |- *.
  destruct Hinv as [Hlast Hchain].
  { intros j L Hj. simpl in Hj. lia. }
  assert (Hleaf : JS.index leaves i = Some (Frontend.hashTrapValue cell i)).
  { apply index_Some in Hcell as [H0 Hn]. apply index_Some. split; [exact H0|].
    unfold leaves, JS.map_with_index. rewrite (map_from_nth _ _ 0 _ _ Hn).
    now rewrite Z.add_0_l, Z2Nat.id. }
  assert (H0 : nth_error tree 0 = Some leaves).
  { destruct (whileLoop_prefix (length leaves) [leaves] leaves) as [more E].
    rewrite Ew in E. simpl in E. now rewrite E. }
  destruct (frontend_walk_recomputes tree Hchain 6 0 i leaves _ ltac:(lia) H0 Hleaf)
    as (p & L' & r & Hp & HL' & Hr & Hrec).
  exists {| Frontend.root := nth_error cur 0; Frontend.tree := tree |}, p, cell, rootNode.
  simpl. unfold Frontend.generateMerkleProof. rewrite Htl. simpl Nat.sub.
  destruct (proofLoop_returns Frontend.pickSibling 6 tree 0 i ltac:(lia))
    as (p' & Hp' & Hlen' & _).
  rewrite Hp in Hp'. injection Hp' as <-.
  repeat split; auto.
  rewrite Hrec. f_equal.
  rewrite Htl in Hlast. simpl in Hlast, HL'. rewrite Hlast in HL'.
  injection HL' as <-.
  replace (i / 2 ^ Z.of_nat 6) with 0 in Hr
    by (symmetry; apply Z.div_small; change (2 ^ Z.of_nat 6) with 64; lia).
  unfold JS.index in Hr. simpl in Hr. congruence.
Qed.

Lemma frontend_proof_recomputes_root_witness :
  exists b p cell rootNode,
    Frontend.buildMerkleTree (1 :: repeat 0 63) = JS.Returned b /\
    JS.index (1 :: repeat 0 63) 37 = Some cell /\
    Frontend.generateMerkleProof (Frontend.tree b) 37 = JS.Returned p /\
    length (MerkleLoops.indices p) = 6%nat /\
    Frontend.root b = Some rootNode /\
    MerklePath.recompute Frontend.hashPair (Frontend.hashTrapValue cell 37)
      (MerkleLoops.indices p) (MerkleLoops.siblings p) = Some rootNode.
Proof.
  apply (frontend_proof_recomputes_root (1 :: repeat 0 63) 37); [reflexivity|lia].
Defined.

(** X2.  Shape of the frontend tree.  [buildMerkleTree] throws
    "Invalid trap values length" unless it is given exactly 64 values; on
    64 values it returns seven levels of 64, 32, 16, 8, 4, 2 and 1 nodes:
    level 0 holds the leaf [hashTrapValue(value_i, i)] at position i,
    node k of each further level is [hash(left,right)] of nodes 2k and
    2k+1 of the level below, in this order, and [root] is the single node
    of the last level. *)
Theorem frontend_tree_shape (trapValues : list Z) :
  (length trapValues <> 64%nat ->
   Frontend.buildMerkleTree trapValues = JS.Thrown "Invalid trap values length") /\
  (length trapValues = 64%nat ->
   exists b rootNode,
     Frontend.buildMerkleTree trapValues = JS.Returned b /\
     map (@length string) (Frontend.tree b) = [64; 32; 16; 8; 4; 2; 1]%nat /\
     (forall i v, nth_error trapValues i = Some v ->
        exists leaves,
          nth_error (Frontend.tree b) 0 = Some leaves /\
          nth_error leaves i = Some (Frontend.hashTrapValue v (Z.of_nat i))) /\
     (forall j L k left_ right_,
        (j < 6)%nat -> nth_error (Frontend.tree b) j = Some L ->
        nth_error L (2 * k) = Some left_ ->
        nth_error L (2 * k + 1) = Some right_ ->
        exists parents,
          nth_error (Frontend.tree b) (S j) = Some parents /\
          nth_error parents k
          = Some ("hash(" ++ left_ ++ "," ++ right_ ++ ")")%string) /\
     nth_error (Frontend.tree b) 6 = Some [rootNode] /\
     Frontend.root b = Some rootNode).
Proof.
  split.
  - intros Hne. unfold Frontend.buildMerkleTree, Frontend.GRID_SIZE.
    destruct (Z.eqb_spec (Z.of_nat (length trapValues)) (8 * 8)); [lia|reflexivity].
  - intros Hlen.
    destruct (frontend_buildMerkleTree_returns trapValues Hlen)
      as (b & rootNode & Hb & Hroot & Hsizes).
    exists b, rootNode. split; [exact Hb|]. split; [exact Hsizes|].
    pose proof (frontend_leaves trapValues b Hb) as Hleaves.
    assert (Htl : length (Frontend.tree b) = 7%nat).
    { rewrite <- (length_map (@length string)), Hsizes. reflexivity. }
    set (leaves := JS.map_with_index Frontend.hashTrapValue trapValues) in *.
    pose proof Hb as Hb'. unfold Frontend.buildMerkleTree in Hb'.
    destruct (negb _); [discriminate|]. fold leaves in Hb'.
    pose proof (whileLoop_chain (length leaves) [leaves] leaves eq_refl) as Hinv.
    destruct (Frontend.whileLoop (length leaves) [leaves] leaves) as [tree cur] eqn:Ew.
    injection Hb' as <-.
    cbn [Frontend.tree Frontend.root fst snd] in Htl, Hroot, Hinv, Hsizes, Hleaves |- *.
    destruct Hinv as [Hlast Hchain].
    { intros j L Hj. simpl in Hj. lia. }
    rewrite Htl in Hlast. change (7 - 1)%nat with 6%nat in Hlast.
    split; [|split; [|split; [|exact Hroot]]].
    + intros i v Hv. exists leaves. split; [exact Hleaves|].
      unfold leaves, JS.map_with_index.
      now rewrite (map_from_nth Frontend.hashTrapValue trapValues 0 i v Hv).
    + intros j L k left_ right_ Hj HL Hleft Hright.
      exists (Frontend.nextLevelOf L). split; [apply Hchain; [lia|exact HL]|].
      unfold Frontend.nextLevelOf.
      rewrite (nextLevelOf_nth Frontend.hashPair Frontend.pickRight L k left_ Hleft).
      rewrite Hright. reflexivity.
    + rewrite Hlast. f_equal.
      assert (Hc : length cur = 1%nat).
      { assert (E : nth_error (map (@length string) tree) 6 = Some 1%nat)
          by (rewrite Hsizes; reflexivity).
        rewrite nth_error_map, Hlast in E. simpl in E. congruence. }
      destruct cur as [|r [|r' rest]]; simpl in Hc, Hroot; try discriminate.
      congruence.
Qed.

Lemma frontend_tree_shape_witness :
  Frontend.buildMerkleTree [0; 1; 0] = JS.Thrown "Invalid trap values length" /\
  exists b rootNode parents,
    Frontend.buildMerkleTree (repeat 1 62 ++ [0; 1]) = JS.Returned b /\
    nth_error (Frontend.tree b) 1 = Some parents /\
    nth_error parents 31 = Some "hash(hash_0_62,hash_1_63)"%string /\
    nth_error (Frontend.tree b) 6 = Some [rootNode] /\
    Frontend.root b = Some rootNode.
Proof.
  split.
  - apply (frontend_tree_shape [0; 1; 0]). simpl. lia.
  - destruct (proj2 (frontend_tree_shape (repeat 1 62 ++ [0; 1])) eq_refl)
      as (b & rootNode & Hb & _ & Hleaf & Hpair & Htop & Hroot).
    destruct (Hleaf 62%nat 0 eq_refl) as (leaves & Hl0 & Hleft).
    destruct (Hleaf 63%nat 1 eq_refl) as (leaves' & Hl0' & Hright).
    assert (leaves' = leaves) as -> by congruence.
    destruct (Hpair 0%nat leaves 31%nat _ _ ltac:(lia) Hl0 Hleft Hright)
      as (parents & Hp & Hnode).
    exists b, rootNode, parents. repeat split; assumption.
Defined.

(** ** generate_test_data.ts: trees of any grid *)

Lemma div2_succ_mono (a b : nat) :
  (a <= b)%nat -> (Nat.div2 (S a) <= Nat.div2 (S b))%nat.
Proof.
  intros Hab. rewrite !Nat.div2_div. apply Nat.Div0.div_le_mono. lia.
Qed.

Lemma proofLoop_throws {node : Type}
    (pickSibling : list node -> Z -> Z -> option node) (n : nat) :
  forall tree level c,
    (0 < n)%nat -> (length tree < level + n)%nat ->
    MerkleLoops.proofLoop pickSibling n tree level c [] []
    = JS.Thrown "TypeError: Cannot read properties of undefined".
Proof.
  induction n as [|n IH]; intros tree level c Hn Hlen; [lia|].
  rewrite proofLoop_step.
  destruct (nth_error tree level) as [nodes|] eqn:E; [|reflexivity].
  assert (level < length tree)%nat by (apply nth_error_Some; congruence).
  rewrite (IH tree (S level) (c / 2)) by lia. reflexivity.
Qed.

Section TestDataTrees.

Variable poseidon1 : Z -> Z.
Variable poseidon2 : Z -> Z -> Z.

Local Abbreviation nextLevelOf := (TestData.nextLevelOf poseidon2).
Local Abbreviation buildMerkleTree := (TestData.buildMerkleTree poseidon1 poseidon2).

Lemma testdata_next_length (L : list Z) :
  length (nextLevelOf L) = Nat.div2 (S (length L)).
Proof. apply nextLevelOf_length. Qed.

Lemma halvings_mono (k a b : nat) :
  (a <= b)%nat ->
  (Nat.iter k (fun n => Nat.div2 (S n)) a <= Nat.iter k (fun n => Nat.div2 (S n)) b)%nat.
Proof.
  intros Hab. induction k as [|k IH]; simpl; [exact Hab|].
  now apply div2_succ_mono.
Qed.

Lemma testdata_last_level_nth (grid : list Z) :
  exists top,
    nth_error (buildMerkleTree grid) 6 = Some top /\
    length top = Nat.iter 6 (fun n => Nat.div2 (S n)) (length grid).
Proof.
  eexists. split.
  - unfold TestData.buildMerkleTree.
    cbn [TestData.MERKLE_TREE_DEPTH TestData.buildLoop nth_error].
    reflexivity.
  - rewrite !testdata_next_length. rewrite leaves_are_value_hashes, length_map.
    reflexivity.
Qed.

Lemma testdata_rootOf_top (grid : list Z) (top : list Z) :
  nth_error (buildMerkleTree grid) 6 = Some top ->
  TestData.rootOf (buildMerkleTree grid) = nth_error top 0.
Proof.
  intros Htop. unfold TestData.rootOf. rewrite buildMerkleTree_length.
  change (7 - 1)%nat with 6%nat. now rewrite Htop.
Qed.

(** With 1 to 64 cells the last level is a single node. *)
Lemma testdata_single_root (grid : list Z) :
  (1 <= length grid <= 64)%nat ->
  exists r,
    nth_error (buildMerkleTree grid) 6 = Some [r] /\
    TestData.rootOf (buildMerkleTree grid) = Some r.
Proof.
  intros [Hlo Hhi]. destruct (testdata_last_level_nth grid) as (top & Htop & Hlen).
  pose proof (testdata_rootOf_top grid top Htop) as Hroot.
  assert (length top = 1%nat) as H1.
  { pose proof (halvings_mono 6 _ _ Hhi) as Hup.
    pose proof (halvings_mono 6 _ _ Hlo) as Hdn.
    rewrite <- Hlen in Hup, Hdn.
    change (Nat.iter 6 (fun n => Nat.div2 (S n)) 64%nat) with 1%nat in Hup.
    change (Nat.iter 6 (fun n => Nat.div2 (S n)) 1%nat) with 1%nat in Hdn.
    lia. }
  destruct top as [|r [|r' rest]]; try discriminate.
  exists r. rewrite Hroot. split; [exact Htop|reflexivity].
Qed.

(** X3.  Top level of the test-data tree.  Whatever the number of cells,
    the tree has seven levels.  With 1 to 64 cells the last level is a
    single node, which is the root read by [main]; with more than 64 cells
    the last level keeps at least two nodes, so the value read as root is
    only the first of them; with no cell there is no root. *)
Theorem testdata_top_level (grid : list Z) :
  length (buildMerkleTree grid) = 7%nat /\
  (length grid = 0%nat -> TestData.rootOf (buildMerkleTree grid) = None) /\
  ((1 <= length grid <= 64)%nat ->
   exists r,
     nth_error (buildMerkleTree grid) 6 = Some [r] /\
     TestData.rootOf (buildMerkleTree grid) = Some r) /\
  ((64 < length grid)%nat ->
   exists r r' rest,
     nth_error (buildMerkleTree grid) 6 = Some (r :: r' :: rest) /\
     TestData.rootOf (buildMerkleTree grid) = Some r).
Proof.
  destruct (testdata_last_level_nth grid) as (top & Htop & Hlen).
  pose proof (testdata_rootOf_top grid top Htop) as Hroot.
  split; [apply buildMerkleTree_length|]. split; [|split].
  - intros H0. rewrite H0 in Hlen. simpl in Hlen.
    destruct top; [|discriminate]. now rewrite Hroot.
  - apply testdata_single_root.
  - intros Hgt.
    assert (2 <= length top)%nat as H2.
    { pose proof (halvings_mono 6 65%nat (length grid) ltac:(lia)) as Hdn.
      rewrite <- Hlen in Hdn.
      change (Nat.iter 6 (fun n => Nat.div2 (S n)) 65%nat) with 2%nat in Hdn.
      exact Hdn. }
    destruct top as [|r [|r' rest]]; simpl in H2; try lia.
    exists r, r', rest. rewrite Hroot. split; [exact Htop|reflexivity].
Qed.

(** X4.  [generateMerkleProof] of the test-data script reads
    [tree[0]] to [tree[5]] whatever the leaf index: it returns a proof
    object when the tree has at least six levels and throws a TypeError
    when it has fewer. *)
Theorem testdata_proof_needs_six_levels (tree : list (list Z)) (leafIndex : Z) :
  ((6 <= length tree)%nat ->
   exists p, TestData.generateMerkleProof tree leafIndex = JS.Returned p) /\
  ((length tree < 6)%nat ->
   TestData.generateMerkleProof tree leafIndex
   = JS.Thrown "TypeError: Cannot read properties of undefined").
Proof.
  unfold TestData.generateMerkleProof, TestData.MERKLE_TREE_DEPTH. split.
  - intros Hlen.
    destruct (proofLoop_returns TestData.pickSibling 6 tree 0 leafIndex Hlen)
      as (p & Hp & _).
    exists p. exact Hp.
  - intros Hlen. apply proofLoop_throws; simpl; lia.
Qed.

(** X5.  Round trip on grids shorter than 64 cells, where levels of odd
    size occur.  For 1 to 64 cells and a leaf index below the number of
    cells, if no node of the tree is [0n], the path recomputed from the
    leaf commitment with the generated proof is the root. *)
Theorem testdata_round_trip_any_size (G : list Z) (i : Z) :
  (1 <= length G <= 64)%nat ->
  0 <= i < Z.of_nat (length G) ->
  TestData.allTruthy (buildMerkleTree G) = true ->
  exists cell p root,
    JS.index G i = Some cell /\
    TestData.generateMerkleProof (buildMerkleTree G) i = JS.Returned p /\
    TestData.rootOf (buildMerkleTree G) = Some root /\
    TestData.recomputePath poseidon2
      (TestData.computeTrapCommitment poseidon1 cell i)
      (MerkleLoops.indices p) (MerkleLoops.siblings p) = Some root.
Proof.
  intros Hlen Hi Htruthy.
  assert (exists cell, JS.index G i = Some cell) as [cell Hcell].
  { destruct (JS.index G i) eqn:E; eauto.
    unfold JS.index in E. destruct (Z.ltb_spec i 0); [lia|].
    apply nth_error_None in E. lia. }
  destruct (testdata_single_root G Hlen) as (r & Htop & Hroot).
  set (tree := buildMerkleTree G) in *.
  assert (Hchain : forall j L, (j < 6)%nat -> nth_error tree j = Some L ->
                     nth_error tree (S j) = Some (nextLevelOf L)).
  { intros j L Hj. apply (buildLoop_chain poseidon2 6); exact Hj. }
  assert (Hleaf : JS.index (map poseidon1 G) i = Some (poseidon1 cell)).
  { apply index_Some in Hcell as [H0 Hn]. apply index_Some. split; [exact H0|].
    now rewrite nth_error_map, Hn. }
  destruct (walk_recomputes poseidon2 tree Hchain Htruthy 6 0 i (map poseidon1 G)
              (poseidon1 cell) ltac:(lia)) as (p & L' & q & Hp & HL' & Hq & Hrec).
  { unfold tree, TestData.buildMerkleTree. cbn [nth_error].
    now rewrite leaves_are_value_hashes. }
  { exact Hleaf. }
  exists cell, p, r. repeat split; auto.
  change (0 + 6)%nat with 6%nat in HL'. rewrite Htop in HL'. injection HL' as <-.
  destruct (i / 2 ^ Z.of_nat 6) as [|z|z] eqn:Ez.
  - unfold JS.index in Hq. simpl in Hq. unfold TestData.computeTrapCommitment.
    congruence.
  - unfold JS.index in Hq. simpl in Hq.
    destruct (Pos.to_nat z) eqn:Ep; [lia|]. simpl in Hq.
    destruct n; discriminate.
  - discriminate.
Qed.

End TestDataTrees.

Lemma testdata_top_level_witness :
  (exists r,
     nth_error (TestData.buildMerkleTree (fun a => a + 7) (fun a b => 3 * a + 5 * b + 1)
                  [1; 0; 1]) 6 = Some [r]) /\
  (exists r r' rest,
     nth_error (TestData.buildMerkleTree (fun a => a + 7) (fun a b => 3 * a + 5 * b + 1)
                  (repeat 0 65)) 6 = Some (r :: r' :: rest)).
Proof.
  split.
  - destruct (testdata_top_level (fun a => a + 7) (fun a b => 3 * a + 5 * b + 1)
                [1; 0; 1]) as (_ & _ & H & _).
    destruct H as (r & Hr & _); [simpl; lia|]. exists r. exact Hr.
  - destruct (testdata_top_level (fun a => a + 7) (fun a b => 3 * a + 5 * b + 1)
                (repeat 0 65)) as (_ & _ & _ & H).
    destruct H as (r & r' & rest & Hr & _); [simpl; lia|]. exists r, r', rest. exact Hr.
Defined.

Lemma testdata_proof_needs_six_levels_witness :
  (exists p, TestData.generateMerkleProof [[1]; [2]; [3]; [4]; [5]; [6]] 0 = JS.Returned p) /\
  TestData.generateMerkleProof [[1; 2]; [3]] 1
  = JS.Thrown "TypeError: Cannot read properties of undefined".
Proof.
  split.
  - apply (testdata_proof_needs_six_levels [[1]; [2]; [3]; [4]; [5]; [6]] 0). simpl. lia.
  - apply (testdata_proof_needs_six_levels [[1; 2]; [3]] 1). simpl. lia.
Defined.

Lemma testdata_round_trip_any_size_witness :
  exists cell p root,
    JS.index [1; 0; 1; 0; 0] 4 = Some cell /\
    TestData.generateMerkleProof
      (TestData.buildMerkleTree (fun a => a + 7) (fun a b => 3 * a + 5 * b + 1)
         [1; 0; 1; 0; 0]) 4 = JS.Returned p /\
    TestData.rootOf
      (TestData.buildMerkleTree (fun a => a + 7) (fun a b => 3 * a + 5 * b + 1)
         [1; 0; 1; 0; 0]) = Some root /\
    TestData.recomputePath (fun a b => 3 * a + 5 * b + 1)
      (TestData.computeTrapCommitment (fun a => a + 7) cell 4)
      (MerkleLoops.indices p) (MerkleLoops.siblings p) = Some root.
Proof.
  apply (testdata_round_trip_any_size (fun a => a + 7) (fun a b => 3 * a + 5 * b + 1)
           [1; 0; 1; 0; 0] 4).
  - simpl. lia.
  - simpl. lia.
  - vm_compute. reflexivity.
Defined.

(** ** generate_test_data.ts: the trap grid *)






(** ** Hex printing of field elements and its reading back *)

Lemma chars_length (s : string) : length (list_ascii_of_string s) = String.length s.
Proof. induction s as [|c s IH]; simpl; [|rewrite IH]; reflexivity. Qed.

Lemma of_pos_hex :
  forall (p : positive) (rest : string),
    PublicInputs.allHex (list_ascii_of_string rest) = true ->
    PublicInputs.allHex (list_ascii_of_string (HexString.Raw.of_pos p rest)) = true.
Proof.
  fix IH 1. intros p rest H.
  do 4 try destruct p as [p|p|];
    first [ cbn [HexString.Raw.of_pos]; apply IH;
            cbn [list_ascii_of_string PublicInputs.allHex forallb];
            unfold PublicInputs.allHex in H; rewrite H; reflexivity
          | cbn [HexString.Raw.of_pos list_ascii_of_string PublicInputs.allHex forallb];
            unfold PublicInputs.allHex in H; rewrite H; reflexivity ].
Qed.

Lemma of_pos_length :
  forall (p : positive) (rest : string),
    exists n,
      String.length (HexString.Raw.of_pos p rest) = (S n + String.length rest)%nat /\
      16 ^ Z.of_nat n <= Z.pos p.
Proof.
  fix IH 1. intros p rest.
  do 4 try destruct p as [p|p|];
    first [ cbn [HexString.Raw.of_pos];
            match goal with
            | |- context [HexString.Raw.of_pos ?q ?r] =>
                destruct (IH q r) as (n & Hl & Hb)
            end;
            exists (S n); split;
            [ rewrite Hl; cbn [String.length]; lia
            | rewrite Nat2Z.inj_succ, Z.pow_succ_r by lia; lia ]
          | exists 0%nat; split; [reflexivity | cbn; lia] ].
Qed.

Lemma hexValue_to_N (s : string) :
  forall acc,
    PublicInputs.allHex (list_ascii_of_string s) = true ->
    fold_left
      (fun a c => 16 * a + match PublicInputs.hexDigit c with
                            | Some d => d | None => 0 end)
      (list_ascii_of_string s) (Z.of_N acc)
    = Z.of_N (HexString.Raw.to_N s acc).
Proof.
  induction s as [|c s IH]; intros acc H; [reflexivity|].
  cbn [list_ascii_of_string PublicInputs.allHex forallb] in H.
  apply andb_true_iff in H as [Hc Hs].
  cbn [list_ascii_of_string fold_left HexString.Raw.to_N].
  unfold PublicInputs.hexDigit in *.
  destruct (HexString.ascii_to_digit c) as [d|]; [|discriminate].
  cbn [option_map]. rewrite <- (IH _ Hs). f_equal. lia.
Qed.

Lemma toString16_digits (v : Z) :
  0 <= v < 2 ^ 256 ->
  let digits := list_ascii_of_string (ZkProof.toString16 v) in
  (length digits <= 64)%nat /\
  PublicInputs.allHex digits = true /\
  PublicInputs.hexValue digits = v.
Proof.
  intros Hv. destruct v as [|p|p]; [repeat split; simpl; lia | | lia].
  cbv zeta. cbn [ZkProof.toString16]. split; [|split].
  - rewrite chars_length.
    destruct (of_pos_length p "") as (n & Hl & Hb).
    rewrite Hl. cbn [String.length].
    assert (Z.of_nat n < 64); [|lia].
    apply (Z.pow_lt_mono_r_iff 16); [lia|lia|].
    change (16 ^ 64) with (2 ^ 256). lia.
  - apply of_pos_hex. reflexivity.
  - unfold PublicInputs.hexValue.
    rewrite (hexValue_to_N _ 0%N) by (apply of_pos_hex; reflexivity).
    rewrite HexString.Raw.to_N_of_pos. reflexivity.
Qed.

(** X7.  A field element printed by [bigIntToHex] is read back by
    [fieldToBytes32].  For 0 <= v < 2^256 the printed string is "0x"
    followed by 64 hex digits, and [fieldToBytes32] of it is the 32-byte
    big-endian encoding of v. *)
Theorem bigIntToHex_read_back (v : Z) :
  0 <= v < 2 ^ 256 ->
  String.length (TestDataMain.bigIntToHex v) = 66%nat /\
  PublicInputs.isFieldHex (TestDataMain.bigIntToHex v) = true /\
  PublicInputs.encodes (PublicInputs.fieldToBytes32 (TestDataMain.bigIntToHex v)) v.
Proof.
  intros Hv. destruct (toString16_digits v Hv) as (Hlen & Hhex & Hval).
  set (digits := list_ascii_of_string (ZkProof.toString16 v)) in *.
  assert (Hchars : PublicInputs.cleanHex (list_ascii_of_string (TestDataMain.bigIntToHex v))
                   = repeat "0"%char (64 - length digits) ++ digits).
  { unfold TestDataMain.bigIntToHex, JS.padStart, JS.padStartChars.
    cbn [append list_ascii_of_string PublicInputs.cleanHex].
    now rewrite list_ascii_of_string_of_list_ascii. }
  assert (Hfield : PublicInputs.isFieldHex (TestDataMain.bigIntToHex v) = true).
  { unfold PublicInputs.isFieldHex. rewrite Hchars.
    rewrite allHex_app, allHex_zeros, Hhex, length_app, repeat_length.
    apply andb_true_iff. split; [apply Nat.leb_le; lia|reflexivity]. }
  split; [|split; [exact Hfield|]].
  - rewrite <- chars_length.
    unfold TestDataMain.bigIntToHex, JS.padStart, JS.padStartChars.
    cbn [append list_ascii_of_string length].
    rewrite list_ascii_of_string_of_list_ascii, length_app, repeat_length.
    fold digits. lia.
  - pose proof (hexToBytes32_encodes _ Hfield) as He.
    rewrite Hchars, hexValue_zeros, Hval in He. exact He.
Qed.

Lemma bigIntToHex_read_back_witness :
  String.length (TestDataMain.bigIntToHex 48879) = 66%nat /\
  PublicInputs.isFieldHex (TestDataMain.bigIntToHex 48879) = true /\
  PublicInputs.encodes (PublicInputs.fieldToBytes32 (TestDataMain.bigIntToHex 48879)) 48879.
Proof. apply (bigIntToHex_read_back 48879). lia. Defined.

(** ** build_public_inputs.ts outside the declared types *)

Lemma store_high_word (h : Z) :
  PublicInputs.store (PublicInputs.alloc 32) 24 (PublicInputs.bigEndian 8 h)
  = repeat 0 24 ++ PublicInputs.bigEndian 8 h.
Proof. reflexivity. Qed.

Lemma store_low_word (h lo : Z) :
  PublicInputs.store (repeat 0 24 ++ PublicInputs.bigEndian 8 h) 28
    (PublicInputs.bigEndian 4 lo)
  = repeat 0 24 ++ firstn 4 (PublicInputs.bigEndian 8 h) ++ PublicInputs.bigEndian 4 lo.
Proof. reflexivity. Qed.

Lemma u32ToBytes32_below_2_96 (v : Z) :
  0 <= v < 2 ^ 96 ->
  PublicInputs.u32ToBytes32 v
  = JS.Returned (repeat 0 24 ++ PublicInputs.bigEndian 4 (v / 2 ^ 64)
                 ++ PublicInputs.bigEndian 4 (v mod 2 ^ 32)).
Proof.
  intros Hv. unfold PublicInputs.u32ToBytes32, PublicInputs.writeBigUInt64BE.
    assert (Hh : 0 <= Z.shiftr v 32 < 2 ^ 64).
    { rewrite Z.shiftr_div_pow2 by lia. split.
      - apply Z.div_pos; lia.
      - apply Z.div_lt_upper_bound; [lia|]. change (2 ^ 32 * 2 ^ 64) with (2 ^ 96). lia. }
    destruct (Z.ltb_spec (Z.shiftr v 32) 0); [lia|].
    destruct (Z.leb_spec (2 ^ 64) (Z.shiftr v 32)); [lia|].
    cbn [orb]. rewrite store_high_word.
    unfold PublicInputs.writeUInt32BE.
    change 4294967295 with (Z.ones 32). rewrite Z.land_ones by lia.
    pose proof (Z.mod_pos_bound v (2 ^ 32) ltac:(lia)) as Hlo.
    destruct (Z.ltb_spec (v mod 2 ^ 32) 0); [lia|].
    destruct (Z.leb_spec (2 ^ 32) (v mod 2 ^ 32)); [lia|].
    cbn [orb]. rewrite store_low_word. do 3 f_equal.
    rewrite <- (Z.shiftr_div_pow2 v 64) by lia.
    cbn [PublicInputs.bigEndian firstn].
    rewrite !Z.shiftr_shiftr by lia. reflexivity.
Qed.

(** X8.  [u32ToBytes32] outside the u32 range.  A negative value and a
    value of 2^96 or more make it throw a RangeError.  For 0 <= v < 2^96 it
    returns 24 zero bytes, the four bytes of bits 64..95 and the four bytes
    of bits 0..31: bits 32..63 of the value are dropped, so below 2^64 the
    result is the encoding of v mod 2^32. *)
Theorem u32ToBytes32_wide_values (v : Z) :
  (v < 0 \/ 2 ^ 96 <= v ->
   PublicInputs.u32ToBytes32 v = JS.Thrown "RangeError [ERR_OUT_OF_RANGE]") /\
  (0 <= v < 2 ^ 96 ->
   PublicInputs.u32ToBytes32 v
   = JS.Returned (repeat 0 24 ++ PublicInputs.bigEndian 4 (v / 2 ^ 64)
                  ++ PublicInputs.bigEndian 4 (v mod 2 ^ 32))) /\
  (0 <= v < 2 ^ 64 ->
   PublicInputs.u32ToBytes32 v = PublicInputs.u32ToBytes32 (v mod 2 ^ 32)).
Proof.
  pose proof u32ToBytes32_below_2_96 as Hmid.
  split; [|split; [exact (Hmid v)|]].
  - intros Hv. unfold PublicInputs.u32ToBytes32, PublicInputs.writeBigUInt64BE.
    destruct Hv as [Hneg|Hbig].
    + assert (Z.shiftr v 32 < 0) by (apply Z.shiftr_neg; exact Hneg).
      destruct (Z.ltb_spec (Z.shiftr v 32) 0); [reflexivity|lia].
    + assert (2 ^ 64 <= Z.shiftr v 32).
      { rewrite Z.shiftr_div_pow2 by lia. apply Z.div_le_lower_bound; [lia|].
        change (2 ^ 32 * 2 ^ 64) with (2 ^ 96). exact Hbig. }
      destruct (Z.ltb_spec (Z.shiftr v 32) 0); [reflexivity|].
      destruct (Z.leb_spec (2 ^ 64) (Z.shiftr v 32)); [reflexivity|lia].
  - intros Hv.
    pose proof (Z.mod_pos_bound v (2 ^ 32) ltac:(lia)) as Hlo.
    rewrite Hmid by lia. rewrite (Hmid (v mod 2 ^ 32)) by lia.
    rewrite Z.mod_mod by lia.
    rewrite (Z.div_small v) by lia. rewrite (Z.div_small (v mod 2 ^ 32)) by lia.
    reflexivity.
Qed.

Lemma u32ToBytes32_wide_values_witness :
  PublicInputs.u32ToBytes32 (-1) = JS.Thrown "RangeError [ERR_OUT_OF_RANGE]" /\
  PublicInputs.u32ToBytes32 (2 ^ 32 + 5)
  = PublicInputs.u32ToBytes32 ((2 ^ 32 + 5) mod 2 ^ 32).
Proof.
  split.
  - apply (u32ToBytes32_wide_values (-1)). left. lia.
  - apply (u32ToBytes32_wide_values (2 ^ 32 + 5)). lia.
Defined.

Lemma bufferFromHex_length (chars : list ascii) :
  PublicInputs.allHex chars = true ->
  length (PublicInputs.bufferFromHex chars) = Nat.div2 (length chars).
Proof.
  induction chars as [|a|a b chars IH] using list_pair_ind; intros H;
    [reflexivity|reflexivity|].
  cbn [PublicInputs.allHex forallb] in H.
  apply andb_true_iff in H as [Ha H]. apply andb_true_iff in H as [Hb H].
  cbn [PublicInputs.bufferFromHex].
  destruct (PublicInputs.hexDigit a); [|discriminate].
  destruct (PublicInputs.hexDigit b); [|discriminate].
  cbn [length Nat.div2]. now rewrite (IH H).
Qed.

(** X9.  Width of a field written from hex.  When all characters after the
    optional "0x" are hex digits, [hexToBytes32] returns 32 bytes for up to
    64 digits and one byte per pair of digits beyond that: a longer string
    is not cut to 32 bytes, and the last digit of an odd-length one is
    dropped. *)
Theorem hexToBytes32_width (value : string) :
  let digits := PublicInputs.cleanHex (list_ascii_of_string value) in
  PublicInputs.allHex digits = true ->
  length (PublicInputs.hexToBytes32 value)
  = Nat.max 32 (Nat.div2 (length digits)).
Proof.
  intros digits Hhex. unfold PublicInputs.hexToBytes32, JS.padStartChars.
  fold digits.
  rewrite bufferFromHex_length
    by (rewrite allHex_app, allHex_zeros; exact Hhex).
  rewrite length_app, repeat_length.
  destruct (Nat.le_gt_cases (length digits) 64) as [Hle|Hgt].
  - replace (64 - length digits + length digits)%nat with 64%nat by lia.
    change (Nat.div2 64) with 32%nat.
    pose proof (Nat.div2_div (length digits)) as E.
    assert (length digits / 2 <= 32)%nat
      by (apply Nat.Div0.div_le_upper_bound; lia).
    lia.
  - replace (64 - length digits + length digits)%nat with (length digits) by lia.
    pose proof (Nat.div2_div (length digits)) as E.
    assert (32 <= length digits / 2)%nat
      by (apply Nat.div_le_lower_bound; lia).
    lia.
Qed.

Lemma hexToBytes32_width_witness :
  length (PublicInputs.hexToBytes32 "0xabc") = Nat.max 32 (Nat.div2 3).
Proof. apply (hexToBytes32_width "0xabc"). reflexivity. Defined.

(** ** The split and the two counters of public inputs *)



Lemma find_of_filter {A : Type} (f : A -> bool) (l : list A) (a : A) (rest : list A) :
  filter f l = a :: rest -> find f l = Some a.
Proof.
  induction l as [|x l IH]; simpl; [discriminate|].
  destruct (f x); [now intros [= -> _]|exact IH].
Qed.

(** X11.  The two counters of public inputs.  On an ABI whose only public
    parameter is a scalar, or an array of n > 0 scalars, the inline counter
    of the limit-order script and [count_pub_inputs.ts] give the same
    number.  On an ABI whose only public parameter is a struct they differ:
    the inline counter gives 1, [count_pub_inputs.ts] the sum of the widths
    of the fields. *)
Theorem public_input_counters (parameters : list Split.AbiParameter)
    (p : Split.AbiParameter) :
  filter (fun q => (Split.visibility q =? "public")%string) parameters = [p] ->
  ((Split.kind (Split.type p) =? "array")%string = false ->
   (Split.kind (Split.type p) =? "struct")%string = false ->
   Split.inlinePubCount parameters = Some 1%nat /\
   Split.countPubInputs parameters = 1%nat) /\
  (forall n elem fs,
     Split.type p = Split.mkAbiType "array" (Some n) (Some elem) fs ->
     (0 < n)%nat ->
     (Split.kind elem =? "array")%string = false ->
     Split.inlinePubCount parameters = Some n /\
     Split.countPubInputs parameters = n) /\
  (forall len elem fs,
     Split.type p = Split.mkAbiType "struct" len elem (Some fs) ->
     Split.inlinePubCount parameters = Some 1%nat /\
     Split.countPubInputs parameters
     = fold_left (fun sum field => (sum + Split.flatten field)%nat) fs 0%nat).
Proof.
  intros Hpub.
  assert (Hfind : find (fun q => (Split.visibility q =? "public")%string) parameters
                  = Some p) by (eapply find_of_filter; exact Hpub).
  unfold Split.inlinePubCount, Split.countPubInputs. rewrite Hpub, Hfind.
  cbn [fold_left]. split; [|split].
  - intros Harr Hstruct. rewrite Harr. split; [reflexivity|].
    unfold Split.flattenStruct. rewrite Hstruct.
    destruct (Split.type p) as [k len elem fs]. cbn [Split.kind Split.fields] in *.
    assert (Split.flatten (Split.mkAbiType k len elem fs) = 1%nat) as E.
    { cbn [Split.flatten]. destruct len, elem; try reflexivity.
      rewrite Harr. reflexivity. }
    destruct fs; exact E.
  - intros n elem fs Ht Hn Helem. rewrite Ht. cbn [Split.kind Split.length_of].
    split; [reflexivity|].
    unfold Split.flattenStruct. cbn [Split.fields Split.kind].
    assert (Split.flatten (Split.mkAbiType "array" (Some n) (Some elem) fs) = n) as E.
    { cbn [Split.flatten].
      change ("array" =? "array")%string with true.
      destruct (Nat.eqb_spec n 0); [lia|]. cbn [negb andb].
      destruct elem as [k len el fs']. cbn [Split.kind] in Helem.
      cbn [Split.flatten]. destruct len, el; try lia.
      rewrite Helem. cbn [andb]. lia. }
    destruct fs; [|exact E].
    change ("array" =? "struct")%string with false. exact E.
  - intros len elem fs Ht. rewrite Ht. cbn [Split.kind Split.length_of].
    change ("struct" =? "array")%string with false.
    split; [reflexivity|].
    unfold Split.flattenStruct. cbn [Split.fields Split.kind].
    reflexivity.
Qed.

Lemma public_input_counters_witness :
  Split.inlinePubCount
    [ {| Split.visibility := "private"; Split.type := Split.mkAbiType "field" None None None |};
      {| Split.visibility := "public";
         Split.type := Split.mkAbiType "array" (Some 6%nat)
                         (Some (Split.mkAbiType "field" None None None)) None |} ]
  = Some 6%nat /\
  Split.countPubInputs
    [ {| Split.visibility := "private"; Split.type := Split.mkAbiType "field" None None None |};
      {| Split.visibility := "public";
         Split.type := Split.mkAbiType "array" (Some 6%nat)
                         (Some (Split.mkAbiType "field" None None None)) None |} ]
  = 6%nat.
Proof.
  destruct (public_input_counters
    [ {| Split.visibility := "private"; Split.type := Split.mkAbiType "field" None None None |};
      {| Split.visibility := "public";
         Split.type := Split.mkAbiType "array" (Some 6%nat)
                         (Some (Split.mkAbiType "field" None None None)) None |} ]
    {| Split.visibility := "public";
       Split.type := Split.mkAbiType "array" (Some 6%nat)
                       (Some (Split.mkAbiType "field" None None None)) None |}
    eq_refl) as (_ & H & _).
  apply (H 6%nat (Split.mkAbiType "field" None None None) None); [reflexivity|lia|reflexivity].
Defined.

(** ** The grid state of the player screens *)

Lemma replaceAt_length {A : Type} (l : list A) (i : Z) (a : A) :
  length (GridState.replaceAt l i a) = length l.
Proof.
  unfold GridState.replaceAt. destruct (Z.ltb_spec i 0); [reflexivity|].
  destruct (Nat.ltb_spec (Z.to_nat i) (length l)); [|reflexivity].
  rewrite length_app, length_firstn. cbn [length]. rewrite length_skipn. lia.
Qed.

Lemma index_replaceAt {A : Type} (l : list A) (i : Z) (a : A) :
  0 <= i < Z.of_nat (length l) ->
  forall j, JS.index (GridState.replaceAt l i a) j
            = if j =? i then Some a else JS.index l j.
Proof.
  intros Hi j. unfold GridState.replaceAt.
  destruct (Z.ltb_spec i 0); [lia|].
  destruct (Nat.ltb_spec (Z.to_nat i) (length l)); [|lia].
  unfold JS.index. destruct (Z.ltb_spec j 0).
  - destruct (Z.eqb_spec j i); [lia|reflexivity].
  - destruct (Z.eqb_spec j i) as [->|Hne].
    + rewrite nth_error_app2 by (rewrite length_firstn; lia).
      rewrite length_firstn.
      replace (Z.to_nat i - Nat.min (Z.to_nat i) (length l))%nat with 0%nat by lia.
      reflexivity.
    + destruct (Nat.lt_ge_cases (Z.to_nat j) (Z.to_nat i)) as [Hlt|Hge].
      * rewrite nth_error_app1 by (rewrite length_firstn; lia).
        rewrite nth_error_firstn.
        destruct (Nat.ltb_spec (Z.to_nat j) (Z.to_nat i)); [reflexivity|lia].
      * rewrite nth_error_app2 by (rewrite length_firstn; lia).
        rewrite length_firstn.
        replace (Z.to_nat j - Nat.min (Z.to_nat i) (length l))%nat
          with (S (Z.to_nat j - S (Z.to_nat i)))%nat by lia.
        cbn [nth_error]. rewrite nth_error_skipn. f_equal. lia.
Qed.

Lemma index_in_range {A : Type} (l : list A) (i : Z) (a : A) :
  JS.index l i = Some a -> 0 <= i < Z.of_nat (length l).
Proof.
  intros H. apply index_Some in H as [H0 Hn].
  assert (nth_error l (Z.to_nat i) <> None) as Hs by congruence.
  apply nth_error_Some in Hs. lia.
Qed.

Lemma index_ext {A : Type} (l l' : list A) :
  (forall j, JS.index l j = JS.index l' j) -> l = l'.
Proof.
  intros H. apply nth_error_ext. intros n.
  specialize (H (Z.of_nat n)). now rewrite !index_of_nat in H.
Qed.

Lemma replaceAt_same {A : Type} (l : list A) (i : Z) (a : A) :
  JS.index l i = Some a -> GridState.replaceAt l i a = l.
Proof.
  intros H. apply index_ext. intros j.
  rewrite index_replaceAt by (eapply index_in_range; exact H).
  destruct (Z.eqb_spec j i) as [->|]; congruence.
Qed.

Lemma replaceAt_twice {A : Type} (l : list A) (i : Z) (a b : A) :
  0 <= i < Z.of_nat (length l) ->
  GridState.replaceAt (GridState.replaceAt l i a) i b = GridState.replaceAt l i b.
Proof.
  intros Hi. apply index_ext. intros j.
  rewrite !index_replaceAt by (rewrite ?replaceAt_length; exact Hi).
  now destruct (j =? i).
Qed.

Lemma cellAt_setCell (grid : GridState.Grid) (x y : Z) (c c' : GridState.Cell) :
  GridState.cellAt grid x y = Some c ->
  forall a b,
    GridState.cellAt (GridState.setCell grid x y c') a b
    = if (a =? x) && (b =? y) then Some c' else GridState.cellAt grid a b.
Proof.
  unfold GridState.cellAt, GridState.setCell. intros Hc a b.
  destruct (JS.index grid x) as [row|] eqn:Erow; [|discriminate].
  rewrite index_replaceAt by (eapply index_in_range; exact Erow).
  destruct (Z.eqb_spec a x) as [->|Hne]; cbn [andb]; [|reflexivity].
  rewrite index_replaceAt by (eapply index_in_range; exact Hc).
  rewrite Erow. reflexivity.
Qed.

Lemma wellFormed_setCell (grid : GridState.Grid) (x y : Z) (c' : GridState.Cell) :
  GridState.wellFormed grid -> GridState.wellFormed (GridState.setCell grid x y c').
Proof.
  unfold GridState.wellFormed, GridState.setCell. intros [Hl Hrows].
  destruct (JS.index grid x) as [row|] eqn:Erow; [|split; assumption].
  split; [now rewrite replaceAt_length|].
  apply Forall_forall. intros r Hr.
  apply In_nth_error in Hr as [n Hn]. rewrite <- index_of_nat in Hn.
  rewrite index_replaceAt in Hn by (eapply index_in_range; exact Erow).
  rewrite Forall_forall in Hrows.
  destruct (Z.of_nat n =? x).
  - injection Hn as <-. rewrite replaceAt_length. apply Hrows.
    apply index_Some in Erow as [_ E]. eapply nth_error_In; exact E.
  - apply Hrows. rewrite index_of_nat in Hn. eapply nth_error_In; exact Hn.
Qed.

Lemma wellFormed_cellAt (grid : GridState.Grid) (x y : Z) :
  GridState.wellFormed grid -> 0 <= x < 8 -> 0 <= y < 8 ->
  exists c, GridState.cellAt grid x y = Some c.
Proof.
  intros [Hl Hrows] Hx Hy. unfold GridState.cellAt.
  destruct (JS.index grid x) as [row|] eqn:Erow.
  - rewrite Forall_forall in Hrows.
    assert (length row = 8%nat) as Hr.
    { apply Hrows. apply index_Some in Erow as [_ E]. eapply nth_error_In; exact E. }
    destruct (JS.index row y) as [c|] eqn:Ec; [eauto|].
    unfold JS.index in Ec. destruct (Z.ltb_spec y 0); [lia|].
    apply nth_error_None in Ec. lia.
  - unfold JS.index in Erow. destruct (Z.ltb_spec x 0); [lia|].
    apply nth_error_None in Erow. lia.
Qed.

Lemma cellAt_in_range (grid : GridState.Grid) (x y : Z) (c : GridState.Cell) :
  GridState.wellFormed grid -> GridState.cellAt grid x y = Some c ->
  0 <= x < 8 /\ 0 <= y < 8.
Proof.
  intros [Hl Hrows] Hc. unfold GridState.cellAt in Hc.
  destruct (JS.index grid x) as [row|] eqn:Erow; [|discriminate].
  pose proof (index_in_range _ _ _ Erow) as Hx.
  pose proof (index_in_range _ _ _ Hc) as Hy.
  rewrite Forall_forall in Hrows.
  assert (length row = 8%nat) as Hr.
  { apply Hrows. apply index_Some in Erow as [_ E]. eapply nth_error_In; exact E. }
  lia.
Qed.

(** X12.  A click of the defender while traps are being set.  On a grid of
    8 by 8 cells and coordinates on the grid, the click returns a grid of
    8 by 8 cells in which the trap flag of (x, y) is negated and every
    other cell, and every other field of (x, y), is as before; a second
    click on the same cell gives the first grid back.  Coordinates off the
    grid throw a TypeError, and once the traps are committed a click
    changes nothing. *)
Theorem defender_click_toggles (grid : GridState.Grid) (x y : Z) :
  GridState.wellFormed grid ->
  (0 <= x < 8 -> 0 <= y < 8 ->
   exists c grid',
     GridState.cellAt grid x y = Some c /\
     DefenderUI.handleCellClick true grid x y = JS.Returned grid' /\
     GridState.wellFormed grid' /\
     GridState.cellAt grid' x y
     = Some {| GridState.x := GridState.x c; GridState.y := GridState.y c;
               GridState.hasTrap := negb (GridState.hasTrap c);
               GridState.isRevealed := GridState.isRevealed c;
               GridState.isHit := GridState.isHit c |} /\
     (forall a b, (a, b) <> (x, y) ->
        GridState.cellAt grid' a b = GridState.cellAt grid a b) /\
     DefenderUI.handleCellClick true grid' x y = JS.Returned grid) /\
  (~ (0 <= x < 8 /\ 0 <= y < 8) ->
   DefenderUI.handleCellClick true grid x y
   = JS.Thrown "TypeError: Cannot read properties of undefined") /\
  DefenderUI.handleCellClick false grid x y = JS.Returned grid.
Proof.
  intros Hwf. split; [|split; [|reflexivity]].
  - intros Hx Hy. destruct (wellFormed_cellAt grid x y Hwf Hx Hy) as [c Hc].
    unfold DefenderUI.handleCellClick. cbn [negb]. rewrite Hc.
    eexists c, _. split; [reflexivity|]. split; [reflexivity|].
    split; [now apply wellFormed_setCell|]. split; [|split].
    + rewrite (cellAt_setCell _ _ _ _ _ Hc). now rewrite !Z.eqb_refl.
    + intros a b Hne. rewrite (cellAt_setCell _ _ _ _ _ Hc).
      destruct (Z.eqb_spec a x), (Z.eqb_spec b y); cbn [andb]; try reflexivity.
      congruence.
    + rewrite (cellAt_setCell _ _ _ _ _ Hc), !Z.eqb_refl. cbn [andb].
      cbn [GridState.x GridState.y GridState.hasTrap GridState.isRevealed GridState.isHit].
      rewrite negb_involutive. f_equal.
      unfold GridState.cellAt in Hc. unfold GridState.setCell.
      destruct (JS.index grid x) as [row|] eqn:Erow; [|discriminate].
      pose proof (index_in_range _ _ _ Erow) as Hrx.
      pose proof (index_in_range _ _ _ Hc) as Hry.
      rewrite index_replaceAt by exact Hrx. rewrite Z.eqb_refl.
      rewrite replaceAt_twice by exact Hrx. rewrite replaceAt_twice by exact Hry.
      destruct c. cbn. rewrite (replaceAt_same row y _ Hc).
      now apply replaceAt_same.
  - intros Hout. unfold DefenderUI.handleCellClick. cbn [negb].
    destruct (GridState.cellAt grid x y) as [c|] eqn:Hc; [|reflexivity].
    destruct Hout. eapply cellAt_in_range; eassumption.
Qed.

Lemma initializeGrid_wellFormed : GridState.wellFormed GridState.initializeGrid.
Proof. split; [reflexivity|]. repeat constructor. Qed.

Lemma defender_click_toggles_witness :
  exists c grid',
    GridState.cellAt GridState.initializeGrid 1 2 = Some c /\
    DefenderUI.handleCellClick true GridState.initializeGrid 1 2 = JS.Returned grid' /\
    DefenderUI.handleCellClick true grid' 1 2 = JS.Returned GridState.initializeGrid.
Proof.
  destruct (defender_click_toggles GridState.initializeGrid 1 2
              initializeGrid_wellFormed) as [H _].
  destruct (H ltac:(lia) ltac:(lia)) as (c & grid' & Hc & Hg & _ & _ & _ & Hback).
  exists c, grid'. auto.
Defined.

(** ** The defender's answer to a move *)
Section DefenderProofFacts.

Variable loadTrapGrid : Z -> option DefenderProof.StoredTrapGrid.
Variable poseidonHash1 : Z -> Z.
Variable prover : ZkProof.CircuitInputs -> JS.outcome ZkProof.ZKProofData.

Local Abbreviation generateDefenderProof :=
  (DefenderProof.generateDefenderProof loadTrapGrid poseidonHash1 prover).

Lemma coordinate_guard (v : Z) :
  JS.lt_lit (JS.of_Z v) 0 || JS.ge_lit (JS.of_Z v) 8 = negb ((0 <=? v) && (v <? 8)).
Proof.
  rewrite lt_lit_of_Z, ge_lit_of_Z.
  destruct (Z.ltb_spec v 0), (Z.leb_spec 8 v), (Z.leb_spec 0 v), (Z.ltb_spec v 8);
    cbn; try reflexivity; lia.
Qed.

(** [generateProof] on a value that is 0 or 1, a move on the board and the
    claim derived from the value: the commitment is computed, the prover is
    attempted once, and a proof is returned. *)
Lemma generateProof_derived_claim (trapValue : JS.number) (moveX moveY : Z) :
  JS.eq_lit trapValue 0 || JS.eq_lit trapValue 1 = true ->
  0 <= moveX < 8 -> 0 <= moveY < 8 ->
  let hit := JS.eq_lit trapValue 1 in
  let commitment := ZkProof.fieldToHex (poseidonHash1 (if hit then 1 else 0)) in
  let inputs :=
    {| ZkProof.trap_commitment := commitment;
       ZkProof.move_x := JS.of_Z moveX;
       ZkProof.move_y := JS.of_Z moveY;
       ZkProof.is_hit := if hit then "1"%string else "0"%string;
       ZkProof.trap_value := trapValue |} in
  ZkProof.computeTrapCommitment poseidonHash1 trapValue = JS.Returned commitment /\
  exists rest proofData,
    ZkProof.generateProof poseidonHash1 prover trapValue
      (JS.of_Z moveX) (JS.of_Z moveY) hit
    = (ZkProof.ProverAttempt inputs :: rest, JS.Returned proofData) /\
    (rest = [] \/
     exists error warning,
       rest = [ZkProof.ConsoleError error; ZkProof.ConsoleWarn warning]).
Proof.
  intros Hv Hx Hy hit commitment inputs.
  assert (negb (JS.eq_lit trapValue 0) && negb (JS.eq_lit trapValue 1) = false) as Hg.
  { destruct (JS.eq_lit trapValue 0), (JS.eq_lit trapValue 1); cbn in *; congruence. }
  unfold ZkProof.generateProof, ZkProof.computeTrapCommitment. rewrite Hg.
  split; [reflexivity|].
  rewrite !coordinate_guard.
  destruct (Z.leb_spec 0 moveX); [|lia]. destruct (Z.ltb_spec moveX 8); [|lia].
  destruct (Z.leb_spec 0 moveY); [|lia]. destruct (Z.ltb_spec moveY 8); [|lia].
  cbn [andb negb].
  assert (hit && negb (JS.eq_lit trapValue 1)
          || negb hit && negb (JS.eq_lit trapValue 0) = false) as ->.
  { unfold hit.
    destruct (JS.eq_lit trapValue 0), (JS.eq_lit trapValue 1); cbn in *; congruence. }
  fold hit. fold commitment. fold inputs.
  destruct (prover inputs) as [result|msg]; do 2 eexists;
    (split; [reflexivity|]); [left; reflexivity|right; eauto].
Qed.

(** X13.  The answer for a stored cell.  When the stored grid of the
    session holds 0 or 1 at the row-major index of a move on the board,
    [generateDefenderProof] returns: the answer's [isHit] is whether the
    stored value is 1, its commitment is the hex form of the hash of that
    value, and the prover is attempted exactly once, with these same
    values, the move and the stored value as inputs; the only other
    events are the two console lines of the fallback.  The claimed result
    is derived from the stored value, so the check of the claim against
    the value cannot fail. *)
Theorem defender_answers_stored_cell
    (sessionId moveX moveY : Z) (trapGrid : DefenderProof.StoredTrapGrid)
    (trapValue : JS.number) :
  loadTrapGrid sessionId = Some trapGrid ->
  JS.index (DefenderProof.trapValues trapGrid) (GridIndex.getCellIndex moveX moveY)
  = Some trapValue ->
  JS.eq_lit trapValue 0 || JS.eq_lit trapValue 1 = true ->
  0 <= moveX < 8 -> 0 <= moveY < 8 ->
  let hit := JS.eq_lit trapValue 1 in
  let commitment := ZkProof.fieldToHex (poseidonHash1 (if hit then 1 else 0)) in
  let inputs :=
    {| ZkProof.trap_commitment := commitment;
       ZkProof.move_x := JS.of_Z moveX;
       ZkProof.move_y := JS.of_Z moveY;
       ZkProof.is_hit := if hit then "1"%string else "0"%string;
       ZkProof.trap_value := trapValue |} in
  exists rest proof publicInputs,
    generateDefenderProof sessionId moveX moveY
    = (ZkProof.ProverAttempt inputs :: rest,
       JS.Returned {| DefenderProof.proof := proof;
                      DefenderProof.publicInputs := publicInputs;
                      DefenderProof.isHit := hit;
                      DefenderProof.trapCommitment := commitment |}) /\
    (rest = [] \/
     exists error warning,
       rest = [ZkProof.ConsoleError error; ZkProof.ConsoleWarn warning]).
Proof.
  intros Hload Hidx Hv Hx Hy hit commitment inputs.
  destruct (generateProof_derived_claim trapValue moveX moveY Hv Hx Hy)
    as (Hcommit & rest & proofData & Hgen & Hrest).
  unfold DefenderProof.generateDefenderProof.
  rewrite Hload. cbv zeta. rewrite Hidx, Hcommit, Hgen.
  exists rest, (ZkProof.proof proofData), (ZkProof.publicInputs proofData).
  split; [reflexivity|exact Hrest].
Qed.

(** X14.  How [generateDefenderProof] throws.  Whenever it throws, the
    prover has not been attempted and the message is one of five: no
    stored grid, no stored value at the index, a stored value other than
    0 and 1, or a coordinate outside [0, 7]; it is never the mismatch of
    the claimed result.  For a move off the board it always throws, also
    when the row-major index of the move falls on a stored cell. *)
Theorem defender_proof_throws (sessionId moveX moveY : Z) :
  (forall events msg,
     generateDefenderProof sessionId moveX moveY = (events, JS.Thrown msg) ->
     events = [] /\
     (msg = "Trap grid not found. Did you set up traps for this session?"%string \/
      msg = "Invalid move coordinates"%string \/
      msg = "Trap value must be 0 or 1"%string \/
      msg = "Move X must be in range [0, 7]"%string \/
      msg = "Move Y must be in range [0, 7]"%string)) /\
  (~ (0 <= moveX < 8 /\ 0 <= moveY < 8) ->
   exists msg, generateDefenderProof sessionId moveX moveY = ([], JS.Thrown msg)).
Proof.
  unfold DefenderProof.generateDefenderProof.
  destruct (loadTrapGrid sessionId) as [trapGrid|].
  2:{ split; [|eauto]. intros events msg [= <- <-]. tauto. }
  cbv zeta.
  destruct (JS.index (DefenderProof.trapValues trapGrid)
              (GridIndex.getCellIndex moveX moveY)) as [trapValue|].
  2:{ split; [|eauto]. intros events msg [= <- <-]. tauto. }
  unfold ZkProof.generateProof, ZkProof.computeTrapCommitment.
  destruct (negb (JS.eq_lit trapValue 0) && negb (JS.eq_lit trapValue 1)) eqn:Hg.
  { split; [|eauto]. intros events msg [= <- <-]. tauto. }
  rewrite !coordinate_guard.
  destruct ((0 <=? moveX) && (moveX <? 8)) eqn:Hx; cbn [negb].
  2:{ split; [|eauto]. intros events msg [= <- <-]. tauto. }
  destruct ((0 <=? moveY) && (moveY <? 8)) eqn:Hy; cbn [negb].
  2:{ split; [|eauto]. intros events msg [= <- <-]. tauto. }
  assert (JS.eq_lit trapValue 1 && negb (JS.eq_lit trapValue 1)
          || negb (JS.eq_lit trapValue 1) && negb (JS.eq_lit trapValue 0) = false) as ->.
  { destruct (JS.eq_lit trapValue 0), (JS.eq_lit trapValue 1); cbn in *; congruence. }
  split.
  - intros events msg. match goal with |- context [prover ?i] => destruct (prover i) end;
      discriminate.
  - intros Hout. destruct Hout. lia.
Qed.

End DefenderProofFacts.

Lemma defender_answers_stored_cell_witness
    : exists rest proof publicInputs,
    DefenderProof.generateDefenderProof
      (fun _ => Some {| DefenderProof.trapValues := map JS.of_Z [0; 1; 0] |})
      (fun v => v + 7) (fun _ => JS.Thrown "no prover") 5 0 1
    = (ZkProof.ProverAttempt
         {| ZkProof.trap_commitment := ZkProof.fieldToHex 8;
            ZkProof.move_x := JS.of_Z 0;
            ZkProof.move_y := JS.of_Z 1;
            ZkProof.is_hit := "1";
            ZkProof.trap_value := JS.of_Z 1 |} :: rest,
       JS.Returned {| DefenderProof.proof := proof;
                      DefenderProof.publicInputs := publicInputs;
                      DefenderProof.isHit := true;
                      DefenderProof.trapCommitment := ZkProof.fieldToHex 8 |}) /\
    (rest = [] \/
     exists error warning,
       rest = [ZkProof.ConsoleError error; ZkProof.ConsoleWarn warning]).
Proof.
  apply (defender_answers_stored_cell
           (fun _ => Some {| DefenderProof.trapValues := map JS.of_Z [0; 1; 0] |})
           (fun v => v + 7) (fun _ => JS.Thrown "no prover") 5 0 1
           {| DefenderProof.trapValues := map JS.of_Z [0; 1; 0] |} (JS.of_Z 1));
    try reflexivity; lia.
Defined.

Lemma defender_proof_throws_witness :
  exists msg,
    DefenderProof.generateDefenderProof
      (fun _ => Some {| DefenderProof.trapValues := repeat (JS.of_Z 1) 64 |})
      (fun v => v) (fun _ => JS.Thrown "no prover") 5 0 9
    = ([], JS.Thrown msg).
Proof.
  apply (defender_proof_throws
           (fun _ => Some {| DefenderProof.trapValues := repeat (JS.of_Z 1) 64 |})
           (fun v => v) (fun _ => JS.Thrown "no prover") 5 0 9).
  lia.
Defined.

(** ** Committing the traps *)

Lemma axis_In (a : Z) : In a GridState.axis <-> 0 <= a < 8.
Proof.
  unfold GridState.axis. rewrite in_map_iff. split.
  - intros (n & <- & Hn). apply in_seq in Hn. cbn in Hn. lia.
  - intros Ha. exists (Z.to_nat a). split; [lia|]. apply in_seq. cbn. lia.
Qed.

Lemma coordinates_In (x y : Z) :
  In (x, y) GridState.coordinates <-> 0 <= x < 8 /\ 0 <= y < 8.
Proof.
  unfold GridState.coordinates. rewrite in_flat_map. split.
  - intros (a & Ha & Hin). apply in_map_iff in Hin as (b & [= <- <-] & Hb).
    now rewrite axis_In in Ha, Hb.
  - intros [Hx Hy]. exists x. rewrite axis_In. split; [exact Hx|].
    apply in_map_iff. exists y. now rewrite axis_In.
Qed.

Lemma small_cases (v : Z) :
  0 <= v < 8 -> v = 0 \/ v = 1 \/ v = 2 \/ v = 3 \/ v = 4 \/ v = 5 \/ v = 6 \/ v = 7.
Proof. lia. Qed.

Lemma coordinates_nth (x y : Z) :
  0 <= x < 8 -> 0 <= y < 8 ->
  nth_error GridState.coordinates (Z.to_nat (GridIndex.getCellIndex x y)) = Some (x, y).
Proof.
  intros Hx Hy. apply small_cases in Hx, Hy.
  repeat (destruct Hx as [->|Hx]); try subst x;
    repeat (destruct Hy as [->|Hy]); try subst y; reflexivity.
Qed.

Lemma pushTrapValues_spec (grid : GridState.Grid) (cells : list (Z * Z)) :
  (forall xy, In xy cells -> GridState.cellAt grid (fst xy) (snd xy) <> None) ->
  forall acc,
    DefenderUI.pushTrapValues grid cells acc
    = JS.Returned
        (acc ++ map (fun xy =>
                       match GridState.cellAt grid (fst xy) (snd xy) with
                       | Some cell => if GridState.hasTrap cell then 1 else 0
                       | None => 0
                       end) cells).
Proof.
  induction cells as [|[x y] rest IH]; intros Hall acc; cbn [DefenderUI.pushTrapValues map].
  - now rewrite app_nil_r.
  - pose proof (Hall (x, y) (or_introl eq_refl)) as Hxy. cbn [fst snd] in *.
    destruct (GridState.cellAt grid x y) as [cell|]; [|congruence].
    rewrite IH by (intros xy Hin; apply Hall; now right).
    now rewrite <- app_assoc.
Qed.

(** X15.  The committed trap values.  From a grid of 8 by 8 cells
    [handleCommitTraps] stores 64 values, each 0 or 1, and the value at
    the row-major index [getCellIndex x y] is 1 exactly when the cell
    (x, y) has a trap: the layout the defender's proof later reads with
    the same index. *)
Theorem committed_values_row_major (grid : GridState.Grid) :
  GridState.wellFormed grid ->
  exists trapValues,
    DefenderUI.handleCommitTraps grid = JS.Returned trapValues /\
    length trapValues = 64%nat /\
    (forall v, In v trapValues -> v = 0 \/ v = 1) /\
    (forall x y, 0 <= x < 8 -> 0 <= y < 8 ->
       exists cell,
         GridState.cellAt grid x y = Some cell /\
         JS.index trapValues (GridIndex.getCellIndex x y)
         = Some (if GridState.hasTrap cell then 1 else 0)).
Proof.
  intros Hwf. unfold DefenderUI.handleCommitTraps.
  rewrite pushTrapValues_spec.
  2:{ intros [x y] Hin. apply coordinates_In in Hin as [Hx Hy]. cbn [fst snd].
      destruct (wellFormed_cellAt grid x y Hwf Hx Hy) as [c ->]. discriminate. }
  cbn [app]. eexists. split; [reflexivity|]. split; [|split].
  - now rewrite length_map.
  - intros v Hin. apply in_map_iff in Hin as ([x y] & <- & _).
    destruct (GridState.cellAt grid _ _) as [c|]; [destruct (GridState.hasTrap c)|];
      auto.
  - intros x y Hx Hy. destruct (wellFormed_cellAt grid x y Hwf Hx Hy) as [c Hc].
    exists c. split; [exact Hc|].
    apply index_Some. split.
    + unfold GridIndex.getCellIndex, GridIndex.GRID_SIZE. lia.
    + rewrite nth_error_map, coordinates_nth by assumption.
      cbn [option_map fst snd]. now rewrite Hc.
Qed.

Lemma committed_values_row_major_witness :
  exists trapValues,
    DefenderUI.handleCommitTraps
      (GridState.setCell GridState.initializeGrid 1 2
         {| GridState.x := 1; GridState.y := 2; GridState.hasTrap := true;
            GridState.isRevealed := false; GridState.isHit := None |})
    = JS.Returned trapValues /\
    length trapValues = 64%nat /\
    JS.index trapValues (GridIndex.getCellIndex 1 2) = Some 1 /\
    JS.index trapValues (GridIndex.getCellIndex 2 1) = Some 0.
Proof.
  destruct (committed_values_row_major
              (GridState.setCell GridState.initializeGrid 1 2
                 {| GridState.x := 1; GridState.y := 2; GridState.hasTrap := true;
                    GridState.isRevealed := false; GridState.isHit := None |})
              (wellFormed_setCell _ _ _ _ initializeGrid_wellFormed))
    as (trapValues & Hcommit & Hlen & _ & Hcells).
  exists trapValues. split; [exact Hcommit|]. split; [exact Hlen|].
  destruct (Hcells 1 2 ltac:(lia) ltac:(lia)) as (trap & Htrap & Hone).
  destruct (Hcells 2 1 ltac:(lia) ltac:(lia)) as (free & Hfree & Hzero).
  vm_compute in Htrap, Hfree. injection Htrap as <-. injection Hfree as <-.
  split; [exact Hone|exact Hzero].
Defined.

(** ** From the committed grid to the defender's answer *)

Lemma index_map {A B : Type} (f : A -> B) (l : list A) (i : Z) :
  JS.index (map f l) i = option_map f (JS.index l i).
Proof.
  unfold JS.index. destruct (i <? 0); [reflexivity|]. apply nth_error_map.
Qed.

Lemma handleCommitTraps_spec (grid : GridState.Grid) :
  GridState.wellFormed grid ->
  DefenderUI.handleCommitTraps grid
  = JS.Returned
      (map (fun xy =>
              match GridState.cellAt grid (fst xy) (snd xy) with
              | Some cell => if GridState.hasTrap cell then 1 else 0
              | None => 0
              end) GridState.coordinates).
Proof.
  intros Hwf. unfold DefenderUI.handleCommitTraps.
  rewrite pushTrapValues_spec; [reflexivity|].
  intros [a b] Hin. apply coordinates_In in Hin as [Ha Hb]. cbn [fst snd].
  destruct (wellFormed_cellAt grid a b Hwf Ha Hb) as [c ->]. discriminate.
Qed.

Lemma committed_value_at (grid : GridState.Grid) (trapValues : list Z) (x y : Z)
    (cell : GridState.Cell) :
  GridState.wellFormed grid ->
  DefenderUI.handleCommitTraps grid = JS.Returned trapValues ->
  0 <= x < 8 -> 0 <= y < 8 ->
  GridState.cellAt grid x y = Some cell ->
  JS.index trapValues (GridIndex.getCellIndex x y)
  = Some (if GridState.hasTrap cell then 1 else 0).
Proof.
  intros Hwf Hcommit Hx Hy Hc.
  rewrite (handleCommitTraps_spec grid Hwf) in Hcommit.
  assert (forall (a b : list Z), JS.Returned a = JS.Returned b -> a = b) as Hinj
    by (intros a b E; congruence).
  apply Hinj in Hcommit. rewrite <- Hcommit. apply index_Some. split.
  - unfold GridIndex.getCellIndex, GridIndex.GRID_SIZE. lia.
  - rewrite nth_error_map, coordinates_nth by assumption.
    cbn [option_map fst snd]. now rewrite Hc.
Qed.

Lemma eq_lit_flag (b : bool) (k : Z) :
  JS.eq_lit (JS.of_Z (if b then 1 else 0)) k = ((if b then 1 else 0) =? k).
Proof. apply eq_lit_of_Z. Qed.

(** X16.  From the set-up to the answer.  Let the defender commit a grid
    of 8 by 8 cells and let the storage hand the committed values back
    for the session.  Then for every move on the board
    [generateDefenderProof] returns, its [isHit] is the trap flag of the
    cell (x, y) of the committed grid, and its commitment is the hex form
    of the hash of 1 for a trap and of 0 otherwise; and
    [getTrapPositions] lists, in row-major order, exactly the cells with
    a trap. *)
Theorem defender_answer_matches_grid
    (loadTrapGrid : Z -> option DefenderProof.StoredTrapGrid)
    (poseidonHash1 : Z -> Z)
    (prover : ZkProof.CircuitInputs -> JS.outcome ZkProof.ZKProofData)
    (grid : GridState.Grid) (trapValues : list Z) (sessionId : Z) :
  GridState.wellFormed grid ->
  DefenderUI.handleCommitTraps grid = JS.Returned trapValues ->
  loadTrapGrid sessionId
  = Some {| DefenderProof.trapValues := map JS.of_Z trapValues |} ->
  (forall x y, 0 <= x < 8 -> 0 <= y < 8 ->
     exists cell events answer,
       GridState.cellAt grid x y = Some cell /\
       DefenderProof.generateDefenderProof loadTrapGrid poseidonHash1 prover
         sessionId x y = (events, JS.Returned answer) /\
       DefenderProof.isHit answer = GridState.hasTrap cell /\
       DefenderProof.trapCommitment answer
       = ZkProof.fieldToHex
           (poseidonHash1 (if GridState.hasTrap cell then 1 else 0))) /\
  DefenderProof.getTrapPositions loadTrapGrid sessionId
  = filter (fun xy => match GridState.cellAt grid (fst xy) (snd xy) with
                      | Some cell => GridState.hasTrap cell
                      | None => false
                      end) GridState.coordinates.
Proof.
  intros Hwf Hcommit Hload. split.
  - intros x y Hx Hy. destruct (wellFormed_cellAt grid x y Hwf Hx Hy) as [cell Hc].
    pose proof (committed_value_at grid trapValues x y cell Hwf Hcommit Hx Hy Hc) as Hv.
    assert (JS.index (map JS.of_Z trapValues) (GridIndex.getCellIndex x y)
            = Some (JS.of_Z (if GridState.hasTrap cell then 1 else 0))) as Hidx
      by (now rewrite index_map, Hv).
    destruct (generateProof_derived_claim poseidonHash1 prover
                (JS.of_Z (if GridState.hasTrap cell then 1 else 0)) x y)
      as (Hc1 & rest & proofData & Hgen & _); [|exact Hx|exact Hy|].
    { rewrite !eq_lit_flag. now destruct (GridState.hasTrap cell). }
    exists cell. do 2 eexists. split; [exact Hc|].
    unfold DefenderProof.generateDefenderProof.
    rewrite Hload. cbv zeta. cbn [DefenderProof.trapValues].
    rewrite Hidx, Hc1, Hgen. split; [reflexivity|].
    cbn [DefenderProof.isHit DefenderProof.trapCommitment].
    rewrite eq_lit_flag. now destruct (GridState.hasTrap cell).
  - unfold DefenderProof.getTrapPositions. rewrite Hload.
    cbn [DefenderProof.trapValues]. apply filter_ext_in.
    intros [x y] Hin. apply coordinates_In in Hin as [Hx Hy]. cbn [fst snd].
    destruct (wellFormed_cellAt grid x y Hwf Hx Hy) as [cell Hc].
    rewrite index_map, (committed_value_at grid trapValues x y cell Hwf Hcommit Hx Hy Hc), Hc.
    cbn [option_map]. rewrite eq_lit_flag. now destruct (GridState.hasTrap cell).
Qed.

Lemma defender_answer_matches_grid_witness :
  DefenderUI.handleCommitTraps
    (GridState.setCell GridState.initializeGrid 1 2
       {| GridState.x := 1; GridState.y := 2; GridState.hasTrap := true;
          GridState.isRevealed := false; GridState.isHit := None |})
  = JS.Returned (repeat 0 10 ++ 1 :: repeat 0 53) /\
  (exists events answer,
     DefenderProof.generateDefenderProof
       (fun _ => Some {| DefenderProof.trapValues :=
                          map JS.of_Z (repeat 0 10 ++ 1 :: repeat 0 53) |})
       (fun v => v + 7) (fun _ => JS.Thrown "no prover") 5 1 2
     = (events, JS.Returned answer) /\
     DefenderProof.isHit answer = true /\
     DefenderProof.trapCommitment answer = ZkProof.fieldToHex 8) /\
  (exists events answer,
     DefenderProof.generateDefenderProof
       (fun _ => Some {| DefenderProof.trapValues :=
                          map JS.of_Z (repeat 0 10 ++ 1 :: repeat 0 53) |})
       (fun v => v + 7) (fun _ => JS.Thrown "no prover") 5 2 1
     = (events, JS.Returned answer) /\
     DefenderProof.isHit answer = false /\
     DefenderProof.trapCommitment answer = ZkProof.fieldToHex 7) /\
  DefenderProof.getTrapPositions
    (fun _ => Some {| DefenderProof.trapValues :=
                          map JS.of_Z (repeat 0 10 ++ 1 :: repeat 0 53) |}) 5
  = [(1, 2)].
Proof.
  assert (DefenderUI.handleCommitTraps
            (GridState.setCell GridState.initializeGrid 1 2
       {| GridState.x := 1; GridState.y := 2; GridState.hasTrap := true;
          GridState.isRevealed := false; GridState.isHit := None |})
          = JS.Returned (repeat 0 10 ++ 1 :: repeat 0 53)) as Hcommit
    by reflexivity.
  destruct (defender_answer_matches_grid
              (fun _ => Some {| DefenderProof.trapValues :=
                          map JS.of_Z (repeat 0 10 ++ 1 :: repeat 0 53) |})
              (fun v => v + 7) (fun _ => JS.Thrown "no prover")
              (GridState.setCell GridState.initializeGrid 1 2
       {| GridState.x := 1; GridState.y := 2; GridState.hasTrap := true;
          GridState.isRevealed := false; GridState.isHit := None |})
              (repeat 0 10 ++ 1 :: repeat 0 53) 5
              (wellFormed_setCell _ _ _ _ initializeGrid_wellFormed)
              Hcommit eq_refl) as [Hanswer Hpositions].
  split; [exact Hcommit|]. split; [|split].
  - destruct (Hanswer 1 2 ltac:(lia) ltac:(lia))
      as (cell & events & answer & Hcell & Hgen & Hhit & Hcom).
    vm_compute in Hcell. injection Hcell as <-.
    exists events, answer. split; [exact Hgen|]. split; [exact Hhit|exact Hcom].
  - destruct (Hanswer 2 1 ltac:(lia) ltac:(lia))
      as (cell & events & answer & Hcell & Hgen & Hhit & Hcom).
    vm_compute in Hcell. injection Hcell as <-.
    exists events, answer. split; [exact Hgen|]. split; [exact Hhit|exact Hcom].
  - rewrite Hpositions. reflexivity.
Defined.

(** ** The attacker's view of the moves *)

Lemma find_snoc {A : Type} (f : A -> bool) (l : list A) (a : A) :
  find f (l ++ [a])
  = match find f l with
    | Some r => Some r
    | None => if f a then Some a else None
    end.
Proof.
  induction l as [|b l IH]; cbn [find app]; [reflexivity|].
  destruct (f b); [reflexivity|exact IH].
Qed.

Lemma reveal_returns (grid : GridState.Grid) (move : AttackerUI.Move) :
  GridState.wellFormed grid ->
  0 <= AttackerUI.x move < 8 -> 0 <= AttackerUI.y move < 8 ->
  exists cell,
    GridState.cellAt grid (AttackerUI.x move) (AttackerUI.y move) = Some cell /\
    AttackerUI.reveal grid move
    = JS.Returned
        (GridState.setCell grid (AttackerUI.x move) (AttackerUI.y move)
           {| GridState.x := GridState.x cell;
              GridState.y := GridState.y cell;
              GridState.hasTrap := GridState.hasTrap cell;
              GridState.isRevealed := true;
              GridState.isHit := Some (AttackerUI.isHit move) |}).
Proof.
  intros Hwf Hx Hy. destruct (wellFormed_cellAt grid _ _ Hwf Hx Hy) as [cell Hc].
  exists cell. split; [exact Hc|]. unfold AttackerUI.reveal. now rewrite Hc.
Qed.

(** The cells after the moves have been applied, for moves on the board. *)
Lemma updateGridWithMoves_cells (gameMoves : list AttackerUI.Move) :
  forall prevGrid,
    GridState.wellFormed prevGrid ->
    (forall m, In m gameMoves ->
       0 <= AttackerUI.x m < 8 /\ 0 <= AttackerUI.y m < 8) ->
    exists newGrid,
      AttackerUI.updateGridWithMoves prevGrid gameMoves = JS.Returned newGrid /\
      GridState.wellFormed newGrid /\
      forall a b cell,
        GridState.cellAt prevGrid a b = Some cell ->
        GridState.cellAt newGrid a b
        = Some
            match find (fun m => (AttackerUI.x m =? a) && (AttackerUI.y m =? b))
                    (rev gameMoves) with
            | Some m =>
                {| GridState.x := GridState.x cell;
                   GridState.y := GridState.y cell;
                   GridState.hasTrap := GridState.hasTrap cell;
                   GridState.isRevealed := true;
                   GridState.isHit := Some (AttackerUI.isHit m) |}
            | None => cell
            end.
Proof.
  induction gameMoves as [|move rest IH]; intros prevGrid Hwf Hall.
  - exists prevGrid. split; [reflexivity|]. split; [exact Hwf|]. auto.
  - destruct (Hall move (or_introl eq_refl)) as [Hx Hy].
    destruct (reveal_returns prevGrid move Hwf Hx Hy) as (c0 & Hc0 & Hrev).
    cbn [AttackerUI.updateGridWithMoves]. rewrite Hrev.
    match type of Hrev with
    | _ = JS.Returned ?g =>
        destruct (IH g (wellFormed_setCell prevGrid _ _ _ Hwf)
                    (fun m Hin => Hall m (or_intror Hin)))
          as (newGrid & Hret & Hwf' & Hcells)
    end.
    exists newGrid. split; [exact Hret|]. split; [exact Hwf'|].
    intros a b cell Hc. cbn [rev]. rewrite find_snoc.
    pose proof (cellAt_setCell prevGrid _ _ _
                  {| GridState.x := GridState.x c0;
                     GridState.y := GridState.y c0;
                     GridState.hasTrap := GridState.hasTrap c0;
                     GridState.isRevealed := true;
                     GridState.isHit := Some (AttackerUI.isHit move) |}
                  Hc0 a b) as Hset.
    destruct (Z.eqb_spec a (AttackerUI.x move)) as [->|Hne].
    + destruct (Z.eqb_spec b (AttackerUI.y move)) as [->|Hne].
      * cbn [andb] in Hset. rewrite (Hcells _ _ _ Hset).
        rewrite !Z.eqb_refl. cbn [andb].
        assert (cell = c0) as -> by congruence.
        now destruct (find _ (rev rest)).
      * cbn [andb] in Hset. rewrite Hc in Hset. rewrite (Hcells _ _ _ Hset).
        rewrite Z.eqb_refl. cbn [andb].
        destruct (Z.eqb_spec (AttackerUI.y move) b); [congruence|].
        now destruct (find _ (rev rest)).
    + cbn [andb] in Hset. rewrite Hc in Hset. rewrite (Hcells _ _ _ Hset).
      destruct (Z.eqb_spec (AttackerUI.x move) a); [congruence|]. cbn [andb].
      now destruct (find _ (rev rest)).
Qed.

Lemma updateGridWithMoves_throws (gameMoves : list AttackerUI.Move) :
  forall prevGrid,
    GridState.wellFormed prevGrid ->
    (exists m, In m gameMoves /\
       ~ (0 <= AttackerUI.x m < 8 /\ 0 <= AttackerUI.y m < 8)) ->
    AttackerUI.updateGridWithMoves prevGrid gameMoves
    = JS.Thrown "TypeError: Cannot read properties of undefined".
Proof.
  induction gameMoves as [|move rest IH]; intros prevGrid Hwf (m & Hin & Hout).
  - destruct Hin.
  - cbn [AttackerUI.updateGridWithMoves]. unfold AttackerUI.reveal.
    destruct (GridState.cellAt prevGrid (AttackerUI.x move) (AttackerUI.y move))
      as [c0|] eqn:Hc0; [|reflexivity].
    apply IH; [now apply wellFormed_setCell|].
    destruct Hin as [->|Hin]; [|eauto].
    destruct Hout. eapply cellAt_in_range; eassumption.
Qed.

(** X17.  Showing the moves.  On a grid of 8 by 8 cells and moves that
    all lie on the board, [updateGridWithMoves] returns a grid of 8 by 8
    cells in which every cell that some move names is revealed and shows
    the result of the last such move, with its coordinates and trap flag
    unchanged, and every other cell is as before.  If some move lies off
    the board the update throws a TypeError and no grid is returned. *)
Theorem moves_reveal_cells (prevGrid : GridState.Grid)
    (gameMoves : list AttackerUI.Move) :
  GridState.wellFormed prevGrid ->
  ((forall m, In m gameMoves ->
      0 <= AttackerUI.x m < 8 /\ 0 <= AttackerUI.y m < 8) ->
   exists newGrid,
     AttackerUI.updateGridWithMoves prevGrid gameMoves = JS.Returned newGrid /\
     GridState.wellFormed newGrid /\
     forall a b cell,
       GridState.cellAt prevGrid a b = Some cell ->
       GridState.cellAt newGrid a b
       = Some
           match find (fun m => (AttackerUI.x m =? a) && (AttackerUI.y m =? b))
                   (rev gameMoves) with
           | Some m =>
               {| GridState.x := GridState.x cell;
                  GridState.y := GridState.y cell;
                  GridState.hasTrap := GridState.hasTrap cell;
                  GridState.isRevealed := true;
                  GridState.isHit := Some (AttackerUI.isHit m) |}
           | None => cell
           end) /\
  ((exists m, In m gameMoves /\
      ~ (0 <= AttackerUI.x m < 8 /\ 0 <= AttackerUI.y m < 8)) ->
   AttackerUI.updateGridWithMoves prevGrid gameMoves
   = JS.Thrown "TypeError: Cannot read properties of undefined").
Proof.
  intros Hwf. split.
  - now apply updateGridWithMoves_cells.
  - now apply updateGridWithMoves_throws.
Qed.

Lemma moves_reveal_cells_witness :
  AttackerUI.updateGridWithMoves GridState.initializeGrid
    [{| AttackerUI.x := 1; AttackerUI.y := 2; AttackerUI.isHit := true;
        AttackerUI.verified := true |};
     {| AttackerUI.x := 8; AttackerUI.y := 0; AttackerUI.isHit := false;
        AttackerUI.verified := true |}]
  = JS.Thrown "TypeError: Cannot read properties of undefined".
Proof.
  apply (moves_reveal_cells GridState.initializeGrid _ initializeGrid_wellFormed).
  eexists. split; [right; left; reflexivity|]. cbn. lia.
Defined.

(** X18.  Which cells the attacker can select.  With no game state, or
    once the game has ended, a click selects nothing, whatever the
    coordinates.  In a running game, after the moves (all on the board)
    have been shown on a grid of 8 by 8 cells, a click on a cell named by
    some move selects nothing, and a click on a cell of the board that no
    move names and that was not revealed before selects that cell; a
    click off the board throws a TypeError. *)
Theorem attacker_click_selects (prevGrid newGrid : GridState.Grid)
    (gameMoves : list AttackerUI.Move) (x y : Z) :
  GridState.wellFormed prevGrid ->
  (forall m, In m gameMoves ->
     0 <= AttackerUI.x m < 8 /\ 0 <= AttackerUI.y m < 8) ->
  AttackerUI.updateGridWithMoves prevGrid gameMoves = JS.Returned newGrid ->
  AttackerUI.handleCellClick None newGrid x y = JS.Returned None /\
  AttackerUI.handleCellClick (Some true) newGrid x y = JS.Returned None /\
  ((exists m, In m gameMoves /\ AttackerUI.x m = x /\ AttackerUI.y m = y) ->
   AttackerUI.handleCellClick (Some false) newGrid x y = JS.Returned None) /\
  (forall cell,
     GridState.cellAt prevGrid x y = Some cell ->
     GridState.isRevealed cell = false ->
     (forall m, In m gameMoves -> ~ (AttackerUI.x m = x /\ AttackerUI.y m = y)) ->
     AttackerUI.handleCellClick (Some false) newGrid x y = JS.Returned (Some (x, y))) /\
  (~ (0 <= x < 8 /\ 0 <= y < 8) ->
   AttackerUI.handleCellClick (Some false) newGrid x y
   = JS.Thrown "TypeError: Cannot read properties of undefined").
Proof.
  intros Hwf Hall Hupd.
  destruct (updateGridWithMoves_cells gameMoves prevGrid Hwf Hall)
    as (g & Hret & Hwf' & Hcells).
  assert (g = newGrid) as -> by congruence.
  split; [reflexivity|]. split; [reflexivity|]. split; [|split].
  - intros (m & Hin & Hmx & Hmy).
    assert (0 <= x < 8 /\ 0 <= y < 8) as [Hx Hy] by (subst x y; now apply Hall).
    destruct (wellFormed_cellAt prevGrid x y Hwf Hx Hy) as [cell Hc].
    unfold AttackerUI.handleCellClick. rewrite (Hcells _ _ _ Hc).
    destruct (find _ (rev gameMoves)) as [m'|] eqn:Hfind; [reflexivity|].
    pose proof (find_none _ _ Hfind m (proj1 (in_rev _ _) Hin)) as Hf.
    cbv beta in Hf. rewrite Hmx, Hmy, !Z.eqb_refl in Hf. discriminate.
  - intros cell Hc Hrev Hnone.
    unfold AttackerUI.handleCellClick. rewrite (Hcells _ _ _ Hc).
    destruct (find _ (rev gameMoves)) as [m'|] eqn:Hfind.
    + apply find_some in Hfind as [Hin Hf]. apply in_rev in Hin.
      apply andb_prop in Hf as [Hfx Hfy].
      apply Z.eqb_eq in Hfx, Hfy. destruct (Hnone m' Hin). now split.
    + now rewrite Hrev.
  - intros Hout. unfold AttackerUI.handleCellClick.
    destruct (GridState.cellAt newGrid x y) as [c|] eqn:Hc; [|reflexivity].
    destruct Hout. eapply cellAt_in_range; eassumption.
Qed.

Lemma attacker_click_selects_witness :
  exists newGrid,
    AttackerUI.updateGridWithMoves GridState.initializeGrid
      [{| AttackerUI.x := 1; AttackerUI.y := 2; AttackerUI.isHit := true;
          AttackerUI.verified := true |}] = JS.Returned newGrid /\
    AttackerUI.handleCellClick (Some false) newGrid 1 2 = JS.Returned None.
Proof.
  eexists. split; [reflexivity|].
  refine (proj1 (proj2 (proj2
    (attacker_click_selects GridState.initializeGrid _
       [{| AttackerUI.x := 1; AttackerUI.y := 2; AttackerUI.isHit := true;
           AttackerUI.verified := true |}] 1 2
       initializeGrid_wellFormed _ eq_refl))) _).
  - intros m [<-|[]]. cbn. lia.
  - eexists. split; [left; reflexivity|]. split; reflexivity.
Defined.

(** X19.  Every move counts once: the number of hits and the number of
    misses shown to the attacker add up to the number of moves. *)
Theorem hits_and_misses_partition (moves : list AttackerUI.Move) :
  (AttackerUI.hits moves + AttackerUI.misses moves)%nat = length moves.
Proof.
  unfold AttackerUI.hits, AttackerUI.misses.
  induction moves as [|m rest IH]; [reflexivity|].
  cbn [filter]. destruct (AttackerUI.isHit m); cbn [negb length]; lia.
Qed.

(** ** Formatting a proof for the contract call *)

Lemma chars_app (a b : string) :
  list_ascii_of_string (a ++ b) = list_ascii_of_string a ++ list_ascii_of_string b.
Proof. induction a as [|c a IH]; cbn; [reflexivity|now rewrite IH]. Qed.

Lemma string_app_empty (a : string) : (a ++ "")%string = a.
Proof. induction a as [|c a IH]; cbn; [reflexivity|now rewrite IH]. Qed.

Lemma concat_empty_cons (x : string) (xs : list string) :
  String.concat "" (x :: xs) = (x ++ String.concat "" xs)%string.
Proof.
  destruct xs as [|y ys]; cbn [String.concat].
  - now rewrite string_app_empty.
  - reflexivity.
Qed.

Lemma byteToHex_reads_back (b : Byte.byte) (rest : list ascii) :
  PublicInputs.bufferFromHex (list_ascii_of_string (ProofFormat.byteToHex b) ++ rest)
  = Z.of_N (Byte.to_N b) :: PublicInputs.bufferFromHex rest.
Proof. destruct b; reflexivity. Qed.

Lemma byteToHex_length (b : Byte.byte) :
  String.length (ProofFormat.byteToHex b) = 2%nat.
Proof. destruct b; reflexivity. Qed.

Lemma string_length_app (a b : string) :
  String.length (a ++ b) = (String.length a + String.length b)%nat.
Proof. induction a as [|c a IH]; cbn; [reflexivity|now rewrite IH]. Qed.

Lemma bytesToHex_chars (bytes : list Byte.byte) :
  PublicInputs.bufferFromHex
    (list_ascii_of_string (String.concat "" (map ProofFormat.byteToHex bytes)))
  = map (fun b => Z.of_N (Byte.to_N b)) bytes /\
  String.length (String.concat "" (map ProofFormat.byteToHex bytes))
  = (2 * length bytes)%nat.
Proof.
  induction bytes as [|b rest [IHv IHl]]; [split; reflexivity|].
  cbn [map]. rewrite concat_empty_cons, chars_app, byteToHex_reads_back, IHv.
  rewrite string_length_app, byteToHex_length, IHl. cbn [length]. split; [reflexivity|lia].
Qed.

(** X20.  The hex text of a proof.  [formatProofForContract] writes each
    of the two byte arrays as the prefix 0x followed by two hex digits
    per byte, so a text has 2 + 2n characters for n bytes, and reading it
    with the hex reader of the public-inputs encoder, after the prefix is
    dropped, gives the bytes back: no byte is lost or merged, also for
    bytes below 16. *)
Theorem proof_hex_round_trip (proofData : ZkProof.ZKProofData) :
  let formatted := ProofFormat.formatProofForContract proofData in
  let read hex := PublicInputs.bufferFromHex
                    (PublicInputs.cleanHex (list_ascii_of_string hex)) in
  let values := map (fun b => Z.of_N (Byte.to_N b)) in
  read (ProofFormat.proofHex formatted) = values (ZkProof.proof proofData) /\
  read (ProofFormat.publicInputsHex formatted)
  = values (ZkProof.publicInputs proofData) /\
  String.length (ProofFormat.proofHex formatted)
  = (2 + 2 * length (ZkProof.proof proofData))%nat /\
  String.length (ProofFormat.publicInputsHex formatted)
  = (2 + 2 * length (ZkProof.publicInputs proofData))%nat.
Proof.
  cbv zeta. unfold ProofFormat.formatProofForContract, ProofFormat.bytesToHex.
  cbn [ProofFormat.proofHex ProofFormat.publicInputsHex].
  destruct (bytesToHex_chars (ZkProof.proof proofData)) as [Hp Hpl].
  destruct (bytesToHex_chars (ZkProof.publicInputs proofData)) as [Hi Hil].
  rewrite !chars_app, !string_length_app.
  change (list_ascii_of_string "0x") with ["0"%char; "x"%char].
  cbn [app PublicInputs.cleanHex String.length].
  rewrite Hp, Hi, Hpl, Hil. repeat split.
Qed.

(** ** Local verification *)

(** X21.  Local verification fails open.  [verifyProofLocally] answers
    false in exactly one case: the circuit artifact was fetched and the
    backend returned the verdict false.  A missing artifact, or a throw
    anywhere before a verdict, gives true together with a warning on the
    console; a verdict is passed on with nothing logged. *)
Theorem local_verification_fails_open
    (circuitResponse : JS.outcome bool)
    (verifyProof : list Byte.byte -> list Byte.byte -> JS.outcome bool)
    (proof publicInputs : list Byte.byte) :
  let result :=
    ProofFormat.verifyProofLocally circuitResponse verifyProof proof publicInputs in
  (snd result = false <->
   circuitResponse = JS.Returned true /\
   verifyProof proof publicInputs = JS.Returned false) /\
  (forall verified,
     circuitResponse = JS.Returned true ->
     verifyProof proof publicInputs = JS.Returned verified ->
     result = ([], verified)) /\
  (circuitResponse <> JS.Returned true \/
   (exists msg, verifyProof proof publicInputs = JS.Thrown msg) ->
   snd result = true /\ exists warning, In (ZkProof.ConsoleWarn warning) (fst result)).
Proof.
  cbv zeta. unfold ProofFormat.verifyProofLocally.
  destruct circuitResponse as [[|]|msg].
  - destruct (verifyProof proof publicInputs) as [[|]|msg]; cbn [fst snd].
    + split; [split; [discriminate|intros [_ H]; discriminate]|].
      split; [intros v _ [= <-]; reflexivity|].
      intros [H|[m H]]; [congruence|discriminate].
    + split; [split; [auto|reflexivity]|].
      split; [intros v _ [= <-]; reflexivity|].
      intros [H|[m H]]; [congruence|discriminate].
    + split; [split; [discriminate|intros [_ H]; discriminate]|].
      split; [discriminate|].
      intros _. split; [reflexivity|]. eexists. right. left. reflexivity.
  - cbn [fst snd]. split; [split; [discriminate|intros [H _]; discriminate]|].
    split; [discriminate|].
    intros _. split; [reflexivity|]. eexists. left. reflexivity.
  - cbn [fst snd]. split; [split; [discriminate|intros [H _]; discriminate]|].
    split; [discriminate|].
    intros _. split; [reflexivity|]. eexists. right. left. reflexivity.
Qed.

Lemma local_verification_fails_open_witness :
  ProofFormat.verifyProofLocally (JS.Returned true)
    (fun _ _ => JS.Thrown "backend") [Byte.x00] [Byte.x01]
  = ([ZkProof.ConsoleError "Error verifying proof locally:";
      ZkProof.ConsoleWarn "Skipping local verification"], true) /\
  ProofFormat.verifyProofLocally (JS.Returned true)
    (fun _ _ => JS.Returned false) [Byte.x00] [Byte.x01] = ([], false).
Proof.
  split; [reflexivity|].
  apply (local_verification_fails_open (JS.Returned true)
           (fun _ _ => JS.Returned false) [Byte.x00] [Byte.x01]); reflexivity.
Defined.

(** ** Starting a game *)

(** X22.  The session id of a new game.  For an integer session id,
    [startGame] throws, whatever the server would do, exactly when the id
    lies outside [0, 4294967295]; otherwise its outcome is the outcome of
    preparing the transaction, to which both point amounts and the
    addresses are passed unchecked. *)
Theorem startGame_session_id
    (numberToString : JS.number -> string)
    (sessionId : Z) (defender attacker : string)
    (defenderPoints attackerPoints : JS.number) (signerPublicKey : string) :
  (~ (0 <= sessionId <= 4294967295) ->
   exists msg, forall prepare,
     StellarStart.startGame numberToString prepare (JS.of_Z sessionId)
       defender attacker defenderPoints attackerPoints signerPublicKey
     = JS.Thrown msg) /\
  (0 <= sessionId <= 4294967295 ->
   forall prepare,
     StellarStart.startGame numberToString prepare (JS.of_Z sessionId)
       defender attacker defenderPoints attackerPoints signerPublicKey
     = prepare {| StellarStart.sessionId := JS.of_Z sessionId;
                  StellarStart.defender := defender;
                  StellarStart.attacker := attacker;
                  StellarStart.defenderPoints := defenderPoints;
                  StellarStart.attackerPoints := attackerPoints;
                  StellarStart.signerPublicKey := signerPublicKey |}).
Proof.
  unfold StellarStart.startGame. rewrite notU32_of_Z.
  destruct (Z.leb_spec 0 sessionId), (Z.leb_spec sessionId 4294967295);
    cbn [andb negb]; split; intros Hc; try lia; eauto.
Qed.

Lemma startGame_session_id_witness :
  (exists msg, forall prepare,
     StellarStart.startGame (fun _ => "n"%string) prepare (JS.of_Z 1700000000000)
       "GDEF" "GATT" JS.NaN JS.NaN "GDEF" = JS.Thrown msg) /\
  (forall prepare,
     StellarStart.startGame (fun _ => "n"%string) prepare (JS.of_Z 7)
       "GDEF" "GATT" JS.NaN JS.NaN "GDEF"
     = prepare {| StellarStart.sessionId := JS.of_Z 7;
                  StellarStart.defender := "GDEF";
                  StellarStart.attacker := "GATT";
                  StellarStart.defenderPoints := JS.NaN;
                  StellarStart.attackerPoints := JS.NaN;
                  StellarStart.signerPublicKey := "GDEF" |}).
Proof.
  split.
  - apply (startGame_session_id (fun _ => "n"%string) 1700000000000
             "GDEF" "GATT" JS.NaN JS.NaN "GDEF"). lia.
  - apply (startGame_session_id (fun _ => "n"%string) 7
             "GDEF" "GATT" JS.NaN JS.NaN "GDEF"). lia.
Defined.
